(** * The nanos run-loop scheduler (src/kernel/schedule.c)

    A shallow embedding of the per-CPU run loop: the three work queues,
    the idle-CPU mask, the kernel lock, the platform-timer bookkeeping and
    the thread migration protocol.  One pass of [runloop_internal] on one
    CPU is modelled sequentially: the other CPUs are passive, their
    [cpuinfo] structures are only touched by the calling CPU.

    Code that runs in a pass is written in a small monad over the machine
    state.  A computation yields the list of calls it made (its trace) and
    either returns, crashes (null idle mask dereferenced, failed assert),
    or is still looping when its fuel is gone.  The fuel bounds the number
    of iterations of each loop.

    Closures are taken to return to the run loop.  A closure that keeps
    control, as a resumed thread does, cuts the pass short: its trace is a
    prefix of the one computed here, and what the monitors below accept
    they accept of every prefix.

    Timestamps are 64-bit and kept as integers with the wrap-around
    written out; CPU ids are natural numbers below [total_processors]. *)

From Stdlib Require Import ZArith List Bool Lia.
From stdpp Require Import base list.
Import ListNotations.

(** ** Machine integers *)

(** [u64]: the value of an unsigned 64-bit expression. *)
Definition u64 (z : Z) : Z := (z mod 2 ^ 64)%Z.

(** [s64]: the value of an expression converted to a signed 64-bit integer. *)
Definition s64 (z : Z) : Z :=
  let w := (z mod 2 ^ 64)%Z in if (w <? 2 ^ 63)%Z then w else (w - 2 ^ 64)%Z.

(** Modelled from the spec: the macro [MIN] (declared outside schedule.c)
    picks the smaller argument.  Here [x] has type s64 and [y] type u64, so
    the comparison and the result are unsigned and [x] is converted first. *)
Definition MIN (x y : Z) : Z := if (u64 x <? y)%Z then u64 x else y.

(** ** Data *)

(** A thunk is the address of a closure; [INVALID_ADDRESS] is [None] in an
    [option thunk]. *)
Definition thunk := nat.

(** The CPU states, in the order of [state_strings_backing]. *)
Inductive cpu_state : Type :=
| cpu_not_present | cpu_idle | cpu_kernel | cpu_interrupt | cpu_user.

Definition cpu_state_eqb (a b : cpu_state) : bool :=
  match a, b with
  | cpu_not_present, cpu_not_present | cpu_idle, cpu_idle
  | cpu_kernel, cpu_kernel | cpu_interrupt, cpu_interrupt
  | cpu_user, cpu_user => true
  | _, _ => false
  end.

(** Per-CPU data.  [ci->id] is the position of the structure in [cpus].
    [current_thread] holds the pause closure of the thread returned by
    [get_current_thread()], if there is one. *)
Record cpuinfo : Type := mkCpu {
  state : cpu_state;
  thread_queue : list thunk;
  ci_last_timer_update : Z;
  have_kernel_lock : bool;
  current_thread : option thunk
}.

Definition blank_cpu : cpuinfo :=
  {| state := cpu_not_present; thread_queue := []; ci_last_timer_update := 0%Z;
     have_kernel_lock := false; current_thread := None |}.

(** Modelled from the spec: a timer of the timer heap (its type is declared
    outside schedule.c); the scheduler only passes the heap on. *)
Record timer : Type := mkTimer {
  expiry : Z;
  handler : thunk;
  interval : option Z;
  cancelled : bool
}.

(** The globals of schedule.c, the per-CPU structures, the raw monotonic
    clock, and the deadline the one-shot hardware timer was last armed
    for ([hw_deadline], written by [runloop_timer] only). *)
Record machine : Type := mkMachine {
  runqueue : list thunk;
  bhqueue : list thunk;
  runloop_timers : list timer;
  idle_cpu_mask : option Z;
  last_timer_update : Z;
  shutting_down : bool;
  kernel_lock : bool;
  cpus : list cpuinfo;
  clock_raw : Z;
  hw_deadline : option Z
}.

(** One [cpuinfo] per processor, with ids [0 .. total_processors - 1]. *)
Definition total_processors (m : machine) : nat := length (cpus m).

Definition cpuinfo_from_id (m : machine) (cpu : nat) : cpuinfo :=
  default blank_cpu (cpus m !! cpu).

Definition with_cpus (f : list cpuinfo -> list cpuinfo) (m : machine) : machine :=
  {| runqueue := runqueue m; bhqueue := bhqueue m;
     runloop_timers := runloop_timers m; idle_cpu_mask := idle_cpu_mask m;
     last_timer_update := last_timer_update m; shutting_down := shutting_down m;
     kernel_lock := kernel_lock m; cpus := f (cpus m);
     clock_raw := clock_raw m; hw_deadline := hw_deadline m |}.

Definition update_cpu (cpu : nat) (f : cpuinfo -> cpuinfo) : machine -> machine :=
  with_cpus (alter f cpu).

Definition set_state (s : cpu_state) (c : cpuinfo) : cpuinfo :=
  {| state := s; thread_queue := thread_queue c;
     ci_last_timer_update := ci_last_timer_update c;
     have_kernel_lock := have_kernel_lock c; current_thread := current_thread c |}.

Definition set_thread_queue (q : list thunk) (c : cpuinfo) : cpuinfo :=
  {| state := state c; thread_queue := q;
     ci_last_timer_update := ci_last_timer_update c;
     have_kernel_lock := have_kernel_lock c; current_thread := current_thread c |}.

Definition set_ci_last_timer_update (v : Z) (c : cpuinfo) : cpuinfo :=
  {| state := state c; thread_queue := thread_queue c;
     ci_last_timer_update := v;
     have_kernel_lock := have_kernel_lock c; current_thread := current_thread c |}.

Definition set_have_kernel_lock (b : bool) (c : cpuinfo) : cpuinfo :=
  {| state := state c; thread_queue := thread_queue c;
     ci_last_timer_update := ci_last_timer_update c;
     have_kernel_lock := b; current_thread := current_thread c |}.

Definition set_runqueue (q : list thunk) (m : machine) : machine :=
  {| runqueue := q; bhqueue := bhqueue m;
     runloop_timers := runloop_timers m; idle_cpu_mask := idle_cpu_mask m;
     last_timer_update := last_timer_update m; shutting_down := shutting_down m;
     kernel_lock := kernel_lock m; cpus := cpus m;
     clock_raw := clock_raw m; hw_deadline := hw_deadline m |}.

Definition set_bhqueue (q : list thunk) (m : machine) : machine :=
  {| runqueue := runqueue m; bhqueue := q;
     runloop_timers := runloop_timers m; idle_cpu_mask := idle_cpu_mask m;
     last_timer_update := last_timer_update m; shutting_down := shutting_down m;
     kernel_lock := kernel_lock m; cpus := cpus m;
     clock_raw := clock_raw m; hw_deadline := hw_deadline m |}.

Definition set_idle_cpu_mask (b : option Z) (m : machine) : machine :=
  {| runqueue := runqueue m; bhqueue := bhqueue m;
     runloop_timers := runloop_timers m; idle_cpu_mask := b;
     last_timer_update := last_timer_update m; shutting_down := shutting_down m;
     kernel_lock := kernel_lock m; cpus := cpus m;
     clock_raw := clock_raw m; hw_deadline := hw_deadline m |}.

Definition set_last_timer_update (v : Z) (m : machine) : machine :=
  {| runqueue := runqueue m; bhqueue := bhqueue m;
     runloop_timers := runloop_timers m; idle_cpu_mask := idle_cpu_mask m;
     last_timer_update := v; shutting_down := shutting_down m;
     kernel_lock := kernel_lock m; cpus := cpus m;
     clock_raw := clock_raw m; hw_deadline := hw_deadline m |}.

Definition set_kernel_lock (b : bool) (m : machine) : machine :=
  {| runqueue := runqueue m; bhqueue := bhqueue m;
     runloop_timers := runloop_timers m; idle_cpu_mask := idle_cpu_mask m;
     last_timer_update := last_timer_update m; shutting_down := shutting_down m;
     kernel_lock := b; cpus := cpus m;
     clock_raw := clock_raw m; hw_deadline := hw_deadline m |}.

Definition set_hw_deadline (d : option Z) (m : machine) : machine :=
  {| runqueue := runqueue m; bhqueue := bhqueue m;
     runloop_timers := runloop_timers m; idle_cpu_mask := idle_cpu_mask m;
     last_timer_update := last_timer_update m; shutting_down := shutting_down m;
     kernel_lock := kernel_lock m; cpus := cpus m;
     clock_raw := clock_raw m; hw_deadline := d |}.

(** ** Calls made by the scheduler *)

Inductive queue_id : Type :=
| QBh | QRun | QThread (cpu : nat).

Inductive event : Type :=
| EvDequeue (q : queue_id) (r : option thunk)
| EvEnqueue (cpu : nat) (t : thunk) (ok : bool)
| EvRun (t : thunk)
| EvPause (p : thunk)
| EvTryLock (ok : bool)
| EvUnlock
| EvTimerService (now : Z)
| EvMmService
| EvTimer (timeout : Z)
| EvWakeup (cpu : nat)
| EvIpi (cpu : nat)
| EvDisableInterrupts
| EvTlbFlush
| EvSleep
| EvWfi.

(** ** The monad *)

Inductive status (A : Type) : Type :=
| Done (a : A) (m : machine)
| Crash
| Spin (m : machine).
Arguments Done {A} a m.
Arguments Crash {A}.
Arguments Spin {A} m.

Definition M (A : Type) : Type := machine -> list event * status A.

Definition ret {A} (a : A) : M A := fun m => ([], Done a m).

Definition bind {A B} (x : M A) (f : A -> M B) : M B :=
  fun m =>
    match x m with
    | (tr, Done a m') => let (tr', s) := f a m' in (tr ++ tr', s)
    | (tr, Crash) => (tr, Crash)
    | (tr, Spin m') => (tr, Spin m')
    end.

Declare Scope sched_scope.
Delimit Scope sched_scope with sched.
Notation "x <- c1 ;; c2" := (bind c1 (fun x => c2))
  (at level 100, c1 at next level, right associativity) : sched_scope.
Notation "c1 ;; c2" := (bind c1 (fun _ => c2))
  (at level 100, right associativity) : sched_scope.
Local Open Scope sched_scope.

Definition get : M machine := fun m => ([], Done m m).
Definition modify (f : machine -> machine) : M unit := fun m => ([], Done tt (f m)).
Definition emit (e : event) : M unit := fun m => ([e], Done tt m).
Definition crash {A} : M A := fun _ => ([], Crash).
Definition spin {A} : M A := fun m => ([], Spin m).

(** [assert(b)]: a failed assertion halts the kernel. *)
Definition assert (b : bool) : M unit := if b then ret tt else crash.

(** ** What the scheduler calls but does not define

    Closures, the timer heap, the memory manager and the interrupt wait
    are code outside schedule.c; they may change any part of the machine.
    [runloop_timer_min] and [runloop_timer_max] are the two static
    variables [init_scheduler] sets from [RUNLOOP_TIMER_MIN_PERIOD_US] and
    [RUNLOOP_TIMER_MAX_PERIOD_US]; [thread_queue_size] is the capacity the
    per-CPU thread queues were allocated with. *)
Class Platform : Type := {
  apply : thunk -> machine -> machine;
  timer_service : Z -> machine -> machine;
  timer_check : list timer -> Z;
  mm_service : machine -> machine;
  wait_for_interrupt : machine -> machine;
  runloop_timer_min : Z;
  runloop_timer_max : Z;
  thread_queue_size : nat
}.

Section Scheduler.
Context {P : Platform}.

(** [now(CLOCK_ID_MONOTONIC_RAW)] *)
Definition now : M Z := fun m => ([], Done (clock_raw m) m).

Definition current_cpu (self : nat) : M cpuinfo :=
  fun m => ([], Done (cpuinfo_from_id m self) m).

(** *** Queues *)

(** The contents of a queue, oldest task first. *)
Definition queue_of (q : queue_id) (m : machine) : list thunk :=
  match q with
  | QBh => bhqueue m
  | QRun => runqueue m
  | QThread cpu => thread_queue (cpuinfo_from_id m cpu)
  end.

Definition set_queue (q : queue_id) (l : list thunk) : machine -> machine :=
  match q with
  | QBh => set_bhqueue l
  | QRun => set_runqueue l
  | QThread cpu => update_cpu cpu (set_thread_queue l)
  end.

(** Modelled from the spec: [dequeue] of a bounded FIFO queue takes the
    oldest task, and returns the sentinel on an empty queue. *)
Definition dequeue (q : queue_id) : M (option thunk) :=
  m <- get ;;
  match queue_of q m with
  | [] => emit (EvDequeue q None) ;; ret None
  | t :: l => modify (set_queue q l) ;; emit (EvDequeue q (Some t)) ;; ret (Some t)
  end.

(** Modelled from the spec: [enqueue] on the thread queue of [cpu] appends
    the task, and fails on a full queue. *)
Definition enqueue (cpu : nat) (t : thunk) : M bool :=
  m <- get ;;
  let l := queue_of (QThread cpu) m in
  if length l <? thread_queue_size
  then modify (set_queue (QThread cpu) (l ++ [t])) ;; emit (EvEnqueue cpu t true) ;; ret true
  else emit (EvEnqueue cpu t false) ;; ret false.

(** Modelled from the spec: [queue_empty] tells whether the queue holds no
    task. *)
Definition queue_empty (q : queue_id) : M bool :=
  m <- get ;;
  ret (match queue_of q m with [] => true | _ => false end).

(** *** The idle mask

    The bitmap is the bits of an integer.  The global [idle_cpu_mask] is
    null until [init_scheduler_cpus] has run; using a null bitmap crashes. *)

(** Modelled from the spec: [bitmap_set_atomic] sets or clears bit [i]. *)
Definition bitmap_set_atomic (b : Z) (i : nat) (v : bool) : Z :=
  if v then Z.setbit b (Z.of_nat i) else Z.clearbit b (Z.of_nat i).

(** Modelled from the spec: [bitmap_range_get_first] is the first set bit
    among the [n] bits from [first] on, [INVALID_PHYSICAL] (here [None])
    when there is none. *)
Fixpoint bitmap_range_get_first (b : Z) (first n : nat) : option nat :=
  match n with
  | O => None
  | S n' => if Z.testbit b (Z.of_nat first) then Some first
            else bitmap_range_get_first b (S first) n'
  end.

(** The bitmap [idle_cpu_mask] points to. *)
Definition the_idle_cpu_mask : M Z :=
  m <- get ;;
  match idle_cpu_mask m with
  | Some b => ret b
  | None => crash
  end.

(** Modelled from the spec: [bitmap_test_and_set_atomic] on the idle mask
    sets or clears bit [i] and returns the value the bit had. *)
Definition bitmap_test_and_set_atomic (i : nat) (v : bool) : M bool :=
  b <- the_idle_cpu_mask ;;
  modify (set_idle_cpu_mask (Some (bitmap_set_atomic b i v))) ;;
  ret (Z.testbit b (Z.of_nat i)).

(** ** The code of schedule.c *)

Definition kern_try_lock (self : nat) : M bool :=
  ci <- current_cpu self ;;
  assert (negb (cpu_state_eqb (state ci) cpu_interrupt)) ;;
  m <- get ;;
  if kernel_lock m
  then emit (EvTryLock false) ;; ret false
  else modify (set_kernel_lock true) ;;
       modify (update_cpu self (set_have_kernel_lock true)) ;;
       emit (EvTryLock true) ;;
       ret true.

Definition kern_unlock (self : nat) : M unit :=
  ci <- current_cpu self ;;
  assert (negb (cpu_state_eqb (state ci) cpu_interrupt)) ;;
  modify (update_cpu self (set_have_kernel_lock false)) ;;
  modify (set_kernel_lock false) ;;
  emit EvUnlock.

Definition run_thunk (t : thunk) : M unit :=
  emit (EvRun t) ;;
  modify (apply t).

(** Modelled from the spec: [runloop_timer(timeout)] arms the one-shot
    hardware timer; it will fire [timeout] after the current time. *)
Definition runloop_timer (timeout : Z) : M unit :=
  emit (EvTimer timeout) ;;
  m <- get ;;
  modify (set_hw_deadline (Some (u64 (clock_raw m + timeout)))).

(** The timeout [update_timer] chooses for a signed distance [delta]. *)
Definition timer_timeout (delta : Z) : Z :=
  if (delta >? s64 runloop_timer_min)%Z
  then MIN delta runloop_timer_max
  else runloop_timer_min.

Definition update_timer (self : nat) : M bool :=
  m <- get ;;
  let next := timer_check (runloop_timers m) in
  if negb (last_timer_update m =? 0)%Z && (next =? last_timer_update m)%Z
  then ret false
  else
    t <- now ;;
    let delta := s64 (next - t) in
    let timeout := timer_timeout delta in
    modify (update_cpu self (set_ci_last_timer_update (u64 (next + timeout - delta)))) ;;
    modify (set_last_timer_update (u64 (next + timeout - delta))) ;;
    runloop_timer timeout ;;
    ret true.

Definition sched_thread_pause (self : nat) : M unit :=
  m <- get ;;
  if shutting_down m then ret tt
  else
    ci <- current_cpu self ;;
    match current_thread ci with
    | Some p => emit (EvPause p) ;; modify (apply p)
    | None => ret tt
    end.

(** The [while (1) wait_for_interrupt();] of [kernel_sleep]. *)
Fixpoint wait_loop (fuel : nat) : M Empty_set :=
  match fuel with
  | O => spin
  | S fuel' => emit EvWfi ;; modify wait_for_interrupt ;; wait_loop fuel'
  end.

Definition kernel_sleep (fuel : nat) (self : nat) : M Empty_set :=
  emit EvSleep ;;
  modify (update_cpu self (set_state cpu_idle)) ;;
  m <- get ;;
  match idle_cpu_mask m with
  | Some b => modify (set_idle_cpu_mask (Some (bitmap_set_atomic b self true)))
  | None => ret tt
  end ;;
  wait_loop fuel.

Definition send_ipi (cpu : nat) : M unit := emit (EvIpi cpu).

Definition wakeup_cpu (cpu : nat) : M unit :=
  emit (EvWakeup cpu) ;;
  was_idle <- bitmap_test_and_set_atomic cpu false ;;
  if was_idle then send_ipi cpu else ret tt.

(** What [migrate_to_self] does for one idle CPU [cpu] found by the scan. *)
Definition migrate_to_self_visit (t : option thunk) (cpu : nat) : M (option thunk) :=
  t <- match t with
       | None => dequeue (QThread cpu)
       | Some _ => ret t
       end ;;
  e <- queue_empty (QThread cpu) ;;
  (if bool_decide (is_Some t) && negb e then wakeup_cpu cpu else ret tt) ;;
  ret t.

Fixpoint migrate_to_self (fuel : nat) (t : option thunk) (first_cpu ncpus : nat)
  : M (option thunk) :=
  match fuel with
  | O => spin
  | S fuel' =>
    if ncpus =? 0 then ret t
    else
      b <- the_idle_cpu_mask ;;
      match bitmap_range_get_first b first_cpu ncpus with
      | None => ret t
      | Some cpu =>
        t <- migrate_to_self_visit t cpu ;;
        migrate_to_self fuel' t (cpu + 1) (ncpus - (cpu - first_cpu + 1))
      end
  end.

(** What [migrate_from_self] does for one idle CPU [cpu] found by the scan. *)
Definition migrate_from_self_visit (self cpu : nat) : M unit :=
  e <- queue_empty (QThread cpu) ;;
  if negb e then wakeup_cpu cpu
  else
    t <- dequeue (QThread self) ;;
    match t with
    | Some t => enqueue cpu t ;; wakeup_cpu cpu
    | None => ret tt
    end.

Fixpoint migrate_from_self (fuel : nat) (self first_cpu ncpus : nat) : M unit :=
  match fuel with
  | O => spin
  | S fuel' =>
    if ncpus =? 0 then ret tt
    else
      b <- the_idle_cpu_mask ;;
      match bitmap_range_get_first b first_cpu ncpus with
      | None => ret tt
      | Some cpu =>
        migrate_from_self_visit self cpu ;;
        migrate_from_self fuel' self (cpu + 1) (ncpus - (cpu - first_cpu + 1))
      end
  end.

(** [while ((t = dequeue(q)) != INVALID_ADDRESS) run_thunk(t);] *)
Fixpoint drain (fuel : nat) (q : queue_id) : M unit :=
  match fuel with
  | O => spin
  | S fuel' =>
    t <- dequeue q ;;
    match t with
    | Some t => run_thunk t ;; drain fuel' q
    | None => ret tt
    end
  end.

(** The block run under the kernel lock. *)
Definition locked_work (fuel : nat) (self : nat) : M bool :=
  modify (update_cpu self (set_state cpu_kernel)) ;;
  t <- now ;;
  emit (EvTimerService t) ;;
  modify (timer_service t) ;;
  drain fuel QRun ;;
  emit EvMmService ;;
  modify mm_service ;;
  timer_updated <- update_timer self ;;
  kern_unlock self ;;
  ret timer_updated.

(** [for (u64 cpu = ci->id + 1; ; cpu++)]: the steal from a CPU that is
    running a thread. *)
Fixpoint steal_from_user (fuel : nat) (self cpu : nat) : M (option thunk) :=
  match fuel with
  | O => spin
  | S fuel' =>
    m <- get ;;
    let cpu := if cpu =? total_processors m then 0 else cpu in
    if cpu =? self then ret None
    else
      if cpu_state_eqb (state (cpuinfo_from_id m cpu)) cpu_user
      then
        t <- dequeue (QThread cpu) ;;
        match t with
        | Some _ => ret t
        | None => steal_from_user fuel' self (cpu + 1)
        end
      else steal_from_user fuel' self (cpu + 1)
  end.

(** The branch taken when the local thread queue was empty. *)
Definition migration_pull (fuel : nat) (self : nat) : M (option thunk) :=
  m <- get ;;
  t <- (if self + 1 <? total_processors m
        then migrate_to_self fuel None (self + 1) (total_processors m - self - 1)
        else ret None) ;;
  t <- (if 0 <? self then migrate_to_self fuel t 0 self else ret t) ;;
  match t with
  | None => steal_from_user fuel self (self + 1)
  | Some _ => ret t
  end.

(** The branch taken when the local thread queue yielded a thread. *)
Definition migration_push (fuel : nat) (self : nat) : M unit :=
  m <- get ;;
  (if self + 1 <? total_processors m
   then migrate_from_self fuel self (self + 1) (total_processors m - self - 1)
   else ret tt) ;;
  (if 0 <? self then migrate_from_self fuel self 0 self else ret tt).

(** Platform calls that do not touch the scheduler's data. *)
Definition disable_interrupts : M unit := emit EvDisableInterrupts.

Definition page_invalidate_flush : M unit := emit EvTlbFlush.

(** The timer check made before a thread is resumed. *)
Definition ensure_cpu_timer (self : nat) (timer_updated : bool) : M unit :=
  m <- get ;;
  if negb timer_updated && (1 <? total_processors m)
  then
    here <- now ;;
    ci <- current_cpu self ;;
    let timeout := s64 (ci_last_timer_update ci - here) in
    if (timeout <? 0)%Z || (runloop_timer_max <? u64 timeout)%Z
    then runloop_timer runloop_timer_max ;;
         modify (update_cpu self (set_ci_last_timer_update (u64 (here + runloop_timer_max))))
    else ret tt
  else ret tt.

(** The [if (!shutting_down)] block. *)
Definition schedule_thread (fuel : nat) (self : nat) (timer_updated : bool) : M unit :=
  t <- dequeue (QThread self) ;;
  t <- match t with
       | None => migration_pull fuel self
       | Some _ => migration_push fuel self ;; ret t
       end ;;
  match t with
  | Some t => ensure_cpu_timer self timer_updated ;; run_thunk t
  | None => ret tt
  end.

Definition runloop_internal (fuel : nat) (self : nat) : M Empty_set :=
  sched_thread_pause self ;;
  disable_interrupts ;;
  modify (update_cpu self (set_state cpu_kernel)) ;;
  page_invalidate_flush ;;
  drain fuel QBh ;;
  locked <- kern_try_lock self ;;
  timer_updated <- (if locked then locked_work fuel self else ret false) ;;
  m <- get ;;
  (if negb (shutting_down m) then schedule_thread fuel self timer_updated else ret tt) ;;
  sched_thread_pause self ;;
  kernel_sleep fuel self.

End Scheduler.

(** ** A concrete platform

    Closures and services that leave the scheduler's data alone; the next
    deadline is the expiry at the head of the heap.  Used to run the
    scheduler on concrete machines. *)
Definition quiet_platform : Platform :=
  {| apply := fun _ m => m;
     timer_service := fun _ m => m;
     timer_check := fun h => match h with
                             | t :: _ => expiry t
                             | [] => (2 ^ 64 - 1)%Z
                             end;
     mm_service := fun m => m;
     wait_for_interrupt := fun m => m;
     runloop_timer_min := 100%Z;
     runloop_timer_max := 500%Z;
     thread_queue_size := 8 |}.

Definition cpu_with (s : cpu_state) (q : list thunk) : cpuinfo :=
  {| state := s; thread_queue := q; ci_last_timer_update := 0%Z;
     have_kernel_lock := false; current_thread := None |}.

(** A machine on which the platform timer was never programmed
    ([last_timer_update] is still 0, the idle mask is not allocated yet)
    and the timer at the head of the heap has expiry 0. *)
Definition boot_machine : machine :=
  {| runqueue := []; bhqueue := [];
     runloop_timers := [ {| expiry := 0%Z; handler := 7; interval := None; cancelled := false |} ];
     idle_cpu_mask := None; last_timer_update := 0%Z; shutting_down := false;
     kernel_lock := false; cpus := [cpu_with cpu_kernel []];
     clock_raw := 1000%Z; hw_deadline := None |}.

(** ** Monitors on the trace

    A monitor is a partial transition function on events; a trace is
    accepted when the monitor can follow it to its end.  Acceptance is
    closed under prefixes, so it can be asked of a pass that crashed or is
    still looping as well. *)
Section Monitor.
Context {S : Type} (step : S -> event -> option S).

Fixpoint monitor (s : S) (tr : list event) : option S :=
  match tr with
  | [] => Some s
  | e :: tr' =>
    match step s e with
    | Some s' => monitor s' tr'
    | None => None
    end
  end.

(** [wp x s Q m]: run from machine [m] with the monitor in state [s], the
    computation [x] produces a trace the monitor accepts, and if it
    returns then [Q] holds of the value, the machine and the monitor. *)
Definition wp {A} (x : M A) (s : S) (Q : A -> machine -> S -> Prop) (m : machine) : Prop :=
  exists s', monitor s (fst (x m)) = Some s' /\
             match snd (x m) with
             | Done a m' => Q a m' s'
             | _ => True
             end.

End Monitor.

(** The monitor that accepts everything; used for facts about the state. *)
Definition any_step (s : unit) (e : event) : option unit := Some s.

(** *** Every dequeued task is consumed once

    The monitor keeps the tasks dequeued and not yet consumed ([Some
    pending]) until the CPU sleeps ([None]).  Running a task or putting it
    on another CPU's thread queue consumes it; both are refused for a task
    that is not pending, a failed enqueue is refused, and so is going to
    sleep while a task is pending.  A sleeping CPU only waits. *)
Fixpoint take (t : thunk) (pending : list thunk) : option (list thunk) :=
  match pending with
  | [] => None
  | u :: rest =>
    if t =? u then Some rest
    else match take t rest with
         | Some rest' => Some (u :: rest')
         | None => None
         end
  end.

Definition consume_step (self : nat) (st : option (list thunk)) (e : event)
  : option (option (list thunk)) :=
  match st with
  | None =>
    match e with
    | EvWfi => Some None
    | _ => None
    end
  | Some pending =>
    match e with
    | EvDequeue _ (Some t) => Some (Some (t :: pending))
    | EvRun t => option_map Some (take t pending)
    | EvEnqueue cpu t ok =>
      if ok && negb (cpu =? self) then option_map Some (take t pending) else None
    | EvSleep => match pending with [] => Some None | _ => None end
    | _ => Some st
    end
  end.

Definition pending_of (st : option (list thunk)) : list thunk :=
  match st with
  | Some pending => pending
  | None => []
  end.

(** The tasks a trace dequeues, runs, and puts on a thread queue. *)
Definition dequeued (tr : list event) : list thunk :=
  flat_map (fun e => match e with EvDequeue _ (Some t) => [t] | _ => [] end) tr.

Definition ran (tr : list event) : list thunk :=
  flat_map (fun e => match e with EvRun t => [t] | _ => [] end) tr.

Definition requeued (tr : list event) : list thunk :=
  flat_map (fun e => match e with EvEnqueue _ t true => [t] | _ => [] end) tr.

(** *** The order of the phases

    [PhBh]: before the lock is tried; [PhLocked]: between a successful
    [kern_try_lock] and [kern_unlock]; [PhAfter]: after the lock block (or
    the failed attempt).  The second component is the task just taken from
    [bhqueue] or [runqueue]: it has to be run next. *)
Inductive phase : Type := PhBh | PhLocked | PhAfter.

Definition phase_step (s : phase * option thunk) (e : event)
  : option (phase * option thunk) :=
  match s, e with
  | (ph, Some t), EvRun u => if t =? u then Some (ph, None) else None
  | (_, Some _), _ => None
  | (PhBh, None), EvPause _ => Some s
  | (PhBh, None), EvDisableInterrupts => Some s
  | (PhBh, None), EvTlbFlush => Some s
  | (PhBh, None), EvDequeue QBh r => Some (PhBh, r)
  | (PhBh, None), EvTryLock ok => Some (if ok then PhLocked else PhAfter, None)
  | (PhBh, None), _ => None
  | (PhLocked, None), EvTimerService _ => Some s
  | (PhLocked, None), EvMmService => Some s
  | (PhLocked, None), EvTimer _ => Some s
  | (PhLocked, None), EvDequeue QRun r => Some (PhLocked, r)
  | (PhLocked, None), EvUnlock => Some (PhAfter, None)
  | (PhLocked, None), _ => None
  | (PhAfter, None), EvDequeue (QThread _) _ => Some s
  | (PhAfter, None), EvDequeue _ _ => None
  | (PhAfter, None), EvTryLock _ => None
  | (PhAfter, None), EvUnlock => None
  | (PhAfter, None), EvTimerService _ => None
  | (PhAfter, None), EvMmService => None
  | (PhAfter, None), EvDisableInterrupts => None
  | (PhAfter, None), EvTlbFlush => None
  | (PhAfter, None), _ => Some s
  end.

(** *** A pass during shutdown

    No thread queue is touched, no CPU is woken, no thread is paused. *)
Definition shutdown_step (s : unit) (e : event) : option unit :=
  match e with
  | EvDequeue (QThread _) _ => None
  | EvEnqueue _ _ _ => None
  | EvWakeup _ => None
  | EvIpi _ => None
  | EvPause _ => None
  | _ => Some s
  end.

(** The tasks pending when the scheduler holds [r]. *)
Definition pend (r : option thunk) (pending : list thunk) : list thunk :=
  match r with
  | Some t => t :: pending
  | None => pending
  end.

(** What the spec says a pass does once [shutting_down] is set: the
    bhqueue drain and the opportunistic lock block, then [kernel_sleep];
    no pause callback and no thread selection. *)
Definition shutdown_pass {P : Platform} (fuel : nat) (self : nat) : M Empty_set :=
  disable_interrupts ;;
  modify (update_cpu self (set_state cpu_kernel)) ;;
  page_invalidate_flush ;;
  drain fuel QBh ;;
  locked <- kern_try_lock self ;;
  (if locked then locked_work fuel self else ret false) ;;
  kernel_sleep fuel self.

(** ** Scenarios *)

Definition set_clock_raw (t : Z) (m : machine) : machine :=
  {| runqueue := runqueue m; bhqueue := bhqueue m;
     runloop_timers := runloop_timers m; idle_cpu_mask := idle_cpu_mask m;
     last_timer_update := last_timer_update m; shutting_down := shutting_down m;
     kernel_lock := kernel_lock m; cpus := cpus m;
     clock_raw := t; hw_deadline := hw_deadline m |}.

Definition set_shutting_down (b : bool) (m : machine) : machine :=
  {| runqueue := runqueue m; bhqueue := bhqueue m;
     runloop_timers := runloop_timers m; idle_cpu_mask := idle_cpu_mask m;
     last_timer_update := last_timer_update m; shutting_down := b;
     kernel_lock := kernel_lock m; cpus := cpus m;
     clock_raw := clock_raw m; hw_deadline := hw_deadline m |}.

(** The machine a pass leaves behind. *)
Definition left_by {A} (r : list event * status A) : machine :=
  match snd r with
  | Done _ m => m
  | Spin m => m
  | Crash => boot_machine
  end.

(** An interrupt taken at time [t]: thread [th] has become runnable on
    [cpu]. *)
Definition interrupt_at (t : Z) (cpu : nat) (th : thunk) (m : machine) : machine :=
  set_clock_raw t
    (update_cpu cpu
       (fun c => set_thread_queue (thread_queue c ++ [th]) c) m).

(** Two CPUs at time 1000, one timer due at 1300, thread 11 runnable on
    CPU 0. *)
Definition two_cpu_machine : machine :=
  {| runqueue := []; bhqueue := [];
     runloop_timers := [ {| expiry := 1300%Z; handler := 7; interval := None; cancelled := false |} ];
     idle_cpu_mask := Some 0%Z; last_timer_update := 0%Z; shutting_down := false;
     kernel_lock := false;
     cpus := [cpu_with cpu_kernel [11]; cpu_with cpu_idle []];
     clock_raw := 1000%Z; hw_deadline := None |}.

(** CPU 0 makes a pass at 1000; CPU 1 is interrupted at 1100 with thread
    22 and makes a pass; CPU 1 is interrupted again at 1200 with thread
    33. *)
Definition after_two_passes : machine :=
  let m1 := left_by (runloop_internal (P := quiet_platform) 4 0 two_cpu_machine) in
  let m2 := left_by (runloop_internal (P := quiet_platform) 4 1 (interrupt_at 1100 1 22 m1)) in
  interrupt_at 1200 1 33 m2.

(** Scenario S4 of the spec: four threads queued on CPU 0, CPU 1 idle
    with an empty queue. *)
Definition push_machine : machine :=
  {| runqueue := [40]; bhqueue := [30; 31];
     runloop_timers := [ {| expiry := 1300%Z; handler := 7; interval := None; cancelled := false |} ];
     idle_cpu_mask := Some 2%Z; last_timer_update := 0%Z; shutting_down := false;
     kernel_lock := false;
     cpus := [cpu_with cpu_kernel [11; 12; 13; 14]; cpu_with cpu_idle []];
     clock_raw := 1000%Z; hw_deadline := None |}.

(** [boot_machine] 300 before the raw clock wraps: the deadline 0 at the
    head of the heap is 300 ahead. *)
Definition wrapped_clock_machine : machine :=
  set_clock_raw (2 ^ 64 - 300) boot_machine.

(** The timer bookkeeping of [m'] is that of [m]. *)
Definition same_timer (m m' : machine) : Prop :=
  last_timer_update m' = last_timer_update m /\ hw_deadline m' = hw_deadline m.

(** ** Migration pull, as the spec words it

    The other CPUs are looked at in the order [self+1 .. total-1], then
    [0 .. self-1].  A scan tries the thread queue of each candidate in turn
    and stops at the first that yields a thread; first the idle CPUs are
    scanned, and the CPUs in state [cpu_user] only if that found nothing. *)
Definition scan_order (self total : nat) : list nat :=
  seq (self + 1) (total - self - 1) ++ seq 0 self.

Fixpoint steal_scan (m : machine) (cands : list nat) : list event * option thunk :=
  match cands with
  | [] => ([], None)
  | c :: rest =>
    match queue_of (QThread c) m with
    | t :: _ => ([EvDequeue (QThread c) (Some t)], Some t)
    | [] => let (evs, r) := steal_scan m rest in (EvDequeue (QThread c) None :: evs, r)
    end
  end.

Definition is_idle (b : Z) (c : nat) : bool := Z.testbit b (Z.of_nat c).

Definition is_user (m : machine) (c : nat) : bool :=
  cpu_state_eqb (state (cpuinfo_from_id m c)) cpu_user.

Definition pull_spec (b : Z) (self : nat) (m : machine) : list event * option thunk :=
  let order := scan_order self (total_processors m) in
  match steal_scan m (List.filter (is_idle b) order) with
  | (evs, Some t) => (evs, Some t)
  | (evs, None) =>
    let (evs', r) := steal_scan m (List.filter (is_user m) order) in (evs ++ evs', r)
  end.

Definition is_dequeue (e : event) : bool :=
  match e with
  | EvDequeue _ _ => true
  | _ => false
  end.

Definition is_steal (e : event) : bool :=
  match e with
  | EvDequeue _ (Some _) => true
  | _ => false
  end.

(** The dequeue calls of a trace, in order. *)
Definition dequeues (tr : list event) : list event := List.filter is_dequeue tr.

(** Four CPUs seen from CPU 1: CPU 2 runs a thread and has thread 50
    queued, CPU 3 is idle with an empty queue, CPU 0 is idle with threads
    60 and 61 queued. *)
Definition pull_machine : machine :=
  {| runqueue := []; bhqueue := [];
     runloop_timers := [];
     idle_cpu_mask := Some 9%Z; last_timer_update := 0%Z; shutting_down := false;
     kernel_lock := false;
     cpus := [cpu_with cpu_idle [60; 61]; cpu_with cpu_kernel [];
              cpu_with cpu_user [50]; cpu_with cpu_idle []];
     clock_raw := 1000%Z; hw_deadline := None |}.

(** ** More of schedule.c *)

(** The loop of [wakeup_or_interrupt_cpu_all], from CPU [i] on. *)
Fixpoint wakeup_all_from (fuel : nat) (self i : nat) : M unit :=
  match fuel with
  | O => spin
  | S fuel' =>
    m <- get ;;
    if i <? total_processors m
    then
      (if negb (i =? self)
       then b <- the_idle_cpu_mask ;;
            modify (set_idle_cpu_mask (Some (bitmap_set_atomic b i false))) ;;
            send_ipi i
       else ret tt) ;;
      wakeup_all_from fuel' self (i + 1)
    else ret tt
  end.

Definition wakeup_or_interrupt_cpu_all (fuel : nat) (self : nat) : M unit :=
  wakeup_all_from fuel self 0.

(** The opportunistic lock block of [runloop_internal]:
    [if (kern_try_lock()) { ... }]. *)
Definition lock_block {P : Platform} (fuel : nat) (self : nat) : M bool :=
  locked <- kern_try_lock self ;;
  if locked then locked_work fuel self else ret false.

(** ** Properties of the state *)

(** The ownership flags agree with the spinlock: a CPU has
    [have_kernel_lock] only while the spinlock is taken, and no two CPUs
    have it. *)
Definition lock_consistent (m : machine) : Prop :=
  forall c, have_kernel_lock (cpuinfo_from_id m c) = true ->
            kernel_lock m = true /\
            forall c', have_kernel_lock (cpuinfo_from_id m c') = true -> c' = c.

(** All the threads queued on some CPU. *)
Definition all_threads (m : machine) : list thunk :=
  flat_map thread_queue (cpus m).

(** No CPU of the range [first .. first + n - 1] is marked idle in [b]
    while it has a thread queued. *)
Definition idle_cpus_drained (b : Z) (first n : nat) (m : machine) : Prop :=
  forall c, first <= c < first + n ->
            Z.testbit b (Z.of_nat c) = true -> queue_of (QThread c) m = [].

(** *** The end of a pass

    [StWork]: up to the end of the lock block; [StSelect]: a thread is
    being chosen; [StResumed]: the chosen thread has been resumed.  The
    flag tells whether the platform timer has been programmed in this pass.
    The monitor refuses a second programming of the timer, a second task
    run after the lock block, and anything but the pause callback and the
    sleep once the thread has been resumed. *)
Inductive stage : Type := StWork | StSelect | StResumed.

Definition pass_step (s : stage * bool) (e : event) : option (stage * bool) :=
  match e, s with
  | (EvPause _ | EvSleep | EvWfi), _ => Some s
  | _, (StResumed, _) => None
  | EvTimer _, (st, armed) => if armed then None else Some (st, true)
  | (EvTryLock false | EvUnlock), (StWork, armed) => Some (StSelect, armed)
  | (EvTryLock false | EvUnlock), _ => None
  | EvRun _, (StSelect, armed) => Some (StResumed, armed)
  | _, _ => Some s
  end.

(** The events of choosing a thread: thread-queue traffic and wakeups. *)
Definition selection_event (e : event) : bool :=
  match e with
  | EvDequeue (QThread _) _ | EvEnqueue _ _ _ | EvWakeup _ | EvIpi _ => true
  | _ => false
  end.

(** The timeouts the platform timer is programmed with, in order. *)
Definition timers (tr : list event) : list Z :=
  flat_map (fun e => match e with EvTimer z => [z] | _ => [] end) tr.

(** * Proofs *)

Section Proofs.
Context {P : Platform}.

(** ** Machine integers *)

Lemma s64_range z : (- 2 ^ 63 <= s64 z < 2 ^ 63)%Z.
Proof.
  unfold s64. pose proof (Z.mod_pos_bound z (2 ^ 64) ltac:(lia)) as H.
  cbv zeta. destruct (Z.ltb_spec (z mod 2 ^ 64) (2 ^ 63)); lia.
Qed.

Lemma s64_small z : (- 2 ^ 63 <= z < 2 ^ 63)%Z -> s64 z = z.
Proof.
  intros H. unfold s64. cbv zeta.
  destruct (Z_lt_dec z 0) as [Hn | Hn].
  - replace (z mod 2 ^ 64)%Z with (z + 2 ^ 64)%Z.
    + destruct (Z.ltb_spec (z + 2 ^ 64) (2 ^ 63)); lia.
    + apply Z.mod_unique with (q := (-1)%Z); lia.
  - rewrite Z.mod_small by lia. destruct (Z.ltb_spec z (2 ^ 63)); lia.
Qed.

Lemma u64_small z : (0 <= z < 2 ^ 64)%Z -> u64 z = z.
Proof. intros H. unfold u64. apply Z.mod_small; lia. Qed.

Lemma u64_s64 z : u64 (s64 z) = u64 z.
Proof.
  unfold s64, u64. cbv zeta.
  destruct (Z.ltb_spec (z mod 2 ^ 64) (2 ^ 63)).
  - apply Z.mod_mod; lia.
  - rewrite <- Zminus_mod_idemp_r, Z.mod_same, Z.sub_0_r by lia.
    apply Z.mod_mod; lia.
Qed.

(** [next + timeout - delta], computed on 64 bits with
    [delta = (s64)(next - now)], is [now + timeout]. *)
Lemma deadline_arith next t timeout :
  u64 (next + timeout - s64 (next - t)) = u64 (t + timeout).
Proof.
  unfold u64.
  rewrite <- Zminus_mod_idemp_r.
  change ((s64 (next - t)) mod 2 ^ 64)%Z with (u64 (s64 (next - t))).
  rewrite u64_s64. unfold u64.
  rewrite Zminus_mod_idemp_r. f_equal. lia.
Qed.

(** ** Running a sequence *)

Lemma bind_done {A B} (x : M A) (f : A -> M B) m tr1 a m1 tr2 b m2 :
  x m = (tr1, Done a m1) -> f a m1 = (tr2, Done b m2) ->
  bind x f m = (tr1 ++ tr2, Done b m2).
Proof. intros Hx Hf. unfold bind. rewrite Hx, Hf. reflexivity. Qed.

(** ** The platform timer *)

Lemma timer_timeout_cases (delta : Z) :
  (0 <= runloop_timer_min < 2 ^ 63)%Z ->
  (- 2 ^ 63 <= delta < 2 ^ 63)%Z ->
  ((delta <= runloop_timer_min)%Z -> timer_timeout delta = runloop_timer_min) /\
  ((runloop_timer_min < delta)%Z -> timer_timeout delta = Z.min delta runloop_timer_max).
Proof.
  intros Hmin Hd. unfold timer_timeout. rewrite (s64_small runloop_timer_min) by lia.
  destruct (Z.gtb_spec delta runloop_timer_min) as [Hgt | Hle]; split; intros H; try lia.
  unfold MIN. rewrite u64_small by lia.
  destruct (Z.ltb_spec delta runloop_timer_max); lia.
Qed.

Lemma update_timer_unfold (self : nat) (m : machine) :
  update_timer self m =
  if negb (last_timer_update m =? 0)%Z
     && (timer_check (runloop_timers m) =? last_timer_update m)%Z
  then ([], Done false m)
  else
    let next := timer_check (runloop_timers m) in
    let delta := s64 (next - clock_raw m) in
    let timeout := timer_timeout delta in
    let v := u64 (next + timeout - delta) in
    ([EvTimer timeout],
     Done true
       (set_hw_deadline (Some (u64 (clock_raw m + timeout)))
          (set_last_timer_update v (update_cpu self (set_ci_last_timer_update v) m)))).
Proof.
  unfold update_timer, bind, get.
  destruct (negb (last_timer_update m =? 0)%Z
            && (timer_check (runloop_timers m) =? last_timer_update m)%Z);
    reflexivity.
Qed.

(** C3 (as amended): [update_timer] leaves the hardware timer alone and
    returns false exactly when [last_timer_update] is non-zero and equals
    the next deadline of the heap; in every other case, also when both are
    zero, it calls [runloop_timer] once and returns true. *)
Theorem update_timer_skips_iff (self : nat) (m : machine) :
  let next := timer_check (runloop_timers m) in
  let delta := s64 (next - clock_raw m) in
  if decide (last_timer_update m <> 0%Z /\ next = last_timer_update m)
  then update_timer self m = ([], Done false m)
  else exists m', update_timer self m = ([EvTimer (timer_timeout delta)], Done true m')
                  /\ hw_deadline m' = Some (u64 (clock_raw m + timer_timeout delta)).
Proof.
  cbv zeta. rewrite update_timer_unfold.
  destruct (Z.eqb_spec (last_timer_update m) 0) as [Hz | Hz];
    destruct (Z.eqb_spec (timer_check (runloop_timers m)) (last_timer_update m)) as [He | He];
    cbn [negb andb]; case_decide as Hd; try (exfalso; tauto); try reflexivity;
    try (destruct Hd; congruence); eexists; split; reflexivity.
Qed.

(** C5: the timeout of every reprogram by [update_timer] is
    [runloop_timer_min] when the signed [delta = next - now] is at most
    [runloop_timer_min], and [min(delta, runloop_timer_max)] otherwise; so
    with [runloop_timer_min <= runloop_timer_max] it lies between the two
    bounds, also for a deadline already past. *)
Theorem update_timer_timeout_clamped (self : nat) (m : machine)
    (tr : list event) (st : status bool) (timeout : Z) :
  (0 <= runloop_timer_min < 2 ^ 63)%Z ->
  update_timer self m = (tr, st) ->
  In (EvTimer timeout) tr ->
  let delta := s64 (timer_check (runloop_timers m) - clock_raw m) in
  ((delta <= runloop_timer_min)%Z -> timeout = runloop_timer_min) /\
  ((runloop_timer_min < delta)%Z -> timeout = Z.min delta runloop_timer_max) /\
  ((runloop_timer_min <= runloop_timer_max)%Z ->
     (runloop_timer_min <= timeout <= runloop_timer_max)%Z).
Proof.
  intros Hmin Hrun Hin delta. rewrite update_timer_unfold in Hrun.
  destruct (negb (last_timer_update m =? 0)%Z
            && (timer_check (runloop_timers m) =? last_timer_update m)%Z).
  - inversion Hrun; subst. destruct Hin.
  - cbv zeta in Hrun. inversion Hrun; subst. destruct Hin as [Heq | []].
    inversion Heq; subst. fold delta.
    pose proof (s64_range (timer_check (runloop_timers m) - clock_raw m)) as Hd.
    fold delta in Hd.
    destruct (timer_timeout_cases delta Hmin Hd) as [Hlo Hhi].
    split; [exact Hlo | split; [exact Hhi |]]. intros Hmm.
    destruct (Z_le_gt_dec delta runloop_timer_min); [rewrite Hlo; lia | rewrite Hhi; lia].
Qed.

(** ** Going idle *)

Lemma wait_loop_run (fuel : nat) (m : machine) :
  wait_loop fuel m = (repeat EvWfi fuel, Spin (Nat.iter fuel wait_for_interrupt m)).
Proof.
  revert m. induction fuel as [| fuel IH]; intros m; [reflexivity |].
  cbn [wait_loop]. unfold bind at 1. cbn [emit]. unfold bind at 1. cbn [modify].
  rewrite IH. cbn [repeat app]. do 2 f_equal.
  symmetry. apply Nat.iter_succ_r.
Qed.

(** C10: [kernel_sleep] marks the calling CPU idle, then waits for
    interrupts for ever: whatever the fuel, it is still in its loop, and the
    only writes of its own are those made on entry.  The bit of the CPU is
    set in the idle mask only when the mask exists; with a null mask the
    CPU goes idle, the mask stays null, and nothing crashes. *)
Theorem kernel_sleep_idles_forever (fuel self : nat) (m : machine) :
  self < total_processors m ->
  exists m1,
    kernel_sleep fuel self m
      = (EvSleep :: repeat EvWfi fuel, Spin (Nat.iter fuel wait_for_interrupt m1))
    /\ state (cpuinfo_from_id m1 self) = cpu_idle
    /\ idle_cpu_mask m1
       = match idle_cpu_mask m with
         | Some b => Some (Z.setbit b (Z.of_nat self))
         | None => None
         end.
Proof.
  intros Hself. unfold total_processors in Hself.
  destruct (lookup_lt_is_Some_2 (cpus m) self Hself) as [c Hc].
  assert (Hst : forall m', cpus m' = alter (set_state cpu_idle) self (cpus m) ->
                           state (cpuinfo_from_id m' self) = cpu_idle).
  { intros m' Hm'. unfold cpuinfo_from_id. rewrite Hm'.
    rewrite list_lookup_alter_eq, Hc. reflexivity. }
  unfold kernel_sleep, bind at 1. cbn [emit]. unfold bind at 1. cbn [modify].
  unfold bind at 1. cbn [get]. unfold bind at 1.
  destruct (idle_cpu_mask m) as [b |] eqn:Hmask.
  - cbn [update_cpu with_cpus idle_cpu_mask]. rewrite Hmask. cbn [modify].
    rewrite wait_loop_run. eexists. split; [reflexivity |].
    split; [apply Hst; reflexivity | reflexivity].
  - cbn [update_cpu with_cpus idle_cpu_mask]. rewrite Hmask. cbn [ret].
    rewrite wait_loop_run. eexists. split; [reflexivity |].
    split; [apply Hst; reflexivity | cbn; assumption].
Qed.

(** ** Rules for [wp] *)

Section Rules.
Context {S : Type} (step : S -> event -> option S).

Lemma monitor_app (s : S) (tr1 tr2 : list event) :
  monitor step s (tr1 ++ tr2)
  = match monitor step s tr1 with
    | Some s' => monitor step s' tr2
    | None => None
    end.
Proof.
  revert s. induction tr1 as [| e tr1 IH]; intros s; cbn; [reflexivity |].
  destruct (step s e); [apply IH | reflexivity].
Qed.

Lemma monitor_prefix (s : S) (tr1 tr2 : list event) :
  is_Some (monitor step s (tr1 ++ tr2)) -> is_Some (monitor step s tr1).
Proof.
  rewrite monitor_app. destruct (monitor step s tr1); [eauto |].
  intros [x Hx]. discriminate.
Qed.

Lemma wp_mono {A} (x : M A) s (Q Q' : A -> machine -> S -> Prop) m :
  (forall a m' s', Q a m' s' -> Q' a m' s') -> wp step x s Q m -> wp step x s Q' m.
Proof.
  intros HQ (s' & Hmon & Hpost). exists s'. split; [exact Hmon |].
  destruct (snd (x m)); auto.
Qed.

Lemma wp_ret {A} (a : A) s (Q : A -> machine -> S -> Prop) m :
  Q a m s -> wp step (ret a) s Q m.
Proof. intros H. exists s. split; [reflexivity | exact H]. Qed.

Lemma wp_bind {A B} (x : M A) (f : A -> M B) s (Q : B -> machine -> S -> Prop) m :
  wp step x s (fun a m' s' => wp step (f a) s' Q m') m -> wp step (bind x f) s Q m.
Proof.
  unfold wp, bind. intros (s1 & Hmon & Hpost).
  destruct (x m) as [tr st]. cbn [fst snd] in *.
  destruct st as [a m1 | | m1].
  - destruct Hpost as (s2 & Hmon2 & Hpost2).
    destruct (f a m1) as [tr2 st2]. cbn [fst snd] in *.
    exists s2. split; [| exact Hpost2].
    rewrite monitor_app, Hmon. exact Hmon2.
  - exists s1. split; [exact Hmon | exact I].
  - exists s1. split; [exact Hmon | exact I].
Qed.

Lemma wp_get s (Q : machine -> machine -> S -> Prop) m :
  Q m m s -> wp step get s Q m.
Proof. intros H. exists s. split; [reflexivity | exact H]. Qed.

Lemma wp_modify (f : machine -> machine) s (Q : unit -> machine -> S -> Prop) m :
  Q tt (f m) s -> wp step (modify f) s Q m.
Proof. intros H. exists s. split; [reflexivity | exact H]. Qed.

Lemma wp_emit (e : event) s s' (Q : unit -> machine -> S -> Prop) m :
  step s e = Some s' -> Q tt m s' -> wp step (emit e) s Q m.
Proof. intros He H. exists s'. split; [cbn; rewrite He; reflexivity | exact H]. Qed.

Lemma wp_crash {A} s (Q : A -> machine -> S -> Prop) m : wp step crash s Q m.
Proof. exists s. split; [reflexivity | exact I]. Qed.

Lemma wp_spin {A} s (Q : A -> machine -> S -> Prop) m : wp step spin s Q m.
Proof. exists s. split; [reflexivity | exact I]. Qed.

Lemma wp_now s (Q : Z -> machine -> S -> Prop) m :
  Q (clock_raw m) m s -> wp step now s Q m.
Proof. intros H. exists s. split; [reflexivity | exact H]. Qed.

Lemma wp_current_cpu self s (Q : cpuinfo -> machine -> S -> Prop) m :
  Q (cpuinfo_from_id m self) m s -> wp step (current_cpu self) s Q m.
Proof. intros H. exists s. split; [reflexivity | exact H]. Qed.

Lemma wp_assert (b : bool) s (Q : unit -> machine -> S -> Prop) m :
  (b = true -> Q tt m s) -> wp step (assert b) s Q m.
Proof. intros H. destruct b; [apply wp_ret; auto | apply wp_crash]. Qed.

(** What [wp] says about a run. *)
Lemma wp_run {A} (x : M A) s (Q : A -> machine -> S -> Prop) m tr st :
  wp step x s Q m -> x m = (tr, st) ->
  exists s', monitor step s tr = Some s' /\
             match st with Done a m' => Q a m' s' | _ => True end.
Proof. intros H Hx. unfold wp in H. rewrite Hx in H. exact H. Qed.

Lemma wp_dequeue (q : queue_id) s (Q : option thunk -> machine -> S -> Prop) m :
  match queue_of q m with
  | [] => exists s', step s (EvDequeue q None) = Some s' /\ Q None m s'
  | t :: l => exists s', step s (EvDequeue q (Some t)) = Some s'
                         /\ Q (Some t) (set_queue q l m) s'
  end ->
  wp step (dequeue q) s Q m.
Proof.
  intros H. unfold dequeue. apply wp_bind, wp_get.
  destruct (queue_of q m) as [| t l]; destruct H as (s' & Hs & HQ).
  - apply wp_bind. eapply wp_emit; [exact Hs |]. apply wp_ret, HQ.
  - apply wp_bind, wp_modify, wp_bind. eapply wp_emit; [exact Hs |]. apply wp_ret, HQ.
Qed.

Lemma wp_queue_empty (q : queue_id) s (Q : bool -> machine -> S -> Prop) m :
  Q (match queue_of q m with [] => true | _ => false end) m s ->
  wp step (queue_empty q) s Q m.
Proof. intros H. unfold queue_empty. apply wp_bind, wp_get, wp_ret, H. Qed.

Lemma wp_run_thunk (t : thunk) s s' (Q : unit -> machine -> S -> Prop) m :
  step s (EvRun t) = Some s' -> Q tt (apply t m) s' -> wp step (run_thunk t) s Q m.
Proof.
  intros Hs H. unfold run_thunk. apply wp_bind. eapply wp_emit; [exact Hs |].
  apply wp_modify, H.
Qed.

End Rules.

Ltac wp_step :=
  cbn beta iota;
  lazymatch goal with
  | |- wp _ (bind _ _) _ _ _ => apply wp_bind
  | |- wp _ (ret _) _ _ _ => apply wp_ret
  | |- wp _ get _ _ _ => apply wp_get
  | |- wp _ (modify _) _ _ _ => apply wp_modify
  | |- wp _ (emit _) _ _ _ => eapply wp_emit; [reflexivity |]
  | |- wp _ crash _ _ _ => apply wp_crash
  | |- wp _ spin _ _ _ => apply wp_spin
  | |- wp _ now _ _ _ => apply wp_now
  | |- wp _ (current_cpu _) _ _ _ => apply wp_current_cpu
  | |- wp _ (assert _) _ _ _ => apply wp_assert; intros ?
  | |- wp _ (send_ipi _) _ _ _ => unfold send_ipi
  | |- wp _ disable_interrupts _ _ _ => unfold disable_interrupts
  | |- wp _ page_invalidate_flush _ _ _ => unfold page_invalidate_flush
  | |- wp _ (if ?b then _ else _) _ _ _ => destruct b eqn:?
  | |- wp _ (match ?o with _ => _ end) _ _ _ => destruct o eqn:?
  end.

Ltac wp_steps := repeat wp_step.

(** ** The order of the phases *)

Lemma phase_pause (ph : phase) (self : nat) Q m :
  ph <> PhLocked ->
  (forall m', Q tt m' (ph, None)) ->
  wp phase_step (sched_thread_pause self) (ph, None) Q m.
Proof.
  intros Hph HQ. unfold sched_thread_pause. wp_steps; auto.
  eapply wp_emit; [destruct ph; [reflexivity | congruence | reflexivity] |].
  apply wp_modify, HQ.
Qed.

Lemma phase_drain_bh (fuel : nat) Q m :
  (forall m', Q tt m' (PhBh, None)) ->
  wp phase_step (drain fuel QBh) (PhBh, None) Q m.
Proof.
  intros HQ. revert m. induction fuel as [| fuel IH]; intros m; cbn [drain].
  - apply wp_spin.
  - apply wp_bind, wp_dequeue. destruct (queue_of QBh m) as [| t l].
    + eexists. split; [reflexivity |]. apply wp_ret, HQ.
    + eexists. split; [reflexivity |]. apply wp_bind.
      eapply wp_run_thunk; [cbn; rewrite Nat.eqb_refl; reflexivity |]. apply IH.
Qed.

Lemma phase_drain_run (fuel : nat) Q m :
  (forall m', Q tt m' (PhLocked, None)) ->
  wp phase_step (drain fuel QRun) (PhLocked, None) Q m.
Proof.
  intros HQ. revert m. induction fuel as [| fuel IH]; intros m; cbn [drain].
  - apply wp_spin.
  - apply wp_bind, wp_dequeue. destruct (queue_of QRun m) as [| t l].
    + eexists. split; [reflexivity |]. apply wp_ret, HQ.
    + eexists. split; [reflexivity |]. apply wp_bind.
      eapply wp_run_thunk; [cbn; rewrite Nat.eqb_refl; reflexivity |]. apply IH.
Qed.

Lemma phase_try_lock (self : nat) Q m :
  (forall (ok : bool) m', Q ok m' (if ok then PhLocked else PhAfter, None)) ->
  wp phase_step (kern_try_lock self) (PhBh, None) Q m.
Proof. intros HQ. unfold kern_try_lock. wp_steps; apply HQ. Qed.

Lemma phase_runloop_timer (ph : phase) (timeout : Z) Q m :
  ph <> PhBh ->
  (forall m', Q tt m' (ph, None)) ->
  wp phase_step (runloop_timer timeout) (ph, None) Q m.
Proof.
  intros Hph HQ. unfold runloop_timer. apply wp_bind.
  eapply wp_emit; [destruct ph; [congruence | reflexivity | reflexivity] |].
  wp_steps. apply HQ.
Qed.

Lemma phase_locked_work (fuel self : nat) Q m :
  (forall upd m', Q upd m' (PhAfter, None)) ->
  wp phase_step (locked_work fuel self) (PhLocked, None) Q m.
Proof.
  intros HQ. unfold locked_work. wp_steps.
  apply phase_drain_run. intros m1. wp_steps.
  unfold update_timer. wp_steps.
  - unfold kern_unlock. wp_steps. apply HQ.
  - apply phase_runloop_timer; [congruence |]. intros m2. wp_steps.
    unfold kern_unlock. wp_steps. apply HQ.
Qed.

Lemma phase_wakeup_cpu (cpu : nat) Q m :
  (forall m', Q tt m' (PhAfter, None)) ->
  wp phase_step (wakeup_cpu cpu) (PhAfter, None) Q m.
Proof. intros HQ. unfold wakeup_cpu, bitmap_test_and_set_atomic, the_idle_cpu_mask. wp_steps; apply HQ. Qed.

Lemma phase_dequeue_thread (cpu : nat) Q m :
  (forall r m', Q r m' (PhAfter, None)) ->
  wp phase_step (dequeue (QThread cpu)) (PhAfter, None) Q m.
Proof.
  intros HQ. apply wp_dequeue.
  destruct (queue_of (QThread cpu) m); eexists; (split; [reflexivity | apply HQ]).
Qed.

Lemma phase_migrate_to_self (fuel : nat) t first_cpu ncpus Q m :
  (forall r m', Q r m' (PhAfter, None)) ->
  wp phase_step (migrate_to_self fuel t first_cpu ncpus) (PhAfter, None) Q m.
Proof.
  intros HQ. revert t first_cpu ncpus m.
  induction fuel as [| fuel IH]; intros t first_cpu ncpus m; cbn [migrate_to_self].
  - apply wp_spin.
  - unfold the_idle_cpu_mask. wp_steps; try apply HQ.
    unfold migrate_to_self_visit. apply wp_bind.
    assert (Hrest : forall t' m1,
      wp phase_step
        (e <- queue_empty (QThread n) ;;
         (if bool_decide (is_Some t') && negb e then wakeup_cpu n else ret tt) ;;
         ret t') (PhAfter, None)
        (fun a m' s' =>
           wp phase_step (migrate_to_self fuel a (n + 1) (ncpus - (n - first_cpu + 1)))
              s' Q m') m1).
    { intros t' m1. apply wp_bind, wp_queue_empty. wp_steps.
      - apply phase_wakeup_cpu. intros m2. wp_steps. apply IH.
      - apply IH. }
    destruct t as [t |].
    + apply wp_ret, Hrest.
    + apply phase_dequeue_thread. intros r m1. apply Hrest.
Qed.

Lemma phase_migrate_from_self (fuel : nat) self first_cpu ncpus Q m :
  (forall m', Q tt m' (PhAfter, None)) ->
  wp phase_step (migrate_from_self fuel self first_cpu ncpus) (PhAfter, None) Q m.
Proof.
  intros HQ. revert first_cpu ncpus m.
  induction fuel as [| fuel IH]; intros first_cpu ncpus m; cbn [migrate_from_self].
  - apply wp_spin.
  - unfold the_idle_cpu_mask. wp_steps; try apply HQ.
    unfold migrate_from_self_visit. apply wp_bind, wp_queue_empty. wp_steps.
    + apply phase_wakeup_cpu. intros m1. apply IH.
    + apply phase_dequeue_thread. intros r m1. destruct r as [t |].
      * unfold enqueue. wp_steps; apply phase_wakeup_cpu; intros m2; apply IH.
      * wp_steps. apply IH.
Qed.

Lemma phase_steal_from_user (fuel : nat) self cpu Q m :
  (forall r m', Q r m' (PhAfter, None)) ->
  wp phase_step (steal_from_user fuel self cpu) (PhAfter, None) Q m.
Proof.
  intros HQ. revert cpu m.
  induction fuel as [| fuel IH]; intros cpu m; cbn [steal_from_user].
  - apply wp_spin.
  - wp_steps; try apply HQ; try apply IH.
    apply phase_dequeue_thread. intros r m1. destruct r; [apply wp_ret, HQ | apply IH].
Qed.

Lemma phase_schedule_thread (fuel self : nat) upd Q m :
  (forall m', Q tt m' (PhAfter, None)) ->
  wp phase_step (schedule_thread fuel self upd) (PhAfter, None) Q m.
Proof.
  intros HQ. unfold schedule_thread.
  assert (Hgo : forall t m2, wp phase_step (run_thunk t) (PhAfter, None) Q m2).
  { intros t m2. eapply wp_run_thunk; [reflexivity | apply HQ]. }
  assert (Hrun : forall t m1,
    wp phase_step (ensure_cpu_timer self upd) (PhAfter, None)
       (fun _ m' s' => wp phase_step (run_thunk t) s' Q m') m1).
  { intros t m1. unfold ensure_cpu_timer. wp_steps; try apply Hgo.
    apply phase_runloop_timer; [congruence |]. intros m2. wp_steps. apply Hgo. }
  apply wp_bind, phase_dequeue_thread. intros r m1. apply wp_bind.
  destruct r as [t |].
  - unfold migration_push. wp_steps;
      repeat (apply phase_migrate_from_self; intros ?; wp_steps); apply Hrun.
  - unfold migration_pull.
    assert (Hsteal : forall m2,
      wp phase_step (steal_from_user fuel self (self + 1)) (PhAfter, None)
        (fun a m' s' =>
           wp phase_step
             (match a with
              | Some t => ensure_cpu_timer self upd ;; run_thunk t
              | None => ret tt
              end) s' Q m') m2).
    { intros m2. apply phase_steal_from_user. intros [t |] m3; wp_steps; auto. }
    wp_steps;
      repeat (apply phase_migrate_to_self; intros ? ?; wp_steps);
      solve [apply Hrun | apply Hsteal].
Qed.

Lemma phase_kernel_sleep (fuel self : nat) (Q : Empty_set -> machine -> _ -> Prop) m :
  wp phase_step (kernel_sleep fuel self) (PhAfter, None) Q m.
Proof.
  unfold kernel_sleep. wp_steps.
  - clear. generalize (set_idle_cpu_mask (Some (bitmap_set_atomic z self true))
                         (update_cpu self (set_state cpu_idle) m)).
    induction fuel as [| fuel IH]; intros m1; cbn [wait_loop]; wp_steps. apply IH.
  - clear. generalize (update_cpu self (set_state cpu_idle) m).
    induction fuel as [| fuel IH]; intros m1; cbn [wait_loop]; wp_steps. apply IH.
Qed.

(** C2: in every pass, whatever its fuel and however it ends, the tasks of
    [bhqueue] are dequeued and run before the kernel lock is tried; tasks of
    [runqueue] are dequeued, and run, only between a successful
    [kern_try_lock] and [kern_unlock]; thread queues are only touched after
    the lock block.  A successful [kern_try_lock] leaves the spinlock taken
    and [have_kernel_lock] set on the calling CPU. *)
Theorem runloop_phase_order (fuel self : nat) (m : machine) :
  is_Some (monitor phase_step (PhBh, None) (fst (runloop_internal fuel self m))) /\
  (forall tr m', kern_try_lock self m = (tr, Done true m') ->
     tr = [EvTryLock true] /\ kernel_lock m' = true /\
     (self < total_processors m ->
      have_kernel_lock (cpuinfo_from_id m' self) = true)).
Proof.
  split.
  - assert (H : wp phase_step (runloop_internal fuel self) (PhBh, None)
                  (fun _ _ _ => True) m).
    { unfold runloop_internal. apply wp_bind, phase_pause; [congruence |]. intros m1.
      do 8 wp_step. apply wp_bind, phase_drain_bh. intros m2.
      apply wp_bind, phase_try_lock. intros ok m3.
      assert (Hafter : forall upd m4,
        wp phase_step
          (m5 <- get ;;
           (if negb (shutting_down m5) then schedule_thread fuel self upd else ret tt) ;;
           sched_thread_pause self ;; kernel_sleep fuel self)
          (PhAfter, None) (fun _ _ _ => True) m4).
      { intros upd m4. apply wp_bind, wp_get, wp_bind.
        assert (Hend : forall m6,
          wp phase_step (sched_thread_pause self ;; kernel_sleep fuel self)
             (PhAfter, None) (fun _ _ _ => True) m6).
        { intros m6. apply wp_bind, phase_pause; [congruence |]. intros m7.
          apply phase_kernel_sleep. }
        destruct (negb (shutting_down m4)).
        - apply phase_schedule_thread. intros m6. apply Hend.
        - apply wp_ret, Hend. }
      apply wp_bind. destruct ok.
      - apply phase_locked_work. intros upd m4. apply Hafter.
      - apply wp_ret, Hafter. }
    destruct H as (s' & Hs & _). exists s'. exact Hs.
  - intros tr m' Hrun. unfold kern_try_lock, bind, current_cpu, assert in Hrun.
    destruct (negb (cpu_state_eqb (state (cpuinfo_from_id m self)) cpu_interrupt));
      cbn in Hrun; [| discriminate].
    destruct (kernel_lock m); cbn in Hrun; [discriminate |].
    inversion Hrun; subst. split; [reflexivity |]. split; [reflexivity |].
    intros Hself. unfold cpuinfo_from_id, update_cpu, with_cpus, set_kernel_lock.
    cbn [cpus].
    destruct (lookup_lt_is_Some_2 (cpus m) self Hself) as [c Hc].
    rewrite list_lookup_alter_eq, Hc. reflexivity.
Qed.

(** ** Every dequeued task is consumed once *)

Lemma cpuinfo_update_cpu_ne (cpu other : nat) f m :
  cpu <> other -> cpuinfo_from_id (update_cpu cpu f m) other = cpuinfo_from_id m other.
Proof.
  intros Hne. unfold cpuinfo_from_id, update_cpu, with_cpus. cbn [cpus].
  rewrite list_lookup_alter_ne by exact Hne. reflexivity.
Qed.

Lemma cpuinfo_update_cpu_eq (cpu : nat) f m :
  cpu < total_processors m ->
  cpuinfo_from_id (update_cpu cpu f m) cpu = f (cpuinfo_from_id m cpu).
Proof.
  intros Hlt. unfold cpuinfo_from_id, update_cpu, with_cpus. cbn [cpus].
  destruct (lookup_lt_is_Some_2 (cpus m) cpu Hlt) as [c Hc].
  rewrite list_lookup_alter_eq, Hc. reflexivity.
Qed.

Lemma take_head (t : thunk) (p : list thunk) : take t (t :: p) = Some p.
Proof. cbn. rewrite Nat.eqb_refl. reflexivity. Qed.

Lemma consume_run_head (self : nat) (t : thunk) (p : list thunk) :
  consume_step self (Some (t :: p)) (EvRun t) = Some (Some p).
Proof. cbn [consume_step]. rewrite take_head. reflexivity. Qed.

Section Consume.
Variable self : nat.
Hypothesis queue_has_room : 0 < thread_queue_size.

Lemma consume_pause (p : list thunk) Q m :
  (forall m', Q tt m' (Some p)) -> wp (consume_step self) (sched_thread_pause self) (Some p) Q m.
Proof. intros HQ. unfold sched_thread_pause. wp_steps; apply HQ. Qed.

Lemma consume_drain (fuel : nat) (q : queue_id) (p : list thunk) Q m :
  (forall m', Q tt m' (Some p)) -> wp (consume_step self) (drain fuel q) (Some p) Q m.
Proof.
  intros HQ. revert m. induction fuel as [| fuel IH]; intros m; cbn [drain].
  - apply wp_spin.
  - apply wp_bind, wp_dequeue. destruct (queue_of q m) as [| t l].
    + eexists. split; [reflexivity |]. apply wp_ret, HQ.
    + eexists. split; [reflexivity |]. apply wp_bind.
      eapply wp_run_thunk; [apply consume_run_head |]. apply IH.
Qed.

Lemma consume_try_lock (p : list thunk) Q m :
  (forall ok m', Q ok m' (Some p)) -> wp (consume_step self) (kern_try_lock self) (Some p) Q m.
Proof. intros HQ. unfold kern_try_lock. wp_steps; apply HQ. Qed.

Lemma consume_locked_work (fuel : nat) (p : list thunk) Q m :
  (forall upd m', Q upd m' (Some p)) -> wp (consume_step self) (locked_work fuel self) (Some p) Q m.
Proof.
  intros HQ. unfold locked_work. wp_steps.
  apply consume_drain. intros m1. wp_steps.
  unfold update_timer, runloop_timer, kern_unlock. wp_steps; apply HQ.
Qed.

Lemma consume_wakeup_cpu (cpu : nat) (p : list thunk) Q m :
  (forall m', Q tt m' (Some p)) -> wp (consume_step self) (wakeup_cpu cpu) (Some p) Q m.
Proof. intros HQ. unfold wakeup_cpu, bitmap_test_and_set_atomic, the_idle_cpu_mask. wp_steps; apply HQ. Qed.

Lemma consume_dequeue (q : queue_id) (p : list thunk) Q m :
  (forall r m', Q r m' (Some (pend r p))) -> wp (consume_step self) (dequeue q) (Some p) Q m.
Proof.
  intros HQ. apply wp_dequeue.
  destruct (queue_of q m); eexists; (split; [reflexivity | apply HQ]).
Qed.

Lemma consume_migrate_to_self (fuel : nat) t first_cpu ncpus (p : list thunk) Q m :
  (forall r m', Q r m' (Some (pend r p))) ->
  wp (consume_step self) (migrate_to_self fuel t first_cpu ncpus) (Some (pend t p)) Q m.
Proof.
  intros HQ. revert t first_cpu ncpus m.
  induction fuel as [| fuel IH]; intros t first_cpu ncpus m; cbn [migrate_to_self].
  - apply wp_spin.
  - unfold the_idle_cpu_mask. wp_steps; try apply HQ.
    unfold migrate_to_self_visit. apply wp_bind.
    assert (Hrest : forall t' m1,
      wp (consume_step self)
        (e <- queue_empty (QThread n) ;;
         (if bool_decide (is_Some t') && negb e then wakeup_cpu n else ret tt) ;;
         ret t') (Some (pend t' p))
        (fun a m' s' =>
           wp (consume_step self)
              (migrate_to_self fuel a (n + 1) (ncpus - (n - first_cpu + 1)))
              s' Q m') m1).
    { intros t' m1. apply wp_bind, wp_queue_empty. wp_steps.
      - apply consume_wakeup_cpu. intros m2. wp_steps. apply IH.
      - apply IH. }
    destruct t as [t |].
    + apply wp_ret, Hrest.
    + apply consume_dequeue. intros r m1. apply Hrest.
Qed.

Lemma consume_steal_from_user (fuel : nat) cpu (p : list thunk) Q m :
  (forall r m', Q r m' (Some (pend r p))) ->
  wp (consume_step self) (steal_from_user fuel self cpu) (Some p) Q m.
Proof.
  intros HQ. revert cpu m.
  induction fuel as [| fuel IH]; intros cpu m; cbn [steal_from_user].
  - apply wp_spin.
  - wp_steps; try apply (HQ None); try apply IH.
    apply consume_dequeue. intros r m1. destruct r; [apply wp_ret, HQ | apply IH].
Qed.

Lemma consume_migrate_from_self_visit (cpu : nat) (p : list thunk) Q m :
  (forall m', Q tt m' (Some p)) ->
  wp (consume_step self) (migrate_from_self_visit self cpu) (Some p) Q m.
Proof.
  intros HQ. unfold migrate_from_self_visit. apply wp_bind, wp_queue_empty.
  destruct (queue_of (QThread cpu) m) as [| u us] eqn:Hcpu; cbn [negb].
  - apply wp_bind, wp_dequeue.
    destruct (queue_of (QThread self) m) as [| t l] eqn:Hself.
    + eexists. split; [reflexivity |]. apply wp_ret, HQ.
    + assert (Hne : self <> cpu) by (intros ->; congruence).
      eexists. split; [reflexivity |].
      unfold enqueue. apply wp_bind, wp_bind, wp_get.
      assert (Hq : queue_of (QThread cpu) (set_queue (QThread self) l m) = []).
      { cbn [queue_of set_queue] in *. rewrite cpuinfo_update_cpu_ne by exact Hne.
        exact Hcpu. }
      rewrite Hq. cbn [length].
      destruct (Nat.ltb_spec 0 thread_queue_size) as [_ | Hbad]; [| lia].
      apply wp_bind, wp_modify, wp_bind.
      eapply wp_emit.
      { cbn [consume_step andb]. destruct (Nat.eqb_spec cpu self) as [-> | _];
          [congruence |]. cbn [negb]. rewrite take_head. reflexivity. }
      apply wp_ret, consume_wakeup_cpu, HQ.
  - apply consume_wakeup_cpu, HQ.
Qed.

Lemma consume_migrate_from_self (fuel : nat) first_cpu ncpus (p : list thunk) Q m :
  (forall m', Q tt m' (Some p)) ->
  wp (consume_step self) (migrate_from_self fuel self first_cpu ncpus) (Some p) Q m.
Proof.
  intros HQ. revert first_cpu ncpus m.
  induction fuel as [| fuel IH]; intros first_cpu ncpus m; cbn [migrate_from_self].
  - apply wp_spin.
  - unfold the_idle_cpu_mask. wp_steps; try apply HQ.
    apply consume_migrate_from_self_visit. intros m1. apply IH.
Qed.

Lemma consume_schedule_thread (fuel : nat) upd (p : list thunk) Q m :
  (forall m', Q tt m' (Some p)) ->
  wp (consume_step self) (schedule_thread fuel self upd) (Some p) Q m.
Proof.
  intros HQ. unfold schedule_thread.
  assert (Hrun : forall t m1,
    wp (consume_step self) (ensure_cpu_timer self upd) (Some (t :: p))
       (fun _ m' s' => wp (consume_step self) (run_thunk t) s' Q m') m1).
  { intros t m1.
    assert (Hgo : forall m2, wp (consume_step self) (run_thunk t) (Some (t :: p)) Q m2).
    { intros m2. eapply wp_run_thunk; [apply consume_run_head | apply HQ]. }
    unfold ensure_cpu_timer, runloop_timer. wp_steps; apply Hgo. }
  apply wp_bind, consume_dequeue. intros r m1. apply wp_bind.
  destruct r as [t |]; cbn [pend].
  - unfold migration_push. wp_steps;
      repeat (apply consume_migrate_from_self; intros ?; wp_steps); apply Hrun.
  - unfold migration_pull.
    assert (Hend : forall (r : option thunk) m2,
      wp (consume_step self)
         (match r with
          | Some t => ensure_cpu_timer self upd ;; run_thunk t
          | None => ret tt
          end) (Some (pend r p)) Q m2).
    { intros [t |] m2; wp_steps; [apply Hrun | apply HQ]. }
    assert (Hsteal : forall (r : option thunk) m2,
      wp (consume_step self)
         (match r with
          | None => steal_from_user fuel self (self + 1)
          | Some _ => ret r
          end) (Some (pend r p))
         (fun a m' s' =>
            wp (consume_step self)
              (match a with
               | Some t => ensure_cpu_timer self upd ;; run_thunk t
               | None => ret tt
               end) s' Q m') m2).
    { intros [t |] m2; [apply wp_ret, (Hend (Some t)) |].
      apply consume_steal_from_user. intros r m3. apply Hend. }
    apply wp_bind, wp_get, wp_bind.
    assert (Hsecond : forall (r : option thunk) m2,
      wp (consume_step self)
         (if 0 <? self then migrate_to_self fuel r 0 self else ret r) (Some (pend r p))
         (fun a m' s' =>
            wp (consume_step self)
              (match a with
               | None => steal_from_user fuel self (self + 1)
               | Some _ => ret a
               end) s'
              (fun a m' s' =>
                 wp (consume_step self)
                   (match a with
                    | Some t => ensure_cpu_timer self upd ;; run_thunk t
                    | None => ret tt
                    end) s' Q m') m') m2).
    { intros r m2. destruct (0 <? self).
      - apply consume_migrate_to_self. intros r' m3. apply Hsteal.
      - apply wp_ret, Hsteal. }
    destruct (self + 1 <? total_processors m1).
    + apply (consume_migrate_to_self fuel None). intros r m2.
      apply wp_bind, Hsecond.
    + apply wp_ret, wp_bind, (Hsecond None).
Qed.

End Consume.

Lemma take_perm (t : thunk) (p p' : list thunk) :
  take t p = Some p' -> Permutation p (t :: p').
Proof.
  revert p'. induction p as [| u p IH]; intros p'; cbn [take]; [discriminate |].
  destruct (Nat.eqb_spec t u) as [-> | Hne].
  - intros [= <-]. reflexivity.
  - destruct (take t p) as [rest |]; [| discriminate]. intros [= <-].
    rewrite (IH rest eq_refl). apply perm_swap.
Qed.

(** Whatever the monitor accepts is balanced: the tasks still pending, run
    and re-enqueued are those that were pending or dequeued. *)
Lemma consume_balance (self : nat) (tr : list event) (st st' : option (list thunk)) :
  monitor (consume_step self) st tr = Some st' ->
  Permutation (pending_of st' ++ ran tr ++ requeued tr) (pending_of st ++ dequeued tr).
Proof.
  revert st. induction tr as [| e tr IH]; intros st; cbn [monitor].
  - intros [= <-]. cbn [ran requeued dequeued flat_map]. reflexivity.
  - destruct (consume_step self st e) as [st1 |] eqn:Hstep; [| discriminate].
    intros Hrest. specialize (IH st1 Hrest).
    change (ran (e :: tr)) with (match e with EvRun t => [t] | _ => [] end ++ ran tr).
    change (requeued (e :: tr))
      with (match e with EvEnqueue _ t true => [t] | _ => [] end ++ requeued tr).
    change (dequeued (e :: tr))
      with (match e with EvDequeue _ (Some t) => [t] | _ => [] end ++ dequeued tr).
    destruct st as [p |].
    + destruct e as [q [t |] | cpu t ok | t | t | ok | | n | | z | c | c | | | | ];
        cbn [consume_step] in Hstep;
        try (injection Hstep as <-; cbn [pending_of app] in *; exact IH).
      * injection Hstep as <-. cbn [pending_of app] in *.
        rewrite IH. apply Permutation_middle.
      * destruct (ok && negb (cpu =? self)) eqn:Hok; [| discriminate].
        destruct ok; [| discriminate].
        destruct (take t p) as [p1 |] eqn:Htake; [| discriminate].
        injection Hstep as <-. cbn [pending_of app] in *.
        rewrite (take_perm _ _ _ Htake). cbn [app].
        rewrite <- IH. rewrite !app_assoc.
        symmetry. apply Permutation_middle.
      * destruct (take t p) as [p1 |] eqn:Htake; [| discriminate].
        injection Hstep as <-. cbn [pending_of app] in *.
        rewrite (take_perm _ _ _ Htake). cbn [app].
        rewrite <- IH. symmetry. apply Permutation_middle.
      * destruct p; [| discriminate]. injection Hstep as <-.
        cbn [pending_of app] in *. exact IH.
    + destruct e; cbn [consume_step] in Hstep; try discriminate.
      injection Hstep as <-. cbn [pending_of app] in *. exact IH.
Qed.

(** Once the monitor has accepted [EvSleep], nothing is pending. *)
Lemma consume_asleep (self : nat) (tr : list event) (st st' : option (list thunk)) :
  monitor (consume_step self) st tr = Some st' ->
  st = None \/ In EvSleep tr -> st' = None.
Proof.
  revert st. induction tr as [| e tr IH]; intros st; cbn [monitor].
  - intros [= <-] [H | []]. exact H.
  - destruct (consume_step self st e) as [st1 |] eqn:Hstep; [| discriminate].
    intros Hrest Hsleep. apply (IH st1 Hrest).
    destruct st as [p |].
    + destruct Hsleep as [Hs | [He | Hin]]; [discriminate | | right; exact Hin].
      subst e. cbn [consume_step] in Hstep. destruct p; [| discriminate].
      injection Hstep as <-. left. reflexivity.
    + left. destruct e; cbn [consume_step] in Hstep; try discriminate.
      injection Hstep as <-. reflexivity.
Qed.

(** C1: in a pass of [runloop_internal], with whatever fuel and however
    far it gets, a task is run or put on a thread queue only while it is
    pending from a dequeue, each dequeue is consumed by one run or one
    enqueue, every enqueue succeeds and goes to a CPU other than the
    caller: the tasks run and the tasks re-enqueued, together with those
    still pending, are the tasks dequeued, each as many times.  Nothing is
    pending when the CPU goes to sleep. *)
Theorem runloop_consumes_each_task_once (fuel self : nat) (m : machine) :
  0 < thread_queue_size ->
  let tr := fst (runloop_internal fuel self m) in
  exists st,
    monitor (consume_step self) (Some []) tr = Some st /\
    Permutation (pending_of st ++ ran tr ++ requeued tr) (dequeued tr) /\
    (In EvSleep tr -> pending_of st = []).
Proof.
  intros Hroom tr.
  assert (H : wp (consume_step self) (runloop_internal fuel self) (Some [])
                (fun _ _ _ => True) m).
  { unfold runloop_internal. apply wp_bind, consume_pause. intros m1.
    do 8 wp_step. apply wp_bind, consume_drain. intros m2.
    apply wp_bind, consume_try_lock. intros ok m3.
    assert (Hafter : forall upd m4,
      wp (consume_step self)
        (m5 <- get ;;
         (if negb (shutting_down m5) then schedule_thread fuel self upd else ret tt) ;;
         sched_thread_pause self ;; kernel_sleep fuel self)
        (Some []) (fun _ _ _ => True) m4).
    { intros upd m4. apply wp_bind, wp_get, wp_bind.
      assert (Hend : forall m6,
        wp (consume_step self) (sched_thread_pause self ;; kernel_sleep fuel self)
           (Some []) (fun _ _ _ => True) m6).
      { intros m6. apply wp_bind, consume_pause. intros m7.
        unfold kernel_sleep. wp_steps.
        - generalize (set_idle_cpu_mask (Some (bitmap_set_atomic z self true))
                        (update_cpu self (set_state cpu_idle) m7)).
          clear. induction fuel as [| fuel IH]; intros m1; cbn [wait_loop]; wp_steps.
          apply IH.
        - generalize (update_cpu self (set_state cpu_idle) m7).
          clear. induction fuel as [| fuel IH]; intros m1; cbn [wait_loop]; wp_steps.
          apply IH. }
      destruct (negb (shutting_down m4)).
      - apply consume_schedule_thread; [exact Hroom |]. intros m6. apply Hend.
      - apply wp_ret, Hend. }
    apply wp_bind. destruct ok.
    - apply consume_locked_work. intros upd m4. apply Hafter.
    - apply wp_ret, Hafter. }
  destruct H as (st & Hs & _). fold tr in Hs. exists st.
  split; [exact Hs |]. split.
  - apply (consume_balance self tr (Some []) st Hs).
  - intros Hsleep. rewrite (consume_asleep self tr (Some []) st Hs (or_intror Hsleep)).
    reflexivity.
Qed.

(** ** A pass during shutdown *)

Lemma bind_ext_wp {S A B} (step : S -> event -> option S)
    (x : M A) (f g : A -> M B) s (Q : A -> machine -> S -> Prop) m :
  wp step x s Q m ->
  (forall a m' s', Q a m' s' -> f a m' = g a m') ->
  bind x f m = bind x g m.
Proof.
  unfold wp, bind. destruct (x m) as [tr [a m' | | m']]; cbn [fst snd];
    intros (s' & _ & HQ) H; [| reflexivity | reflexivity].
  rewrite (H a m' s' HQ). reflexivity.
Qed.

Section Shutdown.
Hypothesis apply_keeps_shutdown :
  forall t m, shutting_down m = true -> shutting_down (apply t m) = true.
Hypothesis timer_service_keeps_shutdown :
  forall n m, shutting_down m = true -> shutting_down (timer_service n m) = true.
Hypothesis mm_service_keeps_shutdown :
  forall m, shutting_down m = true -> shutting_down (mm_service m) = true.

Lemma shut_drain (fuel : nat) (q : queue_id) Q m :
  (forall cpu, q <> QThread cpu) ->
  shutting_down m = true ->
  (forall m', shutting_down m' = true -> Q tt m' tt) ->
  wp shutdown_step (drain fuel q) tt Q m.
Proof.
  intros Hq Hm HQ. revert m Hm.
  induction fuel as [| fuel IH]; intros m Hm; cbn [drain].
  - apply wp_spin.
  - assert (Hstep : forall r, shutdown_step tt (EvDequeue q r) = Some tt).
    { intros r. destruct q; [reflexivity | reflexivity |]. destruct (Hq cpu eq_refl). }
    apply wp_bind, wp_dequeue. destruct (queue_of q m) as [| t l] eqn:Hqm.
    + exists tt. split; [apply Hstep |]. apply wp_ret, HQ, Hm.
    + exists tt. split; [apply Hstep |]. apply wp_bind.
      eapply wp_run_thunk; [reflexivity |]. apply IH.
      apply apply_keeps_shutdown. destruct q; [exact Hm | exact Hm |].
      destruct (Hq cpu eq_refl).
Qed.

Lemma shut_try_lock (self : nat) Q m :
  shutting_down m = true ->
  (forall ok m', shutting_down m' = true -> Q ok m' tt) ->
  wp shutdown_step (kern_try_lock self) tt Q m.
Proof. intros Hm HQ. unfold kern_try_lock. wp_steps; apply HQ, Hm. Qed.

Lemma shut_locked_work (fuel self : nat) Q m :
  shutting_down m = true ->
  (forall upd m', shutting_down m' = true -> Q upd m' tt) ->
  wp shutdown_step (locked_work fuel self) tt Q m.
Proof.
  intros Hm HQ. unfold locked_work. wp_steps.
  apply shut_drain; [discriminate | apply timer_service_keeps_shutdown, Hm |].
  intros m1 Hm1. wp_steps.
  unfold update_timer, runloop_timer, kern_unlock.
  wp_steps; apply HQ; apply mm_service_keeps_shutdown, Hm1.
Qed.

Lemma shut_kernel_sleep (fuel self : nat) (Q : Empty_set -> machine -> unit -> Prop) m :
  wp shutdown_step (kernel_sleep fuel self) tt Q m.
Proof.
  unfold kernel_sleep. wp_steps.
  - generalize (set_idle_cpu_mask (Some (bitmap_set_atomic z self true))
                  (update_cpu self (set_state cpu_idle) m)).
    clear. induction fuel as [| fuel IH]; intros m1; cbn [wait_loop]; wp_steps. apply IH.
  - generalize (update_cpu self (set_state cpu_idle) m).
    clear. induction fuel as [| fuel IH]; intros m1; cbn [wait_loop]; wp_steps. apply IH.
Qed.

Lemma pause_during_shutdown {B} (self : nat) (f : unit -> M B) m :
  shutting_down m = true -> bind (sched_thread_pause self) f m = f tt m.
Proof.
  intros Hm. unfold sched_thread_pause, bind at 1, bind at 1, get. rewrite Hm.
  cbn [ret app]. destruct (f tt m). reflexivity.
Qed.

Lemma shutdown_pass_eq (fuel self : nat) (m : machine) :
  shutting_down m = true ->
  runloop_internal fuel self m = shutdown_pass fuel self m.
Proof.
  intros Hm. unfold runloop_internal, shutdown_pass.
  rewrite pause_during_shutdown by exact Hm.
  eapply (bind_ext_wp shutdown_step _ _ _ tt (fun _ m' _ => shutting_down m' = true)).
  { unfold disable_interrupts. eapply wp_emit; [reflexivity | exact Hm]. }
  intros _ m0 _ Hm0.
  eapply (bind_ext_wp shutdown_step _ _ _ tt (fun _ m' _ => shutting_down m' = true)).
  { apply wp_modify. exact Hm0. }
  intros _ m0' _ Hm0'.
  eapply (bind_ext_wp shutdown_step _ _ _ tt (fun _ m' _ => shutting_down m' = true)).
  { unfold page_invalidate_flush. eapply wp_emit; [reflexivity | exact Hm0']. }
  intros _ m1 _ Hm1.
  eapply (bind_ext_wp shutdown_step _ _ _ tt (fun _ m' _ => shutting_down m' = true)).
  { apply shut_drain; [discriminate | exact Hm1 | auto]. }
  intros _ m2 _ Hm2.
  eapply (bind_ext_wp shutdown_step _ _ _ tt (fun _ m' _ => shutting_down m' = true)).
  { apply shut_try_lock; [exact Hm2 | auto]. }
  intros ok m3 _ Hm3.
  eapply (bind_ext_wp shutdown_step _ _ _ tt (fun _ m' _ => shutting_down m' = true)).
  { destruct ok; [apply shut_locked_work; [exact Hm3 | auto] | apply wp_ret, Hm3]. }
  intros upd m4 _ Hm4.
  unfold bind at 1. cbn [get]. rewrite Hm4. cbn [negb]. unfold bind at 1. cbn [ret].
  rewrite pause_during_shutdown by exact Hm4.
  destruct (kernel_sleep fuel self m4). reflexivity.
Qed.

Lemma shutdown_pass_quiet (fuel self : nat) (m : machine) :
  shutting_down m = true ->
  wp shutdown_step (shutdown_pass fuel self) tt (fun _ _ _ => True) m.
Proof.
  intros Hm. unfold shutdown_pass. do 8 wp_step.
  apply wp_bind, shut_drain; [discriminate | exact Hm |].
  intros m1 Hm1. apply wp_bind, shut_try_lock; [exact Hm1 |].
  intros ok m2 Hm2. apply wp_bind. destruct ok.
  - apply shut_locked_work; [exact Hm2 |]. intros upd m3 Hm3. apply shut_kernel_sleep.
  - apply wp_ret, shut_kernel_sleep.
Qed.

End Shutdown.

(** C9: when [shutting_down] is set on entry (and the code run from the
    queues and the services does not clear it), the pass is the bhqueue
    drain, the opportunistic lock block, then [kernel_sleep]: whenever the
    two drains finish, the CPU goes to sleep.  No thread queue is dequeued,
    nothing is enqueued, no CPU is woken and no pause callback is applied. *)
Theorem shutdown_pass_only_sleeps (fuel self : nat) (m : machine) :
  (forall t m, shutting_down m = true -> shutting_down (apply t m) = true) ->
  (forall n m, shutting_down m = true -> shutting_down (timer_service n m) = true) ->
  (forall m, shutting_down m = true -> shutting_down (mm_service m) = true) ->
  shutting_down m = true ->
  runloop_internal fuel self m = shutdown_pass fuel self m /\
  is_Some (monitor shutdown_step tt (fst (runloop_internal fuel self m))).
Proof.
  intros Ha Ht Hmm Hm. split.
  - apply shutdown_pass_eq; assumption.
  - rewrite shutdown_pass_eq by assumption.
    destruct (shutdown_pass_quiet Ha Ht Hmm fuel self m Hm) as (s' & Hs & _).
    exists s'. exact Hs.
Qed.

(** ** The recorded deadline *)

Lemma update_timer_records (self : nat) (m m' : machine) (tr : list event) :
  update_timer self m = (tr, Done true m') ->
  exists timeout,
    tr = [EvTimer timeout] /\
    last_timer_update m' = u64 (clock_raw m + timeout) /\
    hw_deadline m' = Some (last_timer_update m') /\
    (self < total_processors m ->
     ci_last_timer_update (cpuinfo_from_id m' self) = last_timer_update m').
Proof.
  rewrite update_timer_unfold.
  destruct (negb (last_timer_update m =? 0)%Z
            && (timer_check (runloop_timers m) =? last_timer_update m)%Z);
    [discriminate |].
  cbv zeta. intros Hrun. inversion Hrun; subst; clear Hrun.
  eexists. split; [reflexivity |].
  cbn [last_timer_update hw_deadline set_hw_deadline set_last_timer_update].
  rewrite deadline_arith. split; [reflexivity |]. split; [reflexivity |].
  intros Hself.
  change (cpuinfo_from_id (set_hw_deadline ?d (set_last_timer_update ?v ?x)) self)
    with (cpuinfo_from_id x self).
  rewrite cpuinfo_update_cpu_eq by exact Hself. reflexivity.
Qed.

Section TimerFrames.
Hypothesis apply_keeps_timer :
  forall t m, last_timer_update (apply t m) = last_timer_update m
              /\ hw_deadline (apply t m) = hw_deadline m.
Hypothesis timer_service_keeps_timer :
  forall n m, last_timer_update (timer_service n m) = last_timer_update m
              /\ hw_deadline (timer_service n m) = hw_deadline m.
Hypothesis mm_service_keeps_timer :
  forall m, last_timer_update (mm_service m) = last_timer_update m
            /\ hw_deadline (mm_service m) = hw_deadline m.

Lemma timer_drain (fuel : nat) (q : queue_id) (m0 : machine) Q m :
  same_timer m0 m ->
  (forall m', same_timer m0 m' -> Q tt m' tt) ->
  wp any_step (drain fuel q) tt Q m.
Proof.
  intros Hm HQ. revert m Hm.
  induction fuel as [| fuel IH]; intros m Hm; cbn [drain].
  - apply wp_spin.
  - apply wp_bind, wp_dequeue. destruct (queue_of q m) as [| t l].
    + exists tt. split; [reflexivity |]. apply wp_ret, HQ, Hm.
    + exists tt. split; [reflexivity |]. apply wp_bind.
      eapply wp_run_thunk; [reflexivity |]. apply IH.
      destruct (apply_keeps_timer t (set_queue q l m)) as [H1 H2].
      destruct Hm as [H3 H4]. split.
      * rewrite H1, <- H3. destruct q; reflexivity.
      * rewrite H2, <- H4. destruct q; reflexivity.
Qed.

Lemma locked_work_timer (fuel self : nat) (m : machine) :
  wp any_step (locked_work fuel self) tt
     (fun (upd : bool) m' _ =>
        if upd
        then hw_deadline m' = Some (last_timer_update m')
             /\ (self < total_processors m' ->
                 ci_last_timer_update (cpuinfo_from_id m' self) = last_timer_update m')
        else same_timer m m') m.
Proof.
  unfold locked_work. wp_steps. eapply timer_drain.
  { destruct (timer_service_keeps_timer (clock_raw (update_cpu self (set_state cpu_kernel) m))
                (update_cpu self (set_state cpu_kernel) m)) as [H1 H2].
    split; [rewrite H1 | rewrite H2]; reflexivity. }
  intros m1 [H1 H2]. wp_steps.
  destruct (mm_service_keeps_timer m1) as [H3 H4].
  destruct (update_timer self (mm_service m1)) as [tr st] eqn:Hupd.
  assert (Hwp : wp any_step (update_timer self) tt
                  (fun upd m' _ => update_timer self (mm_service m1) = (tr, st)
                                   /\ st = Done upd m') (mm_service m1)).
  { exists tt. rewrite Hupd. cbn [fst snd]. split.
    - clear. induction tr as [| e tr IH]; [reflexivity | exact IH].
    - destruct st; auto. }
  eapply wp_mono; [| exact Hwp]. clear Hwp.
  intros upd m2 [] [Hrun ->]. cbv beta.
  unfold kern_unlock. wp_steps. destruct upd.
  - destruct (update_timer_records _ _ _ _ Hupd) as (timeout & _ & Hl & Hh & Hc).
    split.
    + exact Hh.
    + intros Hself.
      assert (Hlen : total_processors m2 = total_processors (mm_service m1)).
      { clear - Hupd. rewrite update_timer_unfold in Hupd.
        destruct (negb (last_timer_update (mm_service m1) =? 0)%Z
                  && (timer_check (runloop_timers (mm_service m1))
                      =? last_timer_update (mm_service m1))%Z); [discriminate |].
        cbv zeta in Hupd. inversion Hupd. unfold total_processors, update_cpu, with_cpus.
        cbn [cpus set_hw_deadline set_last_timer_update]. apply length_alter. }
      assert (Hself2 : self < total_processors m2).
      { unfold total_processors, set_kernel_lock, update_cpu, with_cpus in Hself.
        cbn [cpus] in Hself. rewrite length_alter in Hself. exact Hself. }
      change (cpuinfo_from_id (set_kernel_lock false ?x) self) with (cpuinfo_from_id x self).
      rewrite cpuinfo_update_cpu_eq by exact Hself2.
      cbn [ci_last_timer_update set_have_kernel_lock].
      rewrite Hc by (rewrite <- Hlen; exact Hself2). reflexivity.
  - rewrite update_timer_unfold in Hupd.
    destruct (negb (last_timer_update (mm_service m1) =? 0)%Z
              && (timer_check (runloop_timers (mm_service m1))
                  =? last_timer_update (mm_service m1))%Z); [| discriminate].
    inversion Hupd; subst. split.
    + cbn. rewrite H3. exact H1.
    + cbn. rewrite H4. exact H2.
Qed.

End TimerFrames.

(** What the timer check made before a thread is resumed records: it
    always returns, never writes the global [last_timer_update] nor the
    data of another CPU, and either changes nothing or programs the timer
    with [runloop_timer_max] and records that deadline in the calling CPU's
    [last_timer_update]. *)
Lemma ensure_cpu_timer_records (self : nat) (upd : bool) (m : machine) :
  exists tr m',
    ensure_cpu_timer self upd m = (tr, Done tt m') /\
    last_timer_update m' = last_timer_update m /\
    (forall c, c <> self -> cpuinfo_from_id m' c = cpuinfo_from_id m c) /\
    (tr = [] /\ m' = m \/
     tr = [EvTimer runloop_timer_max] /\
     hw_deadline m' = Some (u64 (clock_raw m + runloop_timer_max)) /\
     (self < total_processors m ->
      ci_last_timer_update (cpuinfo_from_id m' self)
      = u64 (clock_raw m + runloop_timer_max))).
Proof.
  unfold ensure_cpu_timer, bind at 1. cbn [get].
  destruct (negb upd && (1 <? total_processors m)).
  - unfold bind at 1. cbn [now]. unfold bind at 1. cbn [current_cpu].
    destruct ((s64 (ci_last_timer_update (cpuinfo_from_id m self) - clock_raw m) <? 0)%Z
              || (runloop_timer_max
                  <? u64 (s64 (ci_last_timer_update (cpuinfo_from_id m self)
                               - clock_raw m)))%Z).
    + eexists. eexists. split; [reflexivity |]. split; [reflexivity |]. split.
      * intros c Hc.
        change (cpuinfo_from_id (update_cpu self ?f (set_hw_deadline ?d m)) c)
          with (cpuinfo_from_id (update_cpu self f m) c).
        apply cpuinfo_update_cpu_ne. congruence.
      * right. split; [reflexivity |]. split; [reflexivity |]. intros Hself.
        change (cpuinfo_from_id (update_cpu self ?f (set_hw_deadline ?d m)) self)
          with (cpuinfo_from_id (update_cpu self f m) self).
        rewrite cpuinfo_update_cpu_eq by exact Hself. reflexivity.
    + exists [], m. split; [reflexivity |]. split; [reflexivity |].
      split; [reflexivity |]. left. split; reflexivity.
  - exists [], m. split; [reflexivity |]. split; [reflexivity |].
    split; [reflexivity |]. left. split; reflexivity.
Qed.

(** C4 (as amended): when [update_timer] programs the hardware timer, the
    value it records in [last_timer_update] and in the calling CPU's
    [last_timer_update], [next + timeout - delta], is the current raw time
    plus the programmed timeout (on 64 bits), the deadline the hardware was
    armed for.  After a lock
    block in which [update_timer] reprogrammed, [last_timer_update] is the
    deadline the hardware was last armed for; a lock block that does not
    reprogram leaves [last_timer_update] and the armed deadline as they
    were (closures and services not touching either).  The timer check made
    before a thread is resumed, whenever it programs the timer, arms it for
    the current raw time plus [runloop_timer_max] and records that deadline
    in the calling CPU's [last_timer_update] only: the global
    [last_timer_update] and the other CPUs are left as they were. *)
Theorem lock_block_records_deadline (fuel self : nat) (m : machine)
    (tr : list event) (upd : bool) (m' : machine) :
  (forall t m, last_timer_update (apply t m) = last_timer_update m
               /\ hw_deadline (apply t m) = hw_deadline m) ->
  (forall n m, last_timer_update (timer_service n m) = last_timer_update m
               /\ hw_deadline (timer_service n m) = hw_deadline m) ->
  (forall m, last_timer_update (mm_service m) = last_timer_update m
             /\ hw_deadline (mm_service m) = hw_deadline m) ->
  locked_work fuel self m = (tr, Done upd m') ->
  (forall m0 tr1 m1, update_timer self m0 = (tr1, Done true m1) ->
     exists timeout,
       tr1 = [EvTimer timeout] /\
       last_timer_update m1
       = u64 (timer_check (runloop_timers m0) + timeout
              - s64 (timer_check (runloop_timers m0) - clock_raw m0)) /\
       last_timer_update m1 = u64 (clock_raw m0 + timeout) /\
       hw_deadline m1 = Some (last_timer_update m1) /\
       (self < total_processors m0 ->
        ci_last_timer_update (cpuinfo_from_id m1 self) = last_timer_update m1)) /\
  (if upd
   then hw_deadline m' = Some (last_timer_update m')
        /\ (self < total_processors m' ->
            ci_last_timer_update (cpuinfo_from_id m' self) = last_timer_update m')
   else last_timer_update m' = last_timer_update m
        /\ hw_deadline m' = hw_deadline m) /\
  (forall timer_updated m0, exists tr1 m1,
     ensure_cpu_timer self timer_updated m0 = (tr1, Done tt m1) /\
     last_timer_update m1 = last_timer_update m0 /\
     (forall c, c <> self -> cpuinfo_from_id m1 c = cpuinfo_from_id m0 c) /\
     (tr1 = [] /\ m1 = m0 \/
      tr1 = [EvTimer runloop_timer_max] /\
      hw_deadline m1 = Some (u64 (clock_raw m0 + runloop_timer_max)) /\
      (self < total_processors m0 ->
       ci_last_timer_update (cpuinfo_from_id m1 self)
       = u64 (clock_raw m0 + runloop_timer_max)))).
Proof.
  intros Ha Ht Hmm Hrun. split; [| split].
  - intros m0 tr1 m1 Hupd.
    destruct (update_timer_records _ _ _ _ Hupd) as (timeout & Htr & Hl & Hh & Hc).
    exists timeout. split; [exact Htr |]. split; [| auto].
    rewrite Hl. symmetry. apply deadline_arith.
  - destruct (wp_run _ _ _ _ _ _ _ (locked_work_timer Ha Ht Hmm fuel self m) Hrun)
      as (s' & _ & Hpost).
    exact Hpost.
  - intros timer_updated m0. apply ensure_cpu_timer_records.
Qed.

(** ** The timer armed before a thread is resumed *)

Lemma s64_congr (x y : Z) : (x mod 2 ^ 64 = y mod 2 ^ 64)%Z -> s64 x = s64 y.
Proof. intros H. unfold s64. rewrite H. reflexivity. Qed.

Lemma s64_after_add (a b : Z) :
  (- 2 ^ 63 <= b < 2 ^ 63)%Z -> s64 (u64 (a + b) - a) = b.
Proof.
  intros Hb. rewrite <- (s64_small b Hb) at 2. apply s64_congr.
  unfold u64. rewrite Zminus_mod_idemp_l. f_equal. lia.
Qed.

Lemma ensure_cpu_timer_spec (self : nat) (m : machine) :
  (0 <= runloop_timer_max < 2 ^ 63)%Z ->
  1 < total_processors m ->
  self < total_processors m ->
  let before := s64 (ci_last_timer_update (cpuinfo_from_id m self) - clock_raw m) in
  exists tr m',
    ensure_cpu_timer self false m = (tr, Done tt m') /\
    clock_raw m' = clock_raw m /\
    (0 <= s64 (ci_last_timer_update (cpuinfo_from_id m' self) - clock_raw m')
       <= runloop_timer_max)%Z /\
    tr = (if decide (before < 0 \/ runloop_timer_max < before)%Z
          then [EvTimer runloop_timer_max] else []).
Proof.
  intros Hmax Htotal Hself before.
  pose proof (s64_range (ci_last_timer_update (cpuinfo_from_id m self) - clock_raw m))
    as Hrange. fold before in Hrange.
  unfold ensure_cpu_timer, bind at 1. cbn [get negb andb].
  destruct (Nat.ltb_spec 1 (total_processors m)) as [_ | Hbad]; [| lia].
  unfold bind at 1. cbn [now]. unfold bind at 1. cbn [current_cpu]. fold before.
  destruct ((before <? 0)%Z || (runloop_timer_max <? u64 before)%Z) eqn:Hcond.
  - eexists. eexists. split; [reflexivity |]. split; [reflexivity |]. split.
    + change (clock_raw (update_cpu self ?f (set_hw_deadline ?d m))) with (clock_raw m).
      change (cpuinfo_from_id (update_cpu self ?f (set_hw_deadline ?d m)) self)
        with (cpuinfo_from_id (update_cpu self f m) self).
      rewrite cpuinfo_update_cpu_eq by exact Hself.
      cbn [ci_last_timer_update set_ci_last_timer_update].
      rewrite s64_after_add by lia. lia.
    + case_decide as Hd; [reflexivity |]. exfalso. apply Hd.
      apply orb_true_iff in Hcond. destruct Hcond as [Hc | Hc].
      * left. apply Z.ltb_lt, Hc.
      * destruct (Z_lt_dec before 0); [left; assumption | right].
        rewrite u64_small in Hc by lia. apply Z.ltb_lt, Hc.
  - apply orb_false_iff in Hcond. destruct Hcond as [Hc1 Hc2].
    apply Z.ltb_ge in Hc1. apply Z.ltb_ge in Hc2. rewrite u64_small in Hc2 by lia.
    eexists. eexists. split; [reflexivity |]. split; [reflexivity |]. split.
    + fold before. lia.
    + case_decide as Hd; [lia | reflexivity].
Qed.


(** ** Visiting an idle CPU *)

Lemma queue_of_set_queue_eq (cpu : nat) (l : list thunk) (m : machine) :
  cpu < total_processors m ->
  queue_of (QThread cpu) (set_queue (QThread cpu) l m) = l.
Proof.
  intros Hlt. cbn [queue_of set_queue]. rewrite cpuinfo_update_cpu_eq by exact Hlt.
  reflexivity.
Qed.

Lemma queue_of_set_queue_ne (cpu other : nat) (l : list thunk) (m : machine) :
  cpu <> other ->
  queue_of (QThread other) (set_queue (QThread cpu) l m) = queue_of (QThread other) m.
Proof.
  intros Hne. cbn [queue_of set_queue]. rewrite cpuinfo_update_cpu_ne by exact Hne.
  reflexivity.
Qed.

Lemma queue_nonempty_in_range (cpu : nat) (m : machine) :
  queue_of (QThread cpu) m <> [] -> cpu < total_processors m.
Proof.
  intros Hq. destruct (Nat.lt_ge_cases cpu (total_processors m)) as [H | H]; [exact H |].
  exfalso. apply Hq. cbn [queue_of]. unfold cpuinfo_from_id.
  rewrite (lookup_ge_None_2 (cpus m) cpu H). reflexivity.
Qed.

(** The events of one [wakeup_cpu]. *)
Lemma wakeup_cpu_run (cpu : nat) (b : Z) (m : machine) :
  idle_cpu_mask m = Some b ->
  wakeup_cpu cpu m
  = (EvWakeup cpu :: (if Z.testbit b (Z.of_nat cpu) then [EvIpi cpu] else []),
     Done tt (set_idle_cpu_mask (Some (bitmap_set_atomic b cpu false)) m)).
Proof.
  intros Hb. unfold wakeup_cpu, bitmap_test_and_set_atomic, the_idle_cpu_mask.
  unfold bind, emit, get, modify, ret. rewrite Hb. cbn [app].
  destruct (Z.testbit b (Z.of_nat cpu)); reflexivity.
Qed.

Lemma dequeue_run (q : queue_id) (m : machine) :
  dequeue q m
  = match queue_of q m with
    | [] => ([EvDequeue q None], Done None m)
    | t :: l => ([EvDequeue q (Some t)], Done (Some t) (set_queue q l m))
    end.
Proof. unfold dequeue, bind at 1. cbn [get]. destruct (queue_of q m); reflexivity. Qed.

Lemma migrate_to_self_visit_spec (t : option thunk) (cpu : nat) (b : Z) (m : machine) :
  idle_cpu_mask m = Some b ->
  exists tr t' m',
    migrate_to_self_visit t cpu m = (tr, Done t' m') /\
    ((exists r, In (EvDequeue (QThread cpu) r) tr) <-> t = None) /\
    (In (EvWakeup cpu) tr <-> is_Some t' /\ queue_of (QThread cpu) m' <> []).
Proof.
  intros Hb. unfold migrate_to_self_visit.
  destruct t as [t |].
  - unfold bind at 1. cbn [ret]. unfold bind at 1, queue_empty, bind at 1.
    cbn [get ret app]. cbn [bool_decide]. rewrite bool_decide_eq_true_2 by eauto.
    cbn [andb]. unfold bind at 1.
    destruct (queue_of (QThread cpu) m) as [| u us] eqn:Hq; cbn [negb].
    + cbn [ret app]. eexists _, _, _. split; [reflexivity |]. split.
      * split; [intros [r []] | discriminate].
      * split; [intros [] |]. intros [_ Hne]. congruence.
    + rewrite (wakeup_cpu_run cpu b m Hb). cbn [ret app].
      eexists _, _, _. split; [reflexivity |]. split.
      * split; [| discriminate]. intros [r Hin]. exfalso.
        rewrite app_nil_r in Hin. destruct Hin as [Hin | Hin]; [discriminate |].
        destruct (Z.testbit b (Z.of_nat cpu)); [| destruct Hin].
        destruct Hin as [Hin | []]. discriminate.
      * split; [| intros _; left; reflexivity]. intros _. split; [eauto |].
        change (queue_of (QThread cpu) (set_idle_cpu_mask ?x m))
          with (queue_of (QThread cpu) m). rewrite Hq. discriminate.
  - unfold bind at 1. rewrite dequeue_run.
    destruct (queue_of (QThread cpu) m) as [| u us] eqn:Hq.
    + unfold bind at 1, queue_empty, bind at 1. cbn [get ret app]. rewrite Hq.
      rewrite bool_decide_eq_false_2 by (intros [x Hx]; discriminate).
      cbn [andb]. unfold bind at 1. cbn [ret app].
      eexists _, _, _. split; [reflexivity |]. split.
      * split; [reflexivity |]. intros _. exists None. left. reflexivity.
      * split; [intros [Hin | []]; discriminate |]. intros [[x Hx] _]. discriminate.
    + assert (Hrange : cpu < total_processors m).
      { apply queue_nonempty_in_range. rewrite Hq. discriminate. }
      unfold bind at 1, queue_empty, bind at 1. cbn [get ret app].
      rewrite queue_of_set_queue_eq by exact Hrange.
      rewrite bool_decide_eq_true_2 by eauto. cbn [andb]. unfold bind at 1.
      destruct us as [| v vs]; cbn [negb].
      * cbn [ret app]. eexists _, _, _. split; [reflexivity |]. split.
        -- split; [reflexivity |]. intros _. exists (Some u). left. reflexivity.
        -- split; [intros [Hin | []]; discriminate |]. intros [_ Hne].
           rewrite queue_of_set_queue_eq in Hne by exact Hrange. congruence.
      * rewrite (wakeup_cpu_run cpu b (set_queue (QThread cpu) (v :: vs) m) Hb).
        cbn [ret app].
        eexists _, _, _. split; [reflexivity |]. split.
        -- split; [reflexivity |]. intros _. exists (Some u). left. reflexivity.
        -- split; [| intros _; right; left; reflexivity]. intros _. split; [eauto |].
           change (queue_of (QThread cpu) (set_idle_cpu_mask ?x ?y))
             with (queue_of (QThread cpu) y).
           rewrite queue_of_set_queue_eq by exact Hrange. discriminate.
Qed.

Lemma migrate_from_self_visit_spec (self cpu : nat) (b : Z) (m : machine) :
  idle_cpu_mask m = Some b ->
  cpu <> self ->
  cpu < total_processors m ->
  self < total_processors m ->
  0 < thread_queue_size ->
  exists tr m',
    migrate_from_self_visit self cpu m = (tr, Done tt m') /\
    match queue_of (QThread cpu) m with
    | _ :: _ =>
      In (EvWakeup cpu) tr /\ cpus m' = cpus m /\
      (forall e, In e tr -> e = EvWakeup cpu \/ e = EvIpi cpu)
    | [] =>
      match queue_of (QThread self) m with
      | t :: l =>
        queue_of (QThread self) m' = l /\ queue_of (QThread cpu) m' = [t] /\
        In (EvEnqueue cpu t true) tr /\ In (EvWakeup cpu) tr
      | [] => tr = [EvDequeue (QThread self) None] /\ m' = m
      end
    end.
Proof.
  intros Hb Hne Hcpu Hself Hroom. unfold migrate_from_self_visit.
  unfold bind at 1, queue_empty, bind at 1. cbn [get ret app].
  destruct (queue_of (QThread cpu) m) as [| u us] eqn:Hq; cbn [negb].
  - unfold bind at 1. rewrite dequeue_run.
    destruct (queue_of (QThread self) m) as [| t l] eqn:Hs.
    + cbn [ret app]. eexists _, _. split; [reflexivity |]. split; reflexivity.
    + unfold bind at 1, enqueue, bind at 1. cbn [get].
      rewrite queue_of_set_queue_ne by congruence. rewrite Hq. cbn [length].
      destruct (Nat.ltb_spec 0 thread_queue_size) as [_ | Hbad]; [| lia].
      unfold bind at 1. cbn [modify]. unfold bind at 1. cbn [emit ret app].
      set (m1 := set_queue (QThread cpu) [t] (set_queue (QThread self) l m)).
      rewrite (wakeup_cpu_run cpu b m1 Hb).
      eexists _, _. split; [reflexivity |].
      change (queue_of ?q (set_idle_cpu_mask ?x m1)) with (queue_of q m1).
      unfold m1. split; [| split; [| split]].
      * rewrite queue_of_set_queue_ne by exact Hne.
        apply queue_of_set_queue_eq, Hself.
      * apply queue_of_set_queue_eq.
        unfold total_processors. cbn. rewrite length_alter. exact Hcpu.
      * right. left. reflexivity.
      * right. right. left. reflexivity.
  - rewrite (wakeup_cpu_run cpu b m Hb).
    eexists _, _. split; [reflexivity |]. split; [left; reflexivity |].
    split; [reflexivity |]. intros e [He | He]; [left; congruence |].
    destruct (Z.testbit b (Z.of_nat cpu)); [| destruct He].
    destruct He as [He | []]. right. congruence.
Qed.

(** C7: for an idle CPU [cpu] found by a scan.  [migrate_to_self] dequeues
    from the thread queue of [cpu] exactly when it does not hold a thread
    yet, and calls [wakeup_cpu] on [cpu] exactly when it then holds a
    thread and the queue of [cpu] is left non-empty.  [migrate_from_self]
    wakes [cpu] without moving anything when the queue of [cpu] is
    non-empty; otherwise it moves the head of the caller's queue onto the
    queue of [cpu] and wakes [cpu]; with both queues empty it changes
    nothing. *)
Theorem migrate_visit_one_cpu (self cpu : nat) (t : option thunk) (b : Z) (m : machine) :
  idle_cpu_mask m = Some b ->
  cpu <> self ->
  cpu < total_processors m ->
  self < total_processors m ->
  0 < thread_queue_size ->
  (exists tr t' m',
     migrate_to_self_visit t cpu m = (tr, Done t' m') /\
     ((exists r, In (EvDequeue (QThread cpu) r) tr) <-> t = None) /\
     (In (EvWakeup cpu) tr <-> is_Some t' /\ queue_of (QThread cpu) m' <> [])) /\
  (exists tr m',
     migrate_from_self_visit self cpu m = (tr, Done tt m') /\
     match queue_of (QThread cpu) m with
     | _ :: _ =>
       In (EvWakeup cpu) tr /\ cpus m' = cpus m /\
       (forall e, In e tr -> e = EvWakeup cpu \/ e = EvIpi cpu)
     | [] =>
       match queue_of (QThread self) m with
       | t :: l =>
         queue_of (QThread self) m' = l /\ queue_of (QThread cpu) m' = [t] /\
         In (EvEnqueue cpu t true) tr /\ In (EvWakeup cpu) tr
       | [] => tr = [EvDequeue (QThread self) None] /\ m' = m
       end
     end).
Proof.
  intros Hb Hne Hcpu Hself Hroom. split.
  - apply (migrate_to_self_visit_spec t cpu b m Hb).
  - apply (migrate_from_self_visit_spec self cpu b m Hb Hne Hcpu Hself Hroom).
Qed.

(** ** Migration pull *)

Lemma dequeues_app (tr1 tr2 : list event) :
  dequeues (tr1 ++ tr2) = dequeues tr1 ++ dequeues tr2.
Proof. apply List.filter_app. Qed.

Lemma range_first_some (b : Z) (first n cpu : nat) :
  bitmap_range_get_first b first n = Some cpu ->
  List.filter (is_idle b) (seq first n)
  = cpu :: List.filter (is_idle b) (seq (cpu + 1) (n - (cpu - first + 1))).
Proof.
  revert first. induction n as [| n IH]; intros first; cbn [bitmap_range_get_first];
    [discriminate |].
  cbn [seq List.filter]. unfold is_idle at 1.
  destruct (Z.testbit b (Z.of_nat first)).
  - intros [= <-]. do 3 f_equal; lia.
  - intros H. assert (Hge : S first <= cpu).
    { clear IH. revert first H. induction n as [| n IHn]; intros first;
        cbn [bitmap_range_get_first]; [discriminate |].
      destruct (Z.testbit b (Z.of_nat (S first))); [intros [= <-]; lia |].
      intros H. apply IHn in H. lia. }
    rewrite (IH _ H). do 3 f_equal. lia.
Qed.

Lemma range_first_none (b : Z) (first n : nat) :
  bitmap_range_get_first b first n = None ->
  List.filter (is_idle b) (seq first n) = [].
Proof.
  revert first. induction n as [| n IH]; intros first; cbn [bitmap_range_get_first];
    [reflexivity |].
  cbn [seq List.filter]. unfold is_idle at 1.
  destruct (Z.testbit b (Z.of_nat first)); [discriminate | apply IH].
Qed.

Lemma visit_holding (u : thunk) (cpu : nat) (b : Z) (m : machine) :
  idle_cpu_mask m = Some b ->
  exists tr m',
    migrate_to_self_visit (Some u) cpu m = (tr, Done (Some u) m') /\
    dequeues tr = [] /\ is_Some (idle_cpu_mask m').
Proof.
  intros Hb. unfold migrate_to_self_visit.
  unfold bind at 1. cbn [ret]. unfold bind at 1, queue_empty, bind at 1.
  cbn [get ret app]. rewrite bool_decide_eq_true_2 by eauto. cbn [andb].
  unfold bind at 1.
  destruct (queue_of (QThread cpu) m) as [| v vs]; cbn [negb].
  - cbn [ret app]. eexists _, _. split; [reflexivity |]. split; [reflexivity |].
    rewrite Hb. eauto.
  - rewrite (wakeup_cpu_run cpu b m Hb). cbn [ret app].
    eexists _, _. split; [reflexivity |]. split; [| cbn; eauto].
    rewrite app_nil_r. cbn. destruct (Z.testbit b (Z.of_nat cpu)); reflexivity.
Qed.

Lemma visit_empty (cpu : nat) (m : machine) :
  queue_of (QThread cpu) m = [] ->
  migrate_to_self_visit None cpu m = ([EvDequeue (QThread cpu) None], Done None m).
Proof.
  intros Hq. unfold migrate_to_self_visit. unfold bind at 1. rewrite dequeue_run, Hq.
  unfold bind at 1, queue_empty, bind at 1. cbn [get ret app]. rewrite Hq.
  rewrite bool_decide_eq_false_2 by (intros [x Hx]; discriminate). reflexivity.
Qed.

Lemma visit_steal (u : thunk) (us : list thunk) (cpu : nat) (b : Z) (m : machine) :
  idle_cpu_mask m = Some b ->
  queue_of (QThread cpu) m = u :: us ->
  exists tr m',
    migrate_to_self_visit None cpu m
      = (EvDequeue (QThread cpu) (Some u) :: tr, Done (Some u) m') /\
    dequeues tr = [] /\ is_Some (idle_cpu_mask m').
Proof.
  intros Hb Hq. unfold migrate_to_self_visit. unfold bind at 1. rewrite dequeue_run, Hq.
  unfold bind at 1, queue_empty, bind at 1. cbn [get ret app].
  rewrite bool_decide_eq_true_2 by eauto. cbn [andb]. unfold bind at 1.
  destruct (queue_of (QThread cpu) (set_queue (QThread cpu) us m)) as [| v vs];
    cbn [negb].
  - cbn [ret app]. eexists _, _. split; [reflexivity |]. split; [reflexivity |].
    cbn. rewrite Hb. eauto.
  - rewrite (wakeup_cpu_run cpu b (set_queue (QThread cpu) us m) Hb). cbn [ret app].
    eexists _, _. split; [reflexivity |]. split; [| cbn; eauto].
    rewrite app_nil_r. cbn. destruct (Z.testbit b (Z.of_nat cpu)); reflexivity.
Qed.

(** Once a thread is held, the rest of a scan only wakes CPUs. *)
Lemma migrate_to_self_holding (fuel : nat) (u : thunk) (first n : nat) (b : Z) (m : machine) :
  idle_cpu_mask m = Some b ->
  n < fuel ->
  exists tr m',
    migrate_to_self fuel (Some u) first n m = (tr, Done (Some u) m') /\
    dequeues tr = [] /\ is_Some (idle_cpu_mask m').
Proof.
  revert first n b m. induction fuel as [| fuel IH]; intros first n b m Hb Hfuel; [lia |].
  cbn [migrate_to_self]. destruct (Nat.eqb_spec n 0) as [Hn | Hn].
  - eexists _, _. split; [reflexivity |]. split; [reflexivity |]. rewrite Hb. eauto.
  - unfold bind at 1, the_idle_cpu_mask, bind at 1. cbn [get]. rewrite Hb. cbn [ret app].
    destruct (bitmap_range_get_first b first n) as [cpu |].
    + destruct (visit_holding u cpu b m Hb) as (tr1 & m1 & Hv & Hd1 & [b1 Hb1]).
      destruct (IH (cpu + 1) (n - (cpu - first + 1)) b1 m1 Hb1 ltac:(lia))
        as (tr2 & m2 & Hr & Hd2 & Hm2).
      exists (tr1 ++ tr2), m2. split.
      * rewrite (bind_done _ _ _ _ _ _ _ _ _ Hv Hr). reflexivity.
      * split; [| exact Hm2]. rewrite dequeues_app, Hd1, Hd2. reflexivity.
    + eexists _, _. split; [reflexivity |]. split; [reflexivity |]. rewrite Hb. eauto.
Qed.

(** A scan started without a thread tries the queues of the idle CPUs of
    the range in increasing order, up to the first that yields a thread;
    when none does, the machine is left as it was. *)
Lemma migrate_to_self_scan (fuel : nat) (first n : nat) (b : Z) (m : machine) :
  idle_cpu_mask m = Some b ->
  n < fuel ->
  exists tr m',
    migrate_to_self fuel None first n m
      = (tr, Done (snd (steal_scan m (List.filter (is_idle b) (seq first n)))) m') /\
    dequeues tr = fst (steal_scan m (List.filter (is_idle b) (seq first n))) /\
    is_Some (idle_cpu_mask m') /\
    (snd (steal_scan m (List.filter (is_idle b) (seq first n))) = None -> m' = m).
Proof.
  revert first n. induction fuel as [| fuel IH]; intros first n Hb Hfuel; [lia |].
  cbn [migrate_to_self]. destruct (Nat.eqb_spec n 0) as [Hn | Hn].
  - subst n. cbn [seq List.filter steal_scan fst snd].
    eexists _, _. split; [reflexivity |]. split; [reflexivity |].
    split; [rewrite Hb; eauto | reflexivity].
  - unfold bind at 1, the_idle_cpu_mask, bind at 1. cbn [get]. rewrite Hb. cbn [ret app].
    destruct (bitmap_range_get_first b first n) as [cpu |] eqn:Hfirst.
    + rewrite (range_first_some _ _ _ _ Hfirst). cbn [steal_scan].
      destruct (queue_of (QThread cpu) m) as [| u us] eqn:Hq.
      * destruct (IH (cpu + 1) (n - (cpu - first + 1)) Hb ltac:(lia))
          as (tr2 & m2 & Hr & Hd2 & Hm2 & Hsame).
        destruct (steal_scan m (List.filter (is_idle b)
                                  (seq (cpu + 1) (n - (cpu - first + 1)))))
          as [evs r]. cbn [fst snd] in *.
        exists ([EvDequeue (QThread cpu) None] ++ tr2), m2. split.
        -- rewrite (bind_done _ _ _ _ _ _ _ _ _ (visit_empty cpu m Hq) Hr). reflexivity.
        -- split; [| split; assumption]. rewrite dequeues_app, Hd2. reflexivity.
      * destruct (visit_steal u us cpu b m Hb Hq) as (tr1 & m1 & Hv & Hd1 & [b1 Hb1]).
        destruct (migrate_to_self_holding fuel u (cpu + 1) (n - (cpu - first + 1))
                    b1 m1 Hb1 ltac:(lia)) as (tr2 & m2 & Hr & Hd2 & Hm2).
        cbn [fst snd].
        exists ((EvDequeue (QThread cpu) (Some u) :: tr1) ++ tr2), m2. split.
        -- rewrite (bind_done _ _ _ _ _ _ _ _ _ Hv Hr). reflexivity.
        -- split; [| split; [exact Hm2 | discriminate]].
           rewrite dequeues_app, Hd2, app_nil_r. unfold dequeues in *.
           cbn [List.filter is_dequeue]. rewrite Hd1. reflexivity.
    + rewrite (range_first_none _ _ _ Hfirst). cbn [steal_scan fst snd].
      eexists _, _. split; [reflexivity |]. split; [reflexivity |].
      split; [rewrite Hb; eauto | reflexivity].
Qed.

Lemma steal_from_user_step (fuel self cpu : nat) (m : machine) :
  cpu < total_processors m ->
  cpu <> self ->
  steal_from_user (S fuel) self cpu m
  = if is_user m cpu
    then match queue_of (QThread cpu) m with
         | [] => let (tr, st) := steal_from_user fuel self (cpu + 1) m in
                 (EvDequeue (QThread cpu) None :: tr, st)
         | u :: us => ([EvDequeue (QThread cpu) (Some u)],
                       Done (Some u) (set_queue (QThread cpu) us m))
         end
    else steal_from_user fuel self (cpu + 1) m.
Proof.
  intros Hlt Hne. cbn [steal_from_user]. unfold bind at 1. cbn [get].
  destruct (Nat.eqb_spec cpu (total_processors m)) as [Heq | _]; [lia |].
  destruct (Nat.eqb_spec cpu self) as [Heq | _]; [contradiction |].
  unfold is_user. destruct (cpu_state_eqb (state (cpuinfo_from_id m cpu)) cpu_user).
  - unfold bind at 1. rewrite dequeue_run.
    destruct (queue_of (QThread cpu) m) as [| u us]; [| reflexivity].
    destruct (steal_from_user fuel self (cpu + 1) m) as [tr st]. reflexivity.
  - destruct (steal_from_user fuel self (cpu + 1) m) as [tr st]. reflexivity.
Qed.

Lemma steal_scan_user_step (m : machine) (cpu : nat) (rest : list nat) :
  steal_scan m (List.filter (is_user m) (cpu :: rest))
  = if is_user m cpu
    then match queue_of (QThread cpu) m with
         | [] => let (evs, r) := steal_scan m (List.filter (is_user m) rest) in
                 (EvDequeue (QThread cpu) None :: evs, r)
         | u :: _ => ([EvDequeue (QThread cpu) (Some u)], Some u)
         end
    else steal_scan m (List.filter (is_user m) rest).
Proof. cbn [List.filter]. destruct (is_user m cpu); reflexivity. Qed.

(** The scan of the CPUs in state [cpu_user], from [cpu] up to [self]. *)
Lemma steal_from_user_low (fuel self cpu : nat) (m : machine) :
  cpu <= self ->
  self < total_processors m ->
  self - cpu < fuel ->
  exists m',
    steal_from_user fuel self cpu m
    = (fst (steal_scan m (List.filter (is_user m) (seq cpu (self - cpu)))),
       Done (snd (steal_scan m (List.filter (is_user m) (seq cpu (self - cpu))))) m')
    /\ (snd (steal_scan m (List.filter (is_user m) (seq cpu (self - cpu)))) = None
        -> m' = m).
Proof.
  revert cpu. induction fuel as [| fuel IH]; intros cpu Hle Hself Hfuel; [lia |].
  destruct (Nat.eq_dec cpu self) as [-> | Hne].
  - rewrite Nat.sub_diag. cbn [seq List.filter steal_scan fst snd steal_from_user].
    unfold bind at 1. cbn [get].
    destruct (Nat.eqb_spec self (total_processors m)) as [Heq | _]; [lia |].
    rewrite Nat.eqb_refl. eexists. split; reflexivity.
  - rewrite steal_from_user_step by lia.
    replace (self - cpu) with (S (self - (cpu + 1))) by lia.
    cbn [seq]. rewrite steal_scan_user_step.
    replace (S cpu) with (cpu + 1) by lia.
    destruct (IH (cpu + 1) ltac:(lia) Hself ltac:(lia)) as (m1 & Hrec & Hsame).
    destruct (is_user m cpu).
    + destruct (queue_of (QThread cpu) m) as [| u us].
      * rewrite Hrec.
        destruct (steal_scan m (List.filter (is_user m) (seq (cpu + 1) (self - (cpu + 1)))))
          as [evs r]. cbn [fst snd] in *. exists m1. split; [reflexivity | exact Hsame].
      * cbn [fst snd]. eexists. split; [reflexivity | discriminate].
    + exists m1. split; [exact Hrec | exact Hsame].
Qed.

(** The scan of the CPUs in state [cpu_user], from [cpu] above [self]
    round to [self]. *)
Lemma steal_from_user_high (fuel self cpu : nat) (m : machine) :
  self < cpu ->
  cpu <= total_processors m ->
  self < total_processors m ->
  total_processors m - cpu + self < fuel ->
  exists m',
    steal_from_user fuel self cpu m
    = (fst (steal_scan m (List.filter (is_user m)
                            (seq cpu (total_processors m - cpu) ++ seq 0 self))),
       Done (snd (steal_scan m (List.filter (is_user m)
                                  (seq cpu (total_processors m - cpu) ++ seq 0 self)))) m')
    /\ (snd (steal_scan m (List.filter (is_user m)
                             (seq cpu (total_processors m - cpu) ++ seq 0 self))) = None
        -> m' = m).
Proof.
  revert cpu. induction fuel as [| fuel IH]; intros cpu Hgt Hle Hself Hfuel; [lia |].
  destruct (Nat.eq_dec cpu (total_processors m)) as [-> | Hne].
  - rewrite Nat.sub_diag. cbn [seq app].
    assert (Hwrap : steal_from_user (S fuel) self (total_processors m) m
                    = steal_from_user (S fuel) self 0 m).
    { cbn [steal_from_user]. unfold bind at 1. unfold bind at 2. cbn [get].
      rewrite Nat.eqb_refl. destruct (0 =? total_processors m); reflexivity. }
    rewrite Hwrap.
    destruct (steal_from_user_low (S fuel) self 0 m ltac:(lia) Hself ltac:(lia))
      as (m1 & Hrun & Hsame).
    rewrite Nat.sub_0_r in Hrun, Hsame. exists m1. split; assumption.
  - rewrite steal_from_user_step by lia.
    replace (total_processors m - cpu) with (S (total_processors m - (cpu + 1))) by lia.
    cbn [seq app]. rewrite steal_scan_user_step.
    replace (S cpu) with (cpu + 1) by lia.
    destruct (IH (cpu + 1) ltac:(lia) ltac:(lia) Hself ltac:(lia)) as (m1 & Hrec & Hsame).
    destruct (is_user m cpu).
    + destruct (queue_of (QThread cpu) m) as [| u us].
      * rewrite Hrec.
        destruct (steal_scan m (List.filter (is_user m)
                    (seq (cpu + 1) (total_processors m - (cpu + 1)) ++ seq 0 self)))
          as [evs r]. cbn [fst snd] in *. exists m1. split; [reflexivity | exact Hsame].
      * cbn [fst snd]. eexists. split; [reflexivity | discriminate].
    + exists m1. split; [exact Hrec | exact Hsame].
Qed.

Lemma steal_scan_app (m : machine) (l1 l2 : list nat) :
  steal_scan m (l1 ++ l2)
  = match steal_scan m l1 with
    | (e1, Some t) => (e1, Some t)
    | (e1, None) => let (e2, r) := steal_scan m l2 in (e1 ++ e2, r)
    end.
Proof.
  induction l1 as [| c l1 IH]; cbn [app steal_scan].
  - destruct (steal_scan m l2). reflexivity.
  - destruct (queue_of (QThread c) m); [| reflexivity].
    rewrite IH. destruct (steal_scan m l1) as [e1 [t |]]; [reflexivity |].
    destruct (steal_scan m l2). reflexivity.
Qed.

Lemma steal_scan_dequeues (m : machine) (l : list nat) :
  dequeues (fst (steal_scan m l)) = fst (steal_scan m l).
Proof.
  induction l as [| c l IH]; cbn [steal_scan]; [reflexivity |].
  destruct (queue_of (QThread c) m); [| reflexivity].
  destruct (steal_scan m l) as [evs r]. cbn [fst] in *.
  unfold dequeues in *. cbn [List.filter is_dequeue]. rewrite IH. reflexivity.
Qed.

Lemma steal_scan_steals (m : machine) (l : list nat) :
  length (List.filter is_steal (fst (steal_scan m l)))
  = match snd (steal_scan m l) with Some _ => 1 | None => 0 end.
Proof.
  induction l as [| c l IH]; cbn [steal_scan]; [reflexivity |].
  destruct (queue_of (QThread c) m); [| reflexivity].
  destruct (steal_scan m l) as [evs r]. cbn [fst snd] in *.
  cbn [List.filter is_steal]. exact IH.
Qed.

Lemma pull_spec_one_steal (b : Z) (self : nat) (m : machine) :
  length (List.filter is_steal (fst (pull_spec b self m))) <= 1.
Proof.
  unfold pull_spec. cbv zeta.
  pose proof (steal_scan_steals m
    (List.filter (is_idle b) (scan_order self (total_processors m)))) as H1.
  pose proof (steal_scan_steals m
    (List.filter (is_user m) (scan_order self (total_processors m)))) as H2.
  destruct (steal_scan m (List.filter (is_idle b) (scan_order self (total_processors m))))
    as [e1 [t |]]; cbn [fst snd] in *; [lia |].
  destruct (steal_scan m (List.filter (is_user m) (scan_order self (total_processors m))))
    as [e2 r]; cbn [fst snd] in *.
  rewrite List.filter_app, length_app. destruct r; lia.
Qed.


(** * Further properties of schedule.c *)

(** ** The kernel lock *)

Lemma alter_fixed {A} (f : A -> A) (i : nat) (l : list A) :
  (forall x, l !! i = Some x -> f x = x) -> alter f i l = l.
Proof.
  revert i. induction l as [| a l IH]; intros i Hf; [reflexivity |].
  destruct i as [| i]; cbn.
  - rewrite (Hf a eq_refl). reflexivity.
  - f_equal. apply IH. intros x Hx. apply Hf. exact Hx.
Qed.

Lemma cpuinfo_update_cpu (cpu c : nat) f m :
  cpuinfo_from_id (update_cpu cpu f m) c
  = if decide (cpu = c /\ c < total_processors m)
    then f (cpuinfo_from_id m c) else cpuinfo_from_id m c.
Proof.
  case_decide as Hd.
  - destruct Hd as [-> Hlt]. apply cpuinfo_update_cpu_eq, Hlt.
  - destruct (Nat.eq_dec cpu c) as [-> | Hne].
    + unfold cpuinfo_from_id, update_cpu, with_cpus. cbn [cpus].
      assert (Hge : length (cpus m) <= c) by (unfold total_processors in Hd; lia).
      rewrite list_lookup_alter_eq, (lookup_ge_None_2 _ _ Hge). reflexivity.
    + apply cpuinfo_update_cpu_ne, Hne.
Qed.

Lemma kern_try_lock_run (self : nat) (m : machine) :
  state (cpuinfo_from_id m self) <> cpu_interrupt ->
  kern_try_lock self m
  = if kernel_lock m
    then ([EvTryLock false], Done false m)
    else ([EvTryLock true],
          Done true (update_cpu self (set_have_kernel_lock true)
                       (set_kernel_lock true m))).
Proof.
  intros Hstate. unfold kern_try_lock, bind at 1. cbn [current_cpu].
  assert (Hok : negb (cpu_state_eqb (state (cpuinfo_from_id m self)) cpu_interrupt) = true).
  { destruct (state (cpuinfo_from_id m self)); try reflexivity. contradiction. }
  rewrite Hok. unfold bind at 1. cbn [assert ret app]. unfold bind at 1. cbn [get app].
  destruct (kernel_lock m); reflexivity.
Qed.

Lemma kern_unlock_run (self : nat) (m : machine) :
  state (cpuinfo_from_id m self) <> cpu_interrupt ->
  kern_unlock self m
  = ([EvUnlock],
     Done tt (set_kernel_lock false (update_cpu self (set_have_kernel_lock false) m))).
Proof.
  intros Hstate. unfold kern_unlock, bind at 1. cbn [current_cpu].
  assert (Hok : negb (cpu_state_eqb (state (cpuinfo_from_id m self)) cpu_interrupt) = true).
  { destruct (state (cpuinfo_from_id m self)); try reflexivity. contradiction. }
  rewrite Hok. reflexivity.
Qed.

Lemma lock_consistent_free (m : machine) :
  lock_consistent m -> kernel_lock m = false ->
  forall c, have_kernel_lock (cpuinfo_from_id m c) = false.
Proof.
  intros Hcons Hfree c.
  destruct (have_kernel_lock (cpuinfo_from_id m c)) eqn:Hc; [| reflexivity].
  destruct (Hcons c Hc) as [Hl _]. congruence.
Qed.

(** X1: from a state other than [cpu_interrupt], [kern_try_lock] never
    blocks: it succeeds exactly when the spinlock is free; on failure the
    machine is untouched; it keeps the ownership flags consistent with the
    spinlock (no second owner), and on success the caller is the owner. *)
Theorem kern_try_lock_exclusive (self : nat) (m : machine) :
  lock_consistent m ->
  state (cpuinfo_from_id m self) <> cpu_interrupt ->
  exists m',
    kern_try_lock self m
      = ([EvTryLock (negb (kernel_lock m))], Done (negb (kernel_lock m)) m') /\
    (kernel_lock m = true -> m' = m) /\
    kernel_lock m' = true /\
    lock_consistent m' /\
    (kernel_lock m = false -> self < total_processors m ->
     have_kernel_lock (cpuinfo_from_id m' self) = true).
Proof.
  intros Hcons Hstate. rewrite (kern_try_lock_run self m Hstate).
  destruct (kernel_lock m) eqn:Hlock; cbn [negb].
  - eexists. split; [reflexivity |]. split; [reflexivity |].
    split; [exact Hlock |]. split; [exact Hcons | discriminate].
  - eexists. split; [reflexivity |]. split; [discriminate |].
    split; [reflexivity |]. split.
    + intros c Hc. split; [reflexivity |].
      assert (Hself : forall x,
        have_kernel_lock
          (cpuinfo_from_id (update_cpu self (set_have_kernel_lock true)
                              (set_kernel_lock true m)) x) = true -> x = self).
      { intros x. rewrite cpuinfo_update_cpu. case_decide as Hd.
        - intros _. symmetry. apply Hd.
        - change (cpuinfo_from_id (set_kernel_lock true m) x) with (cpuinfo_from_id m x).
          rewrite (lock_consistent_free m Hcons Hlock). discriminate. }
      intros c' Hc'. rewrite (Hself c Hc), (Hself c' Hc'). reflexivity.
    + intros _ Hself. rewrite cpuinfo_update_cpu_eq by exact Hself. reflexivity.
Qed.

(** X2: when the caller owns the lock, [kern_unlock] frees the spinlock
    and leaves no CPU with [have_kernel_lock] set. *)
Theorem kern_unlock_releases (self : nat) (m : machine) :
  lock_consistent m ->
  state (cpuinfo_from_id m self) <> cpu_interrupt ->
  have_kernel_lock (cpuinfo_from_id m self) = true ->
  exists m',
    kern_unlock self m = ([EvUnlock], Done tt m') /\
    kernel_lock m' = false /\
    (forall c, have_kernel_lock (cpuinfo_from_id m' c) = false) /\
    lock_consistent m'.
Proof.
  intros Hcons Hstate Hown. rewrite (kern_unlock_run self m Hstate).
  eexists. split; [reflexivity |].
  assert (Hnone : forall c,
    have_kernel_lock
      (cpuinfo_from_id (set_kernel_lock false
                          (update_cpu self (set_have_kernel_lock false) m)) c) = false).
  { intros c.
    change (cpuinfo_from_id (set_kernel_lock false ?x) c) with (cpuinfo_from_id x c).
    rewrite cpuinfo_update_cpu. case_decide as Hd; [reflexivity |].
    destruct (have_kernel_lock (cpuinfo_from_id m c)) eqn:Hc; [| reflexivity].
    destruct (Hcons self Hown) as [_ Honly]. specialize (Honly c Hc). subst c.
    exfalso. apply Hd. split; [reflexivity |].
    destruct (Nat.lt_ge_cases self (total_processors m)) as [Hlt | Hge]; [exact Hlt |].
    unfold cpuinfo_from_id in Hown.
    rewrite (lookup_ge_None_2 (cpus m) self Hge) in Hown. discriminate. }
  split; [reflexivity |]. split; [exact Hnone |].
  intros c Hc. rewrite Hnone in Hc. discriminate.
Qed.

(** X3: taking the free lock and releasing it leaves the machine exactly
    as it was. *)
Theorem kern_try_lock_unlock_roundtrip (self : nat) (m : machine) :
  lock_consistent m ->
  state (cpuinfo_from_id m self) <> cpu_interrupt ->
  kernel_lock m = false ->
  bind (kern_try_lock self) (fun _ => kern_unlock self) m
  = ([EvTryLock true; EvUnlock], Done tt m).
Proof.
  intros Hcons Hstate Hfree.
  pose proof (lock_consistent_free m Hcons Hfree self) as Hflag.
  pose proof (kern_try_lock_run self m Hstate) as Htry. rewrite Hfree in Htry.
  set (m1 := update_cpu self (set_have_kernel_lock true) (set_kernel_lock true m)) in *.
  assert (Hstate1 : state (cpuinfo_from_id m1 self) <> cpu_interrupt).
  { unfold m1. rewrite cpuinfo_update_cpu. case_decide; exact Hstate. }
  rewrite (bind_done _ _ _ _ _ _ _ _ _ Htry (kern_unlock_run self m1 Hstate1)).
  cbn [app]. do 2 f_equal. unfold m1.
  destruct m as [rq bq tm mask ltu sd kl cs clk hw].
  unfold set_kernel_lock, update_cpu, with_cpus. cbn in *. subst kl. f_equal.
  rewrite list_alter_alter_eq. apply alter_fixed.
  intros x Hx. unfold cpuinfo_from_id in Hflag. cbn [cpus] in Hflag.
  rewrite Hx in Hflag. cbn in Hflag. destruct x. cbn in *. subst. reflexivity.
Qed.

(** ** Waking CPUs *)

Lemma testbit_clear (b : Z) (cpu c : nat) :
  Z.testbit (bitmap_set_atomic b cpu false) (Z.of_nat c)
  = if decide (c = cpu) then false else Z.testbit b (Z.of_nat c).
Proof.
  unfold bitmap_set_atomic. rewrite Z.clearbit_eqb.
  case_decide as Hd.
  - subst c. rewrite Z.eqb_refl. apply andb_false_r.
  - destruct (Z.eqb_spec (Z.of_nat cpu) (Z.of_nat c)) as [Heq | _]; [lia |].
    apply andb_true_r.
Qed.

Lemma testbit_set (b : Z) (cpu c : nat) :
  Z.testbit (bitmap_set_atomic b cpu true) (Z.of_nat c)
  = if decide (c = cpu) then true else Z.testbit b (Z.of_nat c).
Proof.
  unfold bitmap_set_atomic. rewrite Z.setbit_eqb by lia.
  case_decide as Hd.
  - subst c. rewrite Z.eqb_refl. reflexivity.
  - destruct (Z.eqb_spec (Z.of_nat cpu) (Z.of_nat c)) as [Heq | _]; [lia |].
    reflexivity.
Qed.

(** X4: [wakeup_cpu] tests and clears the idle bit: the IPI goes out only
    if the CPU was marked idle, so a second [wakeup_cpu] sends nothing.  The
    bits of the other CPUs and the per-CPU data are left alone. *)
Theorem wakeup_cpu_ipi_once (cpu : nat) (b : Z) (m : machine) :
  idle_cpu_mask m = Some b ->
  exists m' b',
    bind (wakeup_cpu cpu) (fun _ => wakeup_cpu cpu) m
      = (EvWakeup cpu :: (if Z.testbit b (Z.of_nat cpu) then [EvIpi cpu] else [])
           ++ [EvWakeup cpu], Done tt m') /\
    idle_cpu_mask m' = Some b' /\
    (forall c, Z.testbit b' (Z.of_nat c)
               = if decide (c = cpu) then false else Z.testbit b (Z.of_nat c)) /\
    cpus m' = cpus m.
Proof.
  intros Hb.
  pose proof (wakeup_cpu_run cpu b m Hb) as H1.
  set (m1 := set_idle_cpu_mask (Some (bitmap_set_atomic b cpu false)) m) in *.
  pose proof (wakeup_cpu_run cpu (bitmap_set_atomic b cpu false) m1 eq_refl) as H2.
  rewrite testbit_clear in H2. rewrite decide_True in H2 by reflexivity.
  rewrite (bind_done _ _ _ _ _ _ _ _ _ H1 H2).
  eexists _, _. split; [reflexivity |]. split; [reflexivity |]. split; [| reflexivity].
  intros c. rewrite !testbit_clear. case_decide; reflexivity.
Qed.

(** X5: a CPU that has gone to sleep with the idle mask allocated is
    marked idle, and the first [wakeup_cpu] for it sends it an IPI and
    clears the mark. *)
Theorem sleep_then_wakeup (self : nat) (b : Z) (m : machine) :
  idle_cpu_mask m = Some b ->
  exists m1 m2 b2,
    kernel_sleep 0 self m = ([EvSleep], Spin m1) /\
    wakeup_cpu self m1 = ([EvWakeup self; EvIpi self], Done tt m2) /\
    idle_cpu_mask m2 = Some b2 /\
    (forall c, Z.testbit b2 (Z.of_nat c)
               = if decide (c = self) then false else Z.testbit b (Z.of_nat c)).
Proof.
  intros Hb. unfold kernel_sleep, bind at 1. cbn [emit]. unfold bind at 1. cbn [modify].
  unfold bind at 1. cbn [get]. unfold bind at 1.
  cbn [update_cpu with_cpus idle_cpu_mask]. rewrite Hb. cbn [modify wait_loop spin app].
  eexists _, _, _. split; [reflexivity |]. split.
  - erewrite wakeup_cpu_run by reflexivity. rewrite testbit_set.
    rewrite decide_True by reflexivity. reflexivity.
  - split; [reflexivity |]. intros c. rewrite testbit_clear, testbit_set.
    case_decide; reflexivity.
Qed.

Lemma wakeup_all_from_run (fuel self i : nat) (b : Z) (m : machine) :
  idle_cpu_mask m = Some b ->
  total_processors m - i < fuel ->
  exists m' b',
    wakeup_all_from fuel self i m
      = (map EvIpi (List.filter (fun c => negb (c =? self))
                      (seq i (total_processors m - i))), Done tt m') /\
    idle_cpu_mask m' = Some b' /\
    (forall c, Z.testbit b' (Z.of_nat c)
               = if decide (i <= c < total_processors m /\ c <> self)
                 then false else Z.testbit b (Z.of_nat c)) /\
    cpus m' = cpus m.
Proof.
  revert i b m. induction fuel as [| fuel IH]; intros i b m Hb Hfuel; [lia |].
  cbn [wakeup_all_from]. unfold bind at 1. cbn [get app].
  destruct (Nat.ltb_spec i (total_processors m)) as [Hlt | Hge].
  - replace (total_processors m - i) with (S (total_processors m - (i + 1))) by lia.
    cbn [seq List.filter]. replace (S i) with (i + 1) by lia.
    destruct (Nat.eqb_spec i self) as [-> | Hne]; cbn [negb].
    + destruct (IH (self + 1) b m Hb ltac:(lia)) as (m' & b' & Hrun & Hmask & Hbits & Hcpus).
      exists m', b'. split.
      * unfold bind at 1. cbn [ret app]. rewrite Hrun. reflexivity.
      * split; [exact Hmask |]. split; [| exact Hcpus].
        intros c. rewrite Hbits. repeat case_decide; try reflexivity; lia.
    + set (m1 := set_idle_cpu_mask (Some (bitmap_set_atomic b i false)) m).
      destruct (IH (i + 1) (bitmap_set_atomic b i false) m1 eq_refl
                  ltac:(change (total_processors m1) with (total_processors m); lia))
        as (m' & b' & Hrun & Hmask & Hbits & Hcpus).
      change (total_processors m1) with (total_processors m) in Hrun, Hbits.
      exists m', b'. split.
      * unfold bind at 1, the_idle_cpu_mask, bind at 1, bind at 1.
        cbn [get]. rewrite Hb. cbn [ret app]. unfold bind at 1.
        cbn [modify send_ipi emit app]. fold m1. rewrite Hrun. reflexivity.
      * split; [exact Hmask |]. split; [| exact Hcpus].
        intros c. rewrite Hbits, testbit_clear.
        repeat case_decide; try reflexivity; lia.
  - replace (total_processors m - i) with 0 by lia. cbn [seq List.filter map].
    exists m, b. split; [reflexivity |]. split; [exact Hb |]. split; [| reflexivity].
    intros c. case_decide; [lia | reflexivity].
Qed.

(** X6: [wakeup_or_interrupt_cpu_all] sends one IPI to every CPU other than
    the caller, in the order of their ids and whether they were idle or
    not, and clears their idle bits; the caller gets no IPI and keeps its
    bit. *)
Theorem wakeup_or_interrupt_cpu_all_others (fuel self : nat) (b : Z) (m : machine) :
  idle_cpu_mask m = Some b ->
  total_processors m < fuel ->
  exists m' b',
    wakeup_or_interrupt_cpu_all fuel self m
      = (map EvIpi (List.filter (fun c => negb (c =? self))
                      (seq 0 (total_processors m))), Done tt m') /\
    idle_cpu_mask m' = Some b' /\
    (forall c, Z.testbit b' (Z.of_nat c)
               = if decide (c < total_processors m /\ c <> self)
                 then false else Z.testbit b (Z.of_nat c)) /\
    cpus m' = cpus m.
Proof.
  intros Hb Hfuel. unfold wakeup_or_interrupt_cpu_all.
  destruct (wakeup_all_from_run fuel self 0 b m Hb ltac:(lia))
    as (m' & b' & Hrun & Hmask & Hbits & Hcpus).
  rewrite Nat.sub_0_r in Hrun. exists m', b'.
  split; [exact Hrun |]. split; [exact Hmask |]. split; [| exact Hcpus].
  intros c. rewrite Hbits. repeat case_decide; try reflexivity; lia.
Qed.

(** ** Draining a queue *)

(** X7: when the loop [while ((t = dequeue(q)) != INVALID_ADDRESS)
    run_thunk(t)] exits, whatever the closures did, the queue is empty, the
    last call was the failed dequeue, and the tasks run are the tasks
    dequeued, in the same order. *)
Theorem drain_exits_on_empty (fuel : nat) (q : queue_id) (m m' : machine)
    (tr : list event) :
  drain fuel q m = (tr, Done tt m') ->
  queue_of q m' = [] /\
  (exists tr0, tr = tr0 ++ [EvDequeue q None]) /\
  ran tr = dequeued tr.
Proof.
  revert m tr. induction fuel as [| fuel IH]; intros m tr; cbn [drain];
    [discriminate |].
  unfold bind at 1. rewrite dequeue_run.
  destruct (queue_of q m) as [| t l] eqn:Hq.
  - cbn [ret app]. intros [= <- <-]. split; [exact Hq |].
    split; [exists []; reflexivity | reflexivity].
  - unfold bind at 1, run_thunk, bind at 1. cbn [emit modify app].
    destruct (drain fuel q (apply t (set_queue q l m))) as [tr2 st2] eqn:Hrec.
    intros [= <- ->]. destruct (IH _ _ Hrec) as (Hempty & [tr0 ->] & Hran).
    split; [exact Hempty |]. split.
    + exists (EvDequeue q (Some t) :: EvRun t :: tr0). reflexivity.
    + change (ran (EvDequeue q (Some t) :: EvRun t :: tr0 ++ [EvDequeue q None]))
        with (t :: ran (tr0 ++ [EvDequeue q None])).
      change (dequeued (EvDequeue q (Some t) :: EvRun t :: tr0 ++ [EvDequeue q None]))
        with (t :: dequeued (tr0 ++ [EvDequeue q None])).
      rewrite Hran. reflexivity.
Qed.

(** X8: when the closures do not touch the queue, draining [bhqueue] or
    [runqueue] runs every queued task once, oldest first, and ends with the
    queue empty after one more iteration than there were tasks. *)
Theorem drain_runs_fifo (fuel : nat) (q : queue_id) (m : machine) :
  (forall t m, queue_of q (apply t m) = queue_of q m) ->
  (forall cpu, q <> QThread cpu) ->
  length (queue_of q m) < fuel ->
  exists m',
    drain fuel q m
      = (flat_map (fun t => [EvDequeue q (Some t); EvRun t]) (queue_of q m)
           ++ [EvDequeue q None], Done tt m') /\
    queue_of q m' = [].
Proof.
  intros Hframe Hq. revert m. induction fuel as [| fuel IH]; intros m Hfuel; [lia |].
  cbn [drain]. unfold bind at 1. rewrite dequeue_run.
  destruct (queue_of q m) as [| t l] eqn:Hqm.
  - cbn [ret app flat_map]. exists m. split; [reflexivity | exact Hqm].
  - assert (Hl : queue_of q (apply t (set_queue q l m)) = l).
    { rewrite Hframe. destruct q; [reflexivity | reflexivity |].
      destruct (Hq cpu eq_refl). }
    cbn [length] in Hfuel.
    destruct (IH (apply t (set_queue q l m)) ltac:(rewrite Hl; lia))
      as (m' & Hrun & Hempty).
    rewrite Hl in Hrun. exists m'. split; [| exact Hempty].
    unfold bind at 1, run_thunk, bind at 1. cbn [emit modify app].
    rewrite Hrun. reflexivity.
Qed.

(** ** The lock block *)

Lemma any_drain (fuel : nat) (q : queue_id) (Q : unit -> machine -> unit -> Prop) m :
  (forall m', Q tt m' tt) -> wp any_step (drain fuel q) tt Q m.
Proof.
  intros HQ. revert m. induction fuel as [| fuel IH]; intros m; cbn [drain].
  - apply wp_spin.
  - apply wp_bind, wp_dequeue. destruct (queue_of q m) as [| t l].
    + exists tt. split; [reflexivity |]. apply wp_ret, HQ.
    + exists tt. split; [reflexivity |]. apply wp_bind.
      eapply wp_run_thunk; [reflexivity |]. apply IH.
Qed.

(** X9: the opportunistic lock block.  When the spinlock is taken the
    block is skipped as a whole and the machine is untouched; when the block
    runs and completes, whatever the closures and services did, it has
    released the lock: the spinlock is free and the caller's
    [have_kernel_lock] is clear. *)
Theorem lock_block_releases (fuel self : nat) (m : machine) :
  state (cpuinfo_from_id m self) <> cpu_interrupt ->
  if kernel_lock m
  then lock_block fuel self m = ([EvTryLock false], Done false m)
  else forall tr upd m',
      lock_block fuel self m = (tr, Done upd m') ->
      kernel_lock m' = false /\
      have_kernel_lock (cpuinfo_from_id m' self) = false.
Proof.
  intros Hstate. unfold lock_block.
  pose proof (kern_try_lock_run self m Hstate) as Htry.
  destruct (kernel_lock m) eqn:Hlock.
  - unfold bind. rewrite Htry. reflexivity.
  - intros tr upd m'. unfold bind at 1. rewrite Htry.
    set (m1 := update_cpu self (set_have_kernel_lock true) (set_kernel_lock true m)).
    destruct (locked_work fuel self m1) as [tr2 st2] eqn:Hwork.
    intros [= <- ->].
    assert (Hwp : wp any_step (locked_work fuel self) tt
                    (fun _ m2 _ => kernel_lock m2 = false /\
                                   have_kernel_lock (cpuinfo_from_id m2 self) = false) m1).
    { unfold locked_work. wp_steps. apply any_drain. intros m2. wp_steps.
      assert (Hfin : forall m3,
        kernel_lock (set_kernel_lock false
                       (update_cpu self (set_have_kernel_lock false) m3)) = false /\
        have_kernel_lock
          (cpuinfo_from_id (set_kernel_lock false
                              (update_cpu self (set_have_kernel_lock false) m3)) self)
        = false).
      { intros m3. split; [reflexivity |].
        change (cpuinfo_from_id (set_kernel_lock false ?x) self)
          with (cpuinfo_from_id x self).
        rewrite cpuinfo_update_cpu. case_decide as Hd; [reflexivity |].
        unfold cpuinfo_from_id.
        rewrite (lookup_ge_None_2 (cpus m3) self);
          [reflexivity | unfold total_processors in Hd; lia]. }
      unfold update_timer, runloop_timer, kern_unlock. wp_steps; apply Hfin. }
    destruct (wp_run _ _ _ _ _ _ _ Hwp Hwork) as (s' & _ & Hpost). exact Hpost.
Qed.

(** ** Reprogramming again *)

Lemma timer_timeout_fixed (delta : Z) :
  (0 <= runloop_timer_min <= runloop_timer_max)%Z ->
  (runloop_timer_max < 2 ^ 63)%Z ->
  (- 2 ^ 63 <= delta < 2 ^ 63)%Z ->
  (0 <= timer_timeout delta < 2 ^ 63)%Z /\
  (timer_timeout delta = delta <-> (runloop_timer_min <= delta <= runloop_timer_max)%Z).
Proof.
  intros Hmm Hmax Hd.
  destruct (timer_timeout_cases delta ltac:(lia) Hd) as [Hlo Hhi].
  destruct (Z_le_gt_dec delta runloop_timer_min) as [Hle | Hgt].
  - rewrite (Hlo Hle). lia.
  - rewrite (Hhi ltac:(lia)). lia.
Qed.

(** X10: after [update_timer] has reprogrammed, a second call with the
    heap and the clock unchanged skips exactly when the next deadline is
    not 0 and was between [runloop_timer_min] and [runloop_timer_max] away,
    so that the timer was armed for the deadline itself and a non-zero
    value was recorded.  A deadline nearer or farther (or already past) is
    armed again by every call, and so is the deadline 0, whose recorded
    value the zero guard takes for a timer never programmed.  The deadline
    is a 64-bit timestamp. *)
Theorem update_timer_settles (self : nat) (m m1 : machine) (tr : list event) :
  (0 <= runloop_timer_min <= runloop_timer_max)%Z ->
  (runloop_timer_max < 2 ^ 63)%Z ->
  (0 <= timer_check (runloop_timers m) < 2 ^ 64)%Z ->
  update_timer self m = (tr, Done true m1) ->
  let next := timer_check (runloop_timers m) in
  let delta := s64 (next - clock_raw m) in
  if decide (next <> 0%Z /\ (runloop_timer_min <= delta <= runloop_timer_max)%Z)
  then update_timer self m1 = ([], Done false m1)
  else exists m2, update_timer self m1 = ([EvTimer (timer_timeout delta)], Done true m2).
Proof.
  intros Hmm Hmax Hnext Hrun next delta.
  pose proof (s64_range (next - clock_raw m)) as Hd.
  fold delta in Hd.
  destruct (timer_timeout_fixed delta Hmm Hmax Hd) as [Hto Hfix].
  rewrite update_timer_unfold in Hrun.
  destruct (negb (last_timer_update m =? 0)%Z
            && (timer_check (runloop_timers m) =? last_timer_update m)%Z);
    [discriminate |].
  cbv zeta in Hrun. fold next in Hrun. fold delta in Hrun. injection Hrun as <- <-.
  rewrite update_timer_unfold.
  cbn [last_timer_update runloop_timers clock_raw set_hw_deadline set_last_timer_update
       update_cpu with_cpus].
  fold next. fold delta.
  set (v := u64 (next + timer_timeout delta - delta)).
  assert (Hv : v = next <-> timer_timeout delta = delta).
  { unfold v, u64. split.
    - intros Heq.
      assert (Hk : ((timer_timeout delta - delta) mod 2 ^ 64 = 0)%Z).
      { replace (next + timer_timeout delta - delta)%Z
          with ((timer_timeout delta - delta) + next)%Z in Heq by lia.
        rewrite <- Zplus_mod_idemp_l in Heq.
        pose proof (Z.mod_pos_bound (timer_timeout delta - delta) (2 ^ 64) ltac:(lia)) as Hb.
        set (k := ((timer_timeout delta - delta) mod 2 ^ 64)%Z) in *.
        destruct (Z_lt_dec (k + next) (2 ^ 64)) as [Hlt | Hge].
        - rewrite Z.mod_small in Heq by lia. lia.
        - assert (Hq : ((k + next) mod 2 ^ 64 = k + next - 2 ^ 64)%Z).
          { symmetry. apply Z.mod_unique with (q := 1%Z); lia. }
          rewrite Hq in Heq. lia. }
      apply Z.mod_divide in Hk; [| lia]. destruct Hk as [q Hq].
      assert (q = 0)%Z by nia. lia.
    - intros ->. replace (next + delta - delta)%Z with next by lia.
      apply Z.mod_small. lia. }
  case_decide as Hdec.
  - destruct Hdec as [Hnz Hin].
    assert (Heq : v = next) by (apply Hv, Hfix, Hin). rewrite Heq.
    destruct (Z.eqb_spec next 0) as [Hz | _]; [contradiction |].
    rewrite Z.eqb_refl. reflexivity.
  - assert (Hgo : negb (v =? 0)%Z && (next =? v)%Z = false).
    { destruct (Z.eqb_spec v 0) as [Hz | Hnz]; [reflexivity |].
      destruct (Z.eqb_spec next v) as [Heq | _]; [| reflexivity].
      exfalso. apply Hdec. split; [congruence |]. apply Hfix, Hv. congruence. }
    rewrite Hgo. cbv zeta. eexists. reflexivity.
Qed.

(** ** One processor *)

(** X11: on a machine with one processor the thread selection is a plain
    dequeue and run: nothing is migrated or woken, no timer is armed, and
    the idle mask is not used, so nothing crashes before it is allocated;
    [wakeup_or_interrupt_cpu_all] does nothing either. *)
Theorem uniprocessor_pass_is_local (fuel : nat) (upd : bool) (m : machine) :
  total_processors m = 1 ->
  1 < fuel ->
  schedule_thread fuel 0 upd m
  = match queue_of (QThread 0) m with
    | t :: l => ([EvDequeue (QThread 0) (Some t); EvRun t],
                 Done tt (apply t (set_queue (QThread 0) l m)))
    | [] => ([EvDequeue (QThread 0) None], Done tt m)
    end
  /\ wakeup_or_interrupt_cpu_all fuel 0 m = ([], Done tt m).
Proof.
  intros Htotal Hfuel. destruct fuel as [| [| fuel]]; try lia. split.
  - unfold schedule_thread. unfold bind at 1. rewrite dequeue_run.
    destruct (queue_of (QThread 0) m) as [| t l].
    + unfold bind at 1, migration_pull, bind at 1. cbn [get app].
      rewrite Htotal. cbn [Nat.add Nat.ltb Nat.leb].
      unfold bind at 1. cbn [ret app]. unfold bind at 1. cbn [ret app].
      cbn [steal_from_user]. unfold bind at 1. cbn [get app]. rewrite Htotal.
      reflexivity.
    + set (m1 := set_queue (QThread 0) l m).
      assert (Htotal1 : total_processors m1 = 1).
      { unfold m1, total_processors. cbn. rewrite length_alter. exact Htotal. }
      unfold bind at 1, bind at 1, migration_push, bind at 1. cbn [get app].
      rewrite Htotal1. cbn [Nat.add Nat.ltb Nat.leb].
      unfold bind at 1. cbn [ret app]. unfold bind at 1, ensure_cpu_timer, bind at 1.
      cbn [get app]. rewrite Htotal1. rewrite andb_false_r. cbn [ret app].
      reflexivity.
  - unfold wakeup_or_interrupt_cpu_all. cbn [wakeup_all_from].
    unfold bind at 1. cbn [get app]. rewrite Htotal. cbn [Nat.ltb Nat.leb Nat.eqb negb].
    unfold bind at 1. cbn [ret app]. unfold bind at 1. cbn [get app Nat.add].
    rewrite Htotal. reflexivity.
Qed.

(** ** The migration scans as a whole *)

Lemma range_first_props (b : Z) (first n cpu : nat) :
  bitmap_range_get_first b first n = Some cpu ->
  first <= cpu < first + n /\
  Z.testbit b (Z.of_nat cpu) = true /\
  (forall c, first <= c < cpu -> Z.testbit b (Z.of_nat c) = false).
Proof.
  revert first. induction n as [| n IH]; intros first; cbn [bitmap_range_get_first];
    [discriminate |].
  destruct (Z.testbit b (Z.of_nat first)) eqn:Hbit.
  - intros [= <-]. split; [lia |]. split; [exact Hbit |]. intros c Hc. lia.
  - intros H. destruct (IH _ H) as (Hr & Hset & Hclear).
    split; [lia |]. split; [exact Hset |]. intros c Hc.
    destruct (Nat.eq_dec c first) as [-> | Hne]; [exact Hbit |]. apply Hclear. lia.
Qed.

Lemma all_threads_alter (new : list thunk) (l : list cpuinfo) (c : nat) :
  c < length l ->
  Permutation
    (flat_map thread_queue (alter (set_thread_queue new) c l)
     ++ thread_queue (default blank_cpu (l !! c)))
    (new ++ flat_map thread_queue l).
Proof.
  revert c. induction l as [| x l IH]; intros c Hc; cbn [length] in Hc; [lia |].
  destruct c as [| c]; cbn [alter list_alter flat_map lookup list_lookup default
                             thread_queue set_thread_queue].
  - cbn. rewrite <- app_assoc. apply Permutation_app_head, Permutation_app_comm.
  - change (list_alter (set_thread_queue new) c l)
      with (alter (set_thread_queue new) c l).
    change (list_lookup c l) with (l !! c).
    rewrite <- app_assoc, (IH c ltac:(lia)). rewrite !app_assoc.
    apply Permutation_app_tail, Permutation_app_comm.
Qed.

Lemma all_threads_set_queue (c : nat) (new : list thunk) (m : machine) :
  c < total_processors m ->
  Permutation (all_threads (set_queue (QThread c) new m) ++ queue_of (QThread c) m)
    (new ++ all_threads m).
Proof. intros Hc. apply (all_threads_alter new (cpus m) c Hc). Qed.

Lemma total_processors_set_queue (q : queue_id) (l : list thunk) (m : machine) :
  total_processors (set_queue q l m) = total_processors m.
Proof.
  destruct q; [reflexivity | reflexivity |].
  unfold total_processors. cbn. apply length_alter.
Qed.

Lemma testbit_clear_same (b : Z) (cpu : nat) :
  Z.testbit (bitmap_set_atomic b cpu false) (Z.of_nat cpu) = false.
Proof. rewrite testbit_clear. apply decide_True. reflexivity. Qed.

Lemma testbit_clear_other (b : Z) (cpu c : nat) :
  c <> cpu ->
  Z.testbit (bitmap_set_atomic b cpu false) (Z.of_nat c) = Z.testbit b (Z.of_nat c).
Proof. intros Hne. rewrite testbit_clear. apply decide_False. exact Hne. Qed.

(** What one step of [migrate_from_self] changes. *)
Lemma from_visit_facts (self cpu : nat) (b : Z) (m : machine) :
  idle_cpu_mask m = Some b ->
  cpu <> self ->
  cpu < total_processors m ->
  0 < thread_queue_size ->
  exists tr m1 b1,
    migrate_from_self_visit self cpu m = (tr, Done tt m1) /\
    idle_cpu_mask m1 = Some b1 /\
    (forall c, c <> cpu -> Z.testbit b1 (Z.of_nat c) = Z.testbit b (Z.of_nat c)) /\
    (forall c, c <> self -> c <> cpu ->
               queue_of (QThread c) m1 = queue_of (QThread c) m) /\
    (Z.testbit b1 (Z.of_nat cpu) = true -> queue_of (QThread cpu) m1 = []) /\
    total_processors m1 = total_processors m /\
    Permutation (all_threads m1) (all_threads m).
Proof.
  intros Hb Hne Hcpu Hroom. unfold migrate_from_self_visit.
  unfold bind at 1, queue_empty, bind at 1. cbn [get ret app].
  destruct (queue_of (QThread cpu) m) as [| u us] eqn:Hq; cbn [negb].
  - unfold bind at 1. rewrite dequeue_run.
    destruct (queue_of (QThread self) m) as [| t l] eqn:Hs.
    + cbn [ret app]. exists [EvDequeue (QThread self) None], m, b.
      split; [reflexivity |]. split; [exact Hb |]. split; [reflexivity |].
      split; [reflexivity |]. split; [intros _; exact Hq |].
      split; reflexivity.
    + assert (Hself : self < total_processors m).
      { apply queue_nonempty_in_range. rewrite Hs. discriminate. }
      unfold bind at 1, enqueue, bind at 1. cbn [get].
      rewrite queue_of_set_queue_ne by congruence. rewrite Hq. cbn [length].
      destruct (Nat.ltb_spec 0 thread_queue_size) as [_ | Hbad]; [| lia].
      unfold bind at 1. cbn [modify]. unfold bind at 1. cbn [emit ret app].
      set (ms := set_queue (QThread self) l m).
      set (m1 := set_queue (QThread cpu) [t] ms).
      rewrite (wakeup_cpu_run cpu b m1 Hb).
      eexists _, _, _. split; [reflexivity |]. split; [reflexivity |].
      split; [intros c Hc; apply testbit_clear_other, Hc |].
      change (total_processors (set_idle_cpu_mask ?x m1)) with (total_processors m1).
      change (all_threads (set_idle_cpu_mask ?x m1)) with (all_threads m1).
      split; [| split; [| split]].
      * intros c Hc1 Hc2.
        change (queue_of (QThread c) (set_idle_cpu_mask ?x m1))
          with (queue_of (QThread c) m1).
        unfold m1, ms. rewrite !queue_of_set_queue_ne by congruence. reflexivity.
      * rewrite testbit_clear_same. discriminate.
      * unfold m1, ms. rewrite !total_processors_set_queue. reflexivity.
      * pose proof (all_threads_set_queue self l m Hself) as P1. rewrite Hs in P1.
        fold ms in P1.
        assert (Hcpu' : cpu < total_processors ms).
        { unfold ms. rewrite total_processors_set_queue. exact Hcpu. }
        pose proof (all_threads_set_queue cpu [t] ms Hcpu') as P2. fold m1 in P2.
        assert (Hqs : queue_of (QThread cpu) ms = []).
        { unfold ms. rewrite queue_of_set_queue_ne by congruence. exact Hq. }
        rewrite Hqs, app_nil_r in P2. cbn [app] in P2.
        apply (Permutation_app_inv_l l). rewrite <- P1, P2.
        rewrite (Permutation_app_comm l). cbn [app]. apply Permutation_middle.
  - rewrite (wakeup_cpu_run cpu b m Hb).
    eexists _, _, _. split; [reflexivity |]. split; [reflexivity |].
    split; [intros c Hc; apply testbit_clear_other, Hc |].
    split; [reflexivity |]. split; [rewrite testbit_clear_same; discriminate |].
    split; reflexivity.
Qed.

Lemma range_first_none_props (b : Z) (first n : nat) :
  bitmap_range_get_first b first n = None ->
  forall c, first <= c < first + n -> Z.testbit b (Z.of_nat c) = false.
Proof.
  revert first. induction n as [| n IH]; intros first; cbn [bitmap_range_get_first].
  - intros _ c Hc. lia.
  - destruct (Z.testbit b (Z.of_nat first)) eqn:Hbit; [discriminate |].
    intros H c Hc. destruct (Nat.eq_dec c first) as [-> | Hne]; [exact Hbit |].
    apply (IH _ H). lia.
Qed.

Lemma migrate_from_self_facts (fuel self first n : nat) (b : Z) (m : machine) :
  idle_cpu_mask m = Some b ->
  n < fuel ->
  first + n <= total_processors m ->
  self < first \/ first + n <= self ->
  0 < thread_queue_size ->
  exists tr m' b',
    migrate_from_self fuel self first n m = (tr, Done tt m') /\
    idle_cpu_mask m' = Some b' /\
    (forall c, ~ first <= c < first + n ->
               Z.testbit b' (Z.of_nat c) = Z.testbit b (Z.of_nat c)) /\
    (forall c, Z.testbit b' (Z.of_nat c) = true -> Z.testbit b (Z.of_nat c) = true) /\
    (forall c, c <> self -> ~ first <= c < first + n ->
               queue_of (QThread c) m' = queue_of (QThread c) m) /\
    idle_cpus_drained b' first n m' /\
    total_processors m' = total_processors m /\
    Permutation (all_threads m') (all_threads m).
Proof.
  revert first n b m.
  induction fuel as [| fuel IH]; intros first n b m Hb Hfuel Hrange Hself Hroom; [lia |].
  cbn [migrate_from_self]. destruct (Nat.eqb_spec n 0) as [Hn | Hn].
  - exists [], m, b. split; [reflexivity |]. split; [exact Hb |].
    split; [reflexivity |]. split; [auto |]. split; [reflexivity |].
    split; [intros c Hc; lia |]. split; reflexivity.
  - unfold bind at 1, the_idle_cpu_mask, bind at 1. cbn [get]. rewrite Hb. cbn [ret app].
    destruct (bitmap_range_get_first b first n) as [cpu |] eqn:Hfirst.
    + destruct (range_first_props _ _ _ _ Hfirst) as (Hin & Hbit & Hclear).
      destruct (from_visit_facts self cpu b m Hb ltac:(lia) ltac:(lia) Hroom)
        as (tr1 & m1 & b1 & Hv & Hb1 & F2 & F3 & F4 & F5 & F6).
      destruct (IH (cpu + 1) (n - (cpu - first + 1)) b1 m1 Hb1 ltac:(lia)
                  ltac:(rewrite F5; lia) ltac:(lia) Hroom)
        as (tr2 & m' & b' & Hr & Hb' & I2 & I2' & I3 & I4 & I5 & I6).
      exists (tr1 ++ tr2), m', b'. split.
      { rewrite (bind_done (migrate_from_self_visit self cpu)
                   (fun _ => migrate_from_self fuel self (cpu + 1) (n - (cpu - first + 1)))
                   m tr1 tt m1 tr2 tt m' Hv Hr). reflexivity. }
      split; [exact Hb' |]. split; [| split; [| split; [| split; [| split]]]].
      * intros c Hc. rewrite I2 by lia. apply F2. lia.
      * intros c Hc. apply I2' in Hc.
        destruct (Nat.eq_dec c cpu) as [-> | Hne]; [exact Hbit |].
        rewrite <- F2 by exact Hne. exact Hc.
      * intros c Hc1 Hc2. rewrite I3 by (try exact Hc1; lia). apply F3; [exact Hc1 | lia].
      * intros c Hc Hset.
        destruct (Nat.lt_trichotomy c cpu) as [Hlt | [-> | Hgt]].
        -- apply I2' in Hset. rewrite F2 in Hset by lia.
           rewrite Hclear in Hset by lia. discriminate.
        -- rewrite I2 in Hset by lia. rewrite I3 by lia. apply F4, Hset.
        -- apply I4; [lia | exact Hset].
      * rewrite I5. exact F5.
      * rewrite I6. exact F6.
    + exists [], m, b. split; [reflexivity |]. split; [exact Hb |].
      split; [reflexivity |]. split; [auto |]. split; [reflexivity |].
      split; [| split; reflexivity].
      intros c Hc Hset. rewrite (range_first_none_props _ _ _ Hfirst c Hc) in Hset.
      discriminate.
Qed.

(** X12: [migrate_from_self] over a range of CPUs that does not hold the
    caller finishes within one iteration per CPU of the range, and leaves
    no CPU of the range marked idle with a thread on its queue: each was
    either woken (its idle bit cleared) or has an empty queue.  Idle bits
    are only ever cleared, and those outside the range are not touched. *)
Theorem migrate_from_self_drains_idle (fuel self first n : nat) (b : Z) (m : machine) :
  idle_cpu_mask m = Some b ->
  n < fuel ->
  first + n <= total_processors m ->
  self < first \/ first + n <= self ->
  0 < thread_queue_size ->
  exists tr m' b',
    migrate_from_self fuel self first n m = (tr, Done tt m') /\
    idle_cpu_mask m' = Some b' /\
    idle_cpus_drained b' first n m' /\
    (forall c, Z.testbit b' (Z.of_nat c) = true -> Z.testbit b (Z.of_nat c) = true) /\
    (forall c, ~ first <= c < first + n ->
               Z.testbit b' (Z.of_nat c) = Z.testbit b (Z.of_nat c)).
Proof.
  intros Hb Hfuel Hrange Hself Hroom.
  destruct (migrate_from_self_facts fuel self first n b m Hb Hfuel Hrange Hself Hroom)
    as (tr & m' & b' & Hr & Hb' & I2 & I2' & I3 & I4 & I5 & I6).
  exists tr, m', b'. auto.
Qed.

(** X13: [migrate_from_self] neither loses nor duplicates a thread: the
    threads queued over all CPUs afterwards are those queued before, it does
    not touch the queue of a CPU outside the range other than the
    caller's, and the number of CPUs is unchanged. *)
Theorem migrate_from_self_conserves_threads (fuel self first n : nat) (b : Z)
    (m : machine) :
  idle_cpu_mask m = Some b ->
  n < fuel ->
  first + n <= total_processors m ->
  self < first \/ first + n <= self ->
  0 < thread_queue_size ->
  exists tr m',
    migrate_from_self fuel self first n m = (tr, Done tt m') /\
    Permutation (all_threads m') (all_threads m) /\
    (forall c, c <> self -> ~ first <= c < first + n ->
               queue_of (QThread c) m' = queue_of (QThread c) m) /\
    total_processors m' = total_processors m.
Proof.
  intros Hb Hfuel Hrange Hself Hroom.
  destruct (migrate_from_self_facts fuel self first n b m Hb Hfuel Hrange Hself Hroom)
    as (tr & m' & b' & Hr & Hb' & I2 & I2' & I3 & I4 & I5 & I6).
  exists tr, m'. auto.
Qed.

(** What one step of [migrate_to_self] changes. *)
Lemma to_visit_facts (t : option thunk) (cpu : nat) (b : Z) (m : machine) :
  idle_cpu_mask m = Some b ->
  exists tr t' m1 b1,
    migrate_to_self_visit t cpu m = (tr, Done t' m1) /\
    idle_cpu_mask m1 = Some b1 /\
    (forall c, c <> cpu -> Z.testbit b1 (Z.of_nat c) = Z.testbit b (Z.of_nat c)) /\
    (forall c, c <> cpu -> queue_of (QThread c) m1 = queue_of (QThread c) m) /\
    (Z.testbit b1 (Z.of_nat cpu) = true -> queue_of (QThread cpu) m1 = []) /\
    total_processors m1 = total_processors m /\
    Permutation (pend t' (all_threads m1)) (pend t (all_threads m)) /\
    (is_Some t -> t' = t /\ cpus m1 = cpus m) /\
    (t' = None -> m1 = m).
Proof.
  intros Hb. unfold migrate_to_self_visit.
  destruct t as [t |].
  - unfold bind at 1. cbn [ret]. unfold bind at 1, queue_empty, bind at 1.
    cbn [get ret app]. rewrite bool_decide_eq_true_2 by eauto.
    cbn [andb]. unfold bind at 1.
    destruct (queue_of (QThread cpu) m) as [| u us] eqn:Hq; cbn [negb].
    + cbn [ret app]. exists [], (Some t), m, b.
      split; [reflexivity |]. split; [exact Hb |]. split; [reflexivity |].
      split; [reflexivity |]. split; [intros _; exact Hq |]. split; [reflexivity |].
      split; [reflexivity |]. split; [intros _; split; reflexivity | discriminate].
    + rewrite (wakeup_cpu_run cpu b m Hb). cbn [ret app].
      eexists _, _, _, _. split; [reflexivity |]. split; [reflexivity |].
      split; [intros c Hc; apply testbit_clear_other, Hc |].
      split; [reflexivity |]. split; [rewrite testbit_clear_same; discriminate |].
      split; [reflexivity |]. split; [reflexivity |].
      split; [intros _; split; reflexivity | discriminate].
  - unfold bind at 1. rewrite dequeue_run.
    destruct (queue_of (QThread cpu) m) as [| u us] eqn:Hq.
    + unfold bind at 1, queue_empty, bind at 1. cbn [get ret app]. rewrite Hq.
      rewrite bool_decide_eq_false_2 by (intros [x Hx]; discriminate).
      cbn [andb]. unfold bind at 1. cbn [ret app].
      exists [EvDequeue (QThread cpu) None], None, m, b.
      split; [reflexivity |]. split; [exact Hb |]. split; [reflexivity |].
      split; [reflexivity |]. split; [intros _; exact Hq |]. split; [reflexivity |].
      split; [reflexivity |]. split; [intros [x Hx]; discriminate | reflexivity].
    + assert (Hrange : cpu < total_processors m).
      { apply queue_nonempty_in_range. rewrite Hq. discriminate. }
      assert (Hperm : Permutation (u :: all_threads (set_queue (QThread cpu) us m))
                        (all_threads m)).
      { pose proof (all_threads_set_queue cpu us m Hrange) as P1. rewrite Hq in P1.
        apply (Permutation_app_inv_l us). rewrite <- P1.
        rewrite (Permutation_app_comm us). cbn [app].
        apply Permutation_middle. }
      unfold bind at 1, queue_empty, bind at 1. cbn [get ret app].
      rewrite queue_of_set_queue_eq by exact Hrange.
      rewrite bool_decide_eq_true_2 by eauto. cbn [andb]. unfold bind at 1.
      destruct us as [| v vs]; cbn [negb].
      * cbn [ret app]. eexists _, _, _, b. split; [reflexivity |].
        split; [exact Hb |]. split; [reflexivity |].
        split; [intros c Hc; apply queue_of_set_queue_ne; congruence |].
        split; [intros _; apply queue_of_set_queue_eq, Hrange |].
        split; [apply total_processors_set_queue |].
        split; [exact Hperm |]. split; [intros [x Hx]; discriminate | discriminate].
      * rewrite (wakeup_cpu_run cpu b (set_queue (QThread cpu) (v :: vs) m) Hb).
        cbn [ret app].
        eexists _, _, _, _. split; [reflexivity |]. split; [reflexivity |].
        split; [intros c Hc; apply testbit_clear_other, Hc |].
        split.
        { intros c Hc.
          change (queue_of (QThread c) (set_idle_cpu_mask ?x ?y))
            with (queue_of (QThread c) y).
          apply queue_of_set_queue_ne. congruence. }
        split; [rewrite testbit_clear_same; discriminate |].
        split.
        { change (total_processors (set_idle_cpu_mask ?x ?y)) with (total_processors y).
          apply total_processors_set_queue. }
        split; [exact Hperm |]. split; [intros [x Hx]; discriminate | discriminate].
Qed.

Lemma migrate_to_self_facts (fuel : nat) (t : option thunk) (first n : nat) (b : Z)
    (m : machine) :
  idle_cpu_mask m = Some b ->
  n < fuel ->
  exists tr t' m' b',
    migrate_to_self fuel t first n m = (tr, Done t' m') /\
    idle_cpu_mask m' = Some b' /\
    (forall c, ~ first <= c < first + n ->
               Z.testbit b' (Z.of_nat c) = Z.testbit b (Z.of_nat c)) /\
    (forall c, Z.testbit b' (Z.of_nat c) = true -> Z.testbit b (Z.of_nat c) = true) /\
    (forall c, ~ first <= c < first + n ->
               queue_of (QThread c) m' = queue_of (QThread c) m) /\
    idle_cpus_drained b' first n m' /\
    total_processors m' = total_processors m /\
    Permutation (pend t' (all_threads m')) (pend t (all_threads m)) /\
    (is_Some t -> t' = t /\ cpus m' = cpus m) /\
    (t' = None -> m' = m).
Proof.
  revert t first n b m.
  induction fuel as [| fuel IH]; intros t first n b m Hb Hfuel; [lia |].
  cbn [migrate_to_self]. destruct (Nat.eqb_spec n 0) as [Hn | Hn].
  - exists [], t, m, b. split; [reflexivity |]. split; [exact Hb |].
    split; [reflexivity |]. split; [auto |]. split; [reflexivity |].
    split; [intros c Hc; lia |]. split; [reflexivity |]. split; [reflexivity |].
    split; [intros _; split; reflexivity | reflexivity].
  - unfold bind at 1, the_idle_cpu_mask, bind at 1. cbn [get]. rewrite Hb. cbn [ret app].
    destruct (bitmap_range_get_first b first n) as [cpu |] eqn:Hfirst.
    + destruct (range_first_props _ _ _ _ Hfirst) as (Hin & Hbit & Hclear).
      destruct (to_visit_facts t cpu b m Hb)
        as (tr1 & t1 & m1 & b1 & Hv & Hb1 & F2 & F3 & F4 & F5 & F6 & F7 & F8).
      destruct (IH t1 (cpu + 1) (n - (cpu - first + 1)) b1 m1 Hb1 ltac:(lia))
        as (tr2 & t' & m' & b' & Hr & Hb' & I2 & I2' & I3 & I4 & I5 & I6 & I7 & I8).
      exists (tr1 ++ tr2), t', m', b'. split.
      { rewrite (bind_done (migrate_to_self_visit t cpu)
                   (fun t => migrate_to_self fuel t (cpu + 1) (n - (cpu - first + 1)))
                   m tr1 t1 m1 tr2 t' m' Hv Hr). reflexivity. }
      split; [exact Hb' |].
      split; [| split; [| split; [| split; [| split; [| split; [| split]]]]]].
      * intros c Hc. rewrite I2 by lia. apply F2. lia.
      * intros c Hc. apply I2' in Hc.
        destruct (Nat.eq_dec c cpu) as [-> | Hne]; [exact Hbit |].
        rewrite <- F2 by exact Hne. exact Hc.
      * intros c Hc. rewrite I3 by lia. apply F3. lia.
      * intros c Hc Hset.
        destruct (Nat.lt_trichotomy c cpu) as [Hlt | [-> | Hgt]].
        -- apply I2' in Hset. rewrite F2 in Hset by lia.
           rewrite Hclear in Hset by lia. discriminate.
        -- rewrite I2 in Hset by lia. rewrite I3 by lia. apply F4, Hset.
        -- apply I4; [lia | exact Hset].
      * rewrite I5. exact F5.
      * rewrite I6. exact F6.
      * intros Ht. destruct (F7 Ht) as [-> Hc1]. destruct (I7 Ht) as [-> Hc2].
        split; [reflexivity | congruence].
      * intros Ht'. assert (Ht1 : t1 = None).
        { destruct t1 as [x |]; [| reflexivity].
          destruct (I7 ltac:(eauto)) as [E _]. congruence. }
        rewrite (I8 Ht'). apply F8, Ht1.
    + exists [], t, m, b. split; [reflexivity |]. split; [exact Hb |].
      split; [reflexivity |]. split; [auto |]. split; [reflexivity |].
      split.
      { intros c Hc Hset. rewrite (range_first_none_props _ _ _ Hfirst c Hc) in Hset.
        discriminate. }
      split; [reflexivity |]. split; [reflexivity |].
      split; [intros _; split; reflexivity | reflexivity].
Qed.

(** X14: [migrate_to_self] finishes within one iteration per CPU of the
    range and leaves no CPU of the range marked idle with a thread on its
    queue, whether or not the caller ends up holding a thread: each idle
    CPU found was either woken (its idle bit cleared) or has an empty queue.
    Idle bits are only ever cleared, and neither bits nor queues outside the
    range are touched. *)
Theorem migrate_to_self_drains_idle (fuel : nat) (t : option thunk) (first n : nat)
    (b : Z) (m : machine) :
  idle_cpu_mask m = Some b ->
  n < fuel ->
  exists tr t' m' b',
    migrate_to_self fuel t first n m = (tr, Done t' m') /\
    idle_cpu_mask m' = Some b' /\
    idle_cpus_drained b' first n m' /\
    (forall c, Z.testbit b' (Z.of_nat c) = true -> Z.testbit b (Z.of_nat c) = true) /\
    (forall c, ~ first <= c < first + n ->
               Z.testbit b' (Z.of_nat c) = Z.testbit b (Z.of_nat c) /\
               queue_of (QThread c) m' = queue_of (QThread c) m).
Proof.
  intros Hb Hfuel.
  destruct (migrate_to_self_facts fuel t first n b m Hb Hfuel)
    as (tr & t' & m' & b' & Hr & Hb' & I2 & I2' & I3 & I4 & I5 & I6 & I7 & I8).
  exists tr, t', m', b'. auto 10.
Qed.

(** X15: [migrate_to_self] neither loses nor duplicates a thread: the
    thread it returns together with the threads left on all queues are the
    thread it was given together with the threads queued before.  A thread
    passed in is returned as it is and no queue changes; when it returns no
    thread, it has changed nothing at all. *)
Theorem migrate_to_self_conserves_threads (fuel : nat) (t : option thunk)
    (first n : nat) (b : Z) (m : machine) :
  idle_cpu_mask m = Some b ->
  n < fuel ->
  exists tr t' m',
    migrate_to_self fuel t first n m = (tr, Done t' m') /\
    Permutation (pend t' (all_threads m')) (pend t (all_threads m)) /\
    (is_Some t -> t' = t /\ cpus m' = cpus m) /\
    (t' = None -> m' = m) /\
    total_processors m' = total_processors m.
Proof.
  intros Hb Hfuel.
  destruct (migrate_to_self_facts fuel t first n b m Hb Hfuel)
    as (tr & t' & m' & b' & Hr & Hb' & I2 & I2' & I3 & I4 & I5 & I6 & I7 & I8).
  exists tr, t', m'. auto 10.
Qed.

(** ** The two migration phases of a pass *)

Lemma queue_out_of_range (c : nat) (m : machine) :
  total_processors m <= c -> queue_of (QThread c) m = [].
Proof.
  intros Hc. destruct (queue_of (QThread c) m) as [| u us] eqn:Hq; [reflexivity |].
  assert (c < total_processors m); [| lia].
  apply queue_nonempty_in_range. rewrite Hq. discriminate.
Qed.

Lemma migration_push_unfold (fuel self : nat) (m : machine) :
  migration_push (S fuel) self m
  = bind (migrate_from_self (S fuel) self (self + 1) (total_processors m - self - 1))
      (fun _ => migrate_from_self (S fuel) self 0 self) m.
Proof.
  unfold migration_push. unfold bind at 1. cbn [get app].
  assert (E1 : (if self + 1 <? total_processors m
                then migrate_from_self (S fuel) self (self + 1)
                       (total_processors m - self - 1)
                else ret tt)
               = migrate_from_self (S fuel) self (self + 1)
                   (total_processors m - self - 1)).
  { destruct (Nat.ltb_spec (self + 1) (total_processors m)) as [_ | Hge]; [reflexivity |].
    replace (total_processors m - self - 1) with 0 by lia. reflexivity. }
  assert (E2 : (if 0 <? self then migrate_from_self (S fuel) self 0 self else ret tt)
               = migrate_from_self (S fuel) self 0 self).
  { destruct (Nat.ltb_spec 0 self) as [_ | Hge]; [reflexivity |].
    replace self with 0 by lia. reflexivity. }
  rewrite E1, E2.
  match goal with |- (let (_, _) := ?x in _) = _ => destruct x end. reflexivity.
Qed.

(** X16: the push phase of a pass (the local queue yielded a thread) ends,
    and afterwards no other CPU is marked idle while it has a thread on its
    queue: every idle CPU with work has been woken.  The phase only clears
    idle bits, leaves the caller's bit alone, and neither loses nor
    duplicates a thread. *)
Theorem migration_push_wakes_idle (fuel self : nat) (b : Z) (m : machine) :
  idle_cpu_mask m = Some b ->
  self < total_processors m ->
  total_processors m < fuel ->
  0 < thread_queue_size ->
  exists tr m' b',
    migration_push fuel self m = (tr, Done tt m') /\
    idle_cpu_mask m' = Some b' /\
    (forall c, c <> self -> Z.testbit b' (Z.of_nat c) = true ->
               queue_of (QThread c) m' = []) /\
    (forall c, Z.testbit b' (Z.of_nat c) = true -> Z.testbit b (Z.of_nat c) = true) /\
    Z.testbit b' (Z.of_nat self) = Z.testbit b (Z.of_nat self) /\
    total_processors m' = total_processors m /\
    Permutation (all_threads m') (all_threads m).
Proof.
  intros Hb Hself Hfuel Hroom.
  destruct fuel as [| fuel]; [lia |]. rewrite migration_push_unfold.
  destruct (migrate_from_self_facts (S fuel) self (self + 1)
              (total_processors m - self - 1) b m Hb ltac:(lia) ltac:(lia)
              ltac:(lia) Hroom)
    as (tr1 & m1 & b1 & Hr1 & Hb1 & I2 & I2' & I3 & I4 & I5 & I6).
  destruct (migrate_from_self_facts (S fuel) self 0 self b1 m1 Hb1 ltac:(lia)
              ltac:(rewrite I5; lia) ltac:(lia) Hroom)
    as (tr2 & m2 & b2 & Hr2 & Hb2 & J2 & J2' & J3 & J4 & J5 & J6).
  exists (tr1 ++ tr2), m2, b2.
  split; [apply (bind_done _ _ _ _ _ _ _ _ _ Hr1 Hr2) |].
  split; [exact Hb2 |]. split; [| split; [| split; [| split]]].
  - intros c Hc Hset.
    destruct (Nat.lt_ge_cases c self) as [Hlt | Hge].
    + apply J4; [lia | exact Hset].
    + destruct (Nat.lt_ge_cases c (total_processors m)) as [Hin | Hout].
      * rewrite J3 by lia. apply I4; [lia |]. rewrite <- J2 by lia. exact Hset.
      * apply queue_out_of_range. rewrite J5, I5. exact Hout.
  - intros c Hc. apply I2', J2', Hc.
  - rewrite J2 by lia. apply I2. lia.
  - rewrite J5. exact I5.
  - rewrite J6. exact I6.
Qed.

(** What the scan of the CPUs in state [cpu_user] changes. *)
Lemma steal_from_user_facts (fuel self cpu : nat) (m : machine) (tr : list event)
    (t : option thunk) (m' : machine) :
  steal_from_user fuel self cpu m = (tr, Done t m') ->
  idle_cpu_mask m' = idle_cpu_mask m /\
  total_processors m' = total_processors m /\
  Permutation (pend t (all_threads m')) (all_threads m) /\
  (forall c, queue_of (QThread c) m = [] -> queue_of (QThread c) m' = []) /\
  queue_of (QThread self) m' = queue_of (QThread self) m /\
  (t = None -> m' = m).
Proof.
  revert cpu tr t m'. induction fuel as [| fuel IH]; intros cpu tr t m'; [discriminate |].
  cbn [steal_from_user]. unfold bind at 1. cbn [get app].
  set (cpu' := if cpu =? total_processors m then 0 else cpu).
  destruct (Nat.eqb_spec cpu' self) as [Heq | Hneq].
  - intros [= <- <- <-]. repeat split; auto.
  - destruct (cpu_state_eqb (state (cpuinfo_from_id m cpu')) cpu_user).
    + unfold bind at 1. rewrite dequeue_run.
      destruct (queue_of (QThread cpu') m) as [| u us] eqn:Hq.
      * destruct (steal_from_user fuel self (cpu' + 1) m) as [tr2 st] eqn:Hrec.
        destruct st as [t2 m2 | | m2]; try discriminate.
        intros [= <- <- <-]. apply (IH _ _ _ _ Hrec).
      * cbn [ret app]. intros [= <- <- <-].
        change (update_cpu cpu' (set_thread_queue us) m)
          with (set_queue (QThread cpu') us m).
        assert (Hrange : cpu' < total_processors m).
        { apply queue_nonempty_in_range. rewrite Hq. discriminate. }
        split; [reflexivity |]. split; [apply total_processors_set_queue |].
        split; [| split; [| split; [| discriminate]]].
        -- pose proof (all_threads_set_queue cpu' us m Hrange) as P1. rewrite Hq in P1.
           cbn [pend]. apply (Permutation_app_inv_l us). rewrite <- P1.
           rewrite (Permutation_app_comm us). cbn [app]. apply Permutation_middle.
        -- intros c Hc. destruct (Nat.eq_dec c cpu') as [-> | Hne]; [congruence |].
           rewrite queue_of_set_queue_ne by congruence. exact Hc.
        -- apply queue_of_set_queue_ne. congruence.
    + destruct (steal_from_user fuel self (cpu' + 1) m) as [tr2 st] eqn:Hrec.
      destruct st as [t2 m2 | | m2]; try discriminate.
      intros [= <- <- <-]. apply (IH _ _ _ _ Hrec).
Qed.

Lemma migration_pull_unfold (fuel self : nat) (m : machine) :
  migration_pull (S fuel) self m
  = bind (migrate_to_self (S fuel) None (self + 1) (total_processors m - self - 1))
      (fun t => bind (migrate_to_self (S fuel) t 0 self)
         (fun t => match t with
                   | None => steal_from_user (S fuel) self (self + 1)
                   | Some _ => ret t
                   end)) m.
Proof.
  unfold migration_pull. unfold bind at 1. cbn [get app].
  assert (E1 : (if self + 1 <? total_processors m
                then migrate_to_self (S fuel) None (self + 1)
                       (total_processors m - self - 1)
                else ret None)
               = migrate_to_self (S fuel) None (self + 1)
                   (total_processors m - self - 1)).
  { destruct (Nat.ltb_spec (self + 1) (total_processors m)) as [_ | Hge]; [reflexivity |].
    replace (total_processors m - self - 1) with 0 by lia. reflexivity. }
  assert (E2 : forall t, (if 0 <? self then migrate_to_self (S fuel) t 0 self else ret t)
                         = migrate_to_self (S fuel) t 0 self).
  { intros t. destruct (Nat.ltb_spec 0 self) as [_ | Hge]; [reflexivity |].
    replace self with 0 by lia. reflexivity. }
  rewrite E1.
  match goal with |- (let (_, _) := ?x in _) = _ => destruct x eqn:E end.
  rewrite <- E. unfold bind at 1 3.
  destruct (migrate_to_self (S fuel) None (self + 1) (total_processors m - self - 1) m)
    as [tr1 [t1 m1 | | m1]]; try reflexivity.
  rewrite E2. reflexivity.
Qed.

(** X17: the pull phase of a pass (the local queue was empty) ends, and
    afterwards no other CPU is marked idle while it has a thread on its
    queue.  The thread returned together with the threads left on all
    queues are the threads queued before; the caller's own queue and idle
    bit are not touched, idle bits are only cleared, and a phase that finds
    no thread has changed nothing. *)
Theorem migration_pull_wakes_idle (fuel self : nat) (b : Z) (m : machine) :
  idle_cpu_mask m = Some b ->
  self < total_processors m ->
  total_processors m < fuel ->
  exists tr t m' b',
    migration_pull fuel self m = (tr, Done t m') /\
    idle_cpu_mask m' = Some b' /\
    (forall c, c <> self -> Z.testbit b' (Z.of_nat c) = true ->
               queue_of (QThread c) m' = []) /\
    (forall c, Z.testbit b' (Z.of_nat c) = true -> Z.testbit b (Z.of_nat c) = true) /\
    Z.testbit b' (Z.of_nat self) = Z.testbit b (Z.of_nat self) /\
    queue_of (QThread self) m' = queue_of (QThread self) m /\
    total_processors m' = total_processors m /\
    Permutation (pend t (all_threads m')) (all_threads m) /\
    (t = None -> m' = m).
Proof.
  intros Hb Hself Hfuel.
  destruct fuel as [| fuel]; [lia |]. rewrite migration_pull_unfold.
  destruct (migrate_to_self_facts (S fuel) None (self + 1)
              (total_processors m - self - 1) b m Hb ltac:(lia))
    as (tr1 & t1 & m1 & b1 & Hr1 & Hb1 & I2 & I2' & I3 & I4 & I5 & I6 & I7 & I8).
  destruct (migrate_to_self_facts (S fuel) t1 0 self b1 m1 Hb1 ltac:(lia))
    as (tr2 & t2 & m2 & b2 & Hr2 & Hb2 & J2 & J2' & J3 & J4 & J5 & J6 & J7 & J8).
  assert (Hdrained : forall c, c <> self -> Z.testbit b2 (Z.of_nat c) = true ->
                               queue_of (QThread c) m2 = []).
  { intros c Hc Hset.
    destruct (Nat.lt_ge_cases c self) as [Hlt | Hge].
    - apply J4; [lia | exact Hset].
    - destruct (Nat.lt_ge_cases c (total_processors m)) as [Hin | Hout].
      + rewrite J3 by lia. apply I4; [lia |]. rewrite <- J2 by lia. exact Hset.
      + apply queue_out_of_range. rewrite J5, I5. exact Hout. }
  destruct t2 as [u |].
  - exists (tr1 ++ tr2 ++ []), (Some u), m2, b2. split.
    { apply (bind_done _ _ _ _ _ _ _ _ _ Hr1).
      apply (bind_done _ _ _ _ _ _ _ _ _ Hr2). reflexivity. }
    split; [exact Hb2 |]. split; [exact Hdrained |].
    split; [intros c Hc; apply I2', J2', Hc |].
    split; [rewrite J2 by lia; apply I2; lia |].
    split; [rewrite J3 by lia; apply I3; lia |].
    split; [rewrite J5; exact I5 |].
    split; [| discriminate]. rewrite J6. exact I6.
  - assert (Ht1 : t1 = None).
    { destruct t1 as [x |]; [| reflexivity].
      destruct (J7 ltac:(eauto)) as [E _]. discriminate. }
    subst t1. pose proof (J8 eq_refl) as E2. pose proof (I8 eq_refl) as E1.
    subst m2. subst m1.
    assert (Hbb : b2 = b) by congruence. subst b2.
    destruct (steal_from_user_high (S fuel) self (self + 1) m ltac:(lia) ltac:(lia)
                Hself ltac:(lia)) as (m3 & Hr3 & _).
    destruct (steal_from_user_facts _ _ _ _ _ _ _ Hr3) as (S1 & S2 & S3 & S4 & S6 & S5).
    eexists (tr1 ++ tr2 ++ _), _, m3, b. split.
    { apply (bind_done _ _ _ _ _ _ _ _ _ Hr1).
      apply (bind_done _ _ _ _ _ _ _ _ _ Hr2). exact Hr3. }
    split; [rewrite S1; exact Hb |].
    split; [intros c Hc Hset; apply S4, Hdrained; assumption |].
    split; [auto |]. split; [reflexivity |].
    split; [exact S6 | split; [exact S2 | split; [exact S3 | exact S5]]].
Qed.

(** ** The timer check before a thread is resumed, repeated *)

Lemma ensure_cpu_timer_quiet (self : nat) (upd : bool) (m : machine) :
  (0 <= s64 (ci_last_timer_update (cpuinfo_from_id m self) - clock_raw m)
     <= runloop_timer_max)%Z ->
  ensure_cpu_timer self upd m = ([], Done tt m).
Proof.
  intros Hbound.
  pose proof (s64_range (ci_last_timer_update (cpuinfo_from_id m self) - clock_raw m))
    as Hrange.
  unfold ensure_cpu_timer, bind at 1. cbn [get].
  destruct (negb upd && (1 <? total_processors m)); [| reflexivity].
  unfold bind at 1. cbn [now]. unfold bind at 1. cbn [current_cpu].
  rewrite u64_small by lia.
  destruct (Z.ltb_spec (s64 (ci_last_timer_update (cpuinfo_from_id m self) - clock_raw m)) 0);
    [lia |].
  destruct (Z.ltb_spec runloop_timer_max
              (s64 (ci_last_timer_update (cpuinfo_from_id m self) - clock_raw m)));
    [lia |].
  reflexivity.
Qed.

(** X18: the timer check made before a thread is resumed settles: run
    again at the same clock reading, with either value of [timer_updated],
    it finds this CPU's recorded deadline within [runloop_timer_max] and
    neither programs the timer nor changes anything. *)
Theorem ensure_cpu_timer_settles (self : nat) (upd : bool) (m : machine) :
  (0 <= runloop_timer_max < 2 ^ 63)%Z ->
  1 < total_processors m ->
  self < total_processors m ->
  exists tr m',
    ensure_cpu_timer self false m = (tr, Done tt m') /\
    ensure_cpu_timer self upd m' = ([], Done tt m').
Proof.
  intros Hmax Htotal Hself.
  destruct (ensure_cpu_timer_spec self m Hmax Htotal Hself)
    as (tr & m' & Hrun & Hclock & Hbound & Htr).
  exists tr, m'. split; [exact Hrun |]. apply ensure_cpu_timer_quiet, Hbound.
Qed.

(** ** The end of a pass *)

(** Thread selection under a monitor whose state its events do not
    change. *)
Section Stable.
Context {S : Type} (step : S -> event -> option S) (s : S).
Hypothesis Hstable : forall e, selection_event e = true -> step s e = Some s.

Lemma stable_wakeup_cpu (cpu : nat) Q m :
  (forall m', Q tt m' s) -> wp step (wakeup_cpu cpu) s Q m.
Proof.
  intros HQ. unfold wakeup_cpu, bitmap_test_and_set_atomic, the_idle_cpu_mask.
  apply wp_bind. eapply wp_emit; [apply Hstable; reflexivity |].
  wp_steps; try apply HQ.
  eapply wp_emit; [apply Hstable; reflexivity |]. apply HQ.
Qed.

Lemma stable_dequeue (cpu : nat) Q m :
  (forall r m', Q r m' s) -> wp step (dequeue (QThread cpu)) s Q m.
Proof.
  intros HQ. apply wp_dequeue.
  destruct (queue_of (QThread cpu) m); exists s;
    (split; [apply Hstable; reflexivity | apply HQ]).
Qed.

Lemma stable_enqueue (cpu : nat) (t : thunk) Q m :
  (forall ok m', Q ok m' s) -> wp step (enqueue cpu t) s Q m.
Proof.
  intros HQ. unfold enqueue. apply wp_bind, wp_get.
  destruct (length (queue_of (QThread cpu) m) <? thread_queue_size).
  - apply wp_bind, wp_modify, wp_bind.
    eapply wp_emit; [apply Hstable; reflexivity |]. apply wp_ret, HQ.
  - apply wp_bind. eapply wp_emit; [apply Hstable; reflexivity |]. apply wp_ret, HQ.
Qed.

Lemma stable_migrate_to_self (fuel : nat) t first_cpu ncpus Q m :
  (forall r m', Q r m' s) ->
  wp step (migrate_to_self fuel t first_cpu ncpus) s Q m.
Proof.
  intros HQ. revert t first_cpu ncpus m.
  induction fuel as [| fuel IH]; intros t first_cpu ncpus m; cbn [migrate_to_self].
  - apply wp_spin.
  - unfold the_idle_cpu_mask. wp_steps; try apply HQ.
    unfold migrate_to_self_visit. apply wp_bind.
    assert (Hrest : forall t' m1,
      wp step
        (e <- queue_empty (QThread n) ;;
         (if bool_decide (is_Some t') && negb e then wakeup_cpu n else ret tt) ;;
         ret t') s
        (fun a m' s' =>
           wp step (migrate_to_self fuel a (n + 1) (ncpus - (n - first_cpu + 1)))
              s' Q m') m1).
    { intros t' m1. apply wp_bind, wp_queue_empty. wp_steps.
      - apply stable_wakeup_cpu. intros m2. wp_steps. apply IH.
      - apply IH. }
    destruct t as [t |].
    + apply wp_ret, Hrest.
    + apply stable_dequeue. intros r m1. apply Hrest.
Qed.

Lemma stable_migrate_from_self (fuel : nat) self first_cpu ncpus Q m :
  (forall m', Q tt m' s) ->
  wp step (migrate_from_self fuel self first_cpu ncpus) s Q m.
Proof.
  intros HQ. revert first_cpu ncpus m.
  induction fuel as [| fuel IH]; intros first_cpu ncpus m; cbn [migrate_from_self].
  - apply wp_spin.
  - unfold the_idle_cpu_mask. wp_steps; try apply HQ.
    unfold migrate_from_self_visit. apply wp_bind, wp_queue_empty. wp_steps.
    + apply stable_wakeup_cpu. intros m1. apply IH.
    + apply stable_dequeue. intros r m1. destruct r as [t |].
      * apply wp_bind, stable_enqueue. intros ok m2.
        apply stable_wakeup_cpu. intros m3. apply IH.
      * wp_steps. apply IH.
Qed.

Lemma stable_steal_from_user (fuel : nat) self cpu Q m :
  (forall r m', Q r m' s) ->
  wp step (steal_from_user fuel self cpu) s Q m.
Proof.
  intros HQ. revert cpu m.
  induction fuel as [| fuel IH]; intros cpu m; cbn [steal_from_user].
  - apply wp_spin.
  - wp_steps; try apply HQ; try apply IH.
    apply stable_dequeue. intros r m1. destruct r; [apply wp_ret, HQ | apply IH].
Qed.

Lemma stable_migration_push (fuel self : nat) Q m :
  (forall m', Q tt m' s) -> wp step (migration_push fuel self) s Q m.
Proof.
  intros HQ. unfold migration_push. wp_steps;
    repeat (apply stable_migrate_from_self; intros ?; wp_steps); apply HQ.
Qed.

Lemma stable_migration_pull (fuel self : nat) Q m :
  (forall r m', Q r m' s) -> wp step (migration_pull fuel self) s Q m.
Proof.
  intros HQ. unfold migration_pull.
  assert (Hsteal : forall m2,
    wp step (steal_from_user fuel self (self + 1)) s Q m2).
  { intros m2. apply stable_steal_from_user, HQ. }
  assert (Hlast : forall t m2,
    wp step (match t with
             | None => steal_from_user fuel self (self + 1)
             | Some _ => ret t
             end) s Q m2).
  { intros [t |] m2; [apply wp_ret, HQ | apply Hsteal]. }
  apply wp_bind, wp_get, wp_bind.
  assert (Hsecond : forall t m2,
    wp step (t0 <- (if 0 <? self then migrate_to_self fuel t 0 self else ret t) ;;
             match t0 with
             | None => steal_from_user fuel self (self + 1)
             | Some _ => ret t0
             end) s Q m2).
  { intros t m2. apply wp_bind. destruct (0 <? self).
    - apply stable_migrate_to_self. intros r m3. apply Hlast.
    - apply wp_ret, Hlast. }
  destruct (self + 1 <? total_processors m).
  - apply stable_migrate_to_self. intros r m2. apply Hsecond.
  - apply wp_ret, Hsecond.
Qed.

End Stable.

Lemma pass_pause (self : nat) (s : stage * bool) Q m :
  (forall m', Q tt m' s) -> wp pass_step (sched_thread_pause self) s Q m.
Proof.
  intros HQ. unfold sched_thread_pause. wp_steps; apply HQ.
Qed.

Lemma pass_drain (fuel : nat) (q : queue_id) (armed : bool) Q m :
  (forall cpu, q <> QThread cpu) ->
  (forall m', Q tt m' (StWork, armed)) ->
  wp pass_step (drain fuel q) (StWork, armed) Q m.
Proof.
  intros Hq HQ. revert m. induction fuel as [| fuel IH]; intros m; cbn [drain].
  - apply wp_spin.
  - apply wp_bind, wp_dequeue. destruct (queue_of q m) as [| t l].
    + exists (StWork, armed). split; [reflexivity |]. apply wp_ret, HQ.
    + exists (StWork, armed). split; [reflexivity |]. apply wp_bind.
      eapply wp_run_thunk; [reflexivity |]. apply IH.
Qed.

Lemma pass_kernel_sleep (fuel self : nat) (s : stage * bool)
    (Q : Empty_set -> machine -> _ -> Prop) m :
  wp pass_step (kernel_sleep fuel self) s Q m.
Proof.
  assert (Hloop : forall m1, wp pass_step (wait_loop fuel) s Q m1).
  { induction fuel as [| fuel IH]; intros m1; cbn [wait_loop].
    - apply wp_spin.
    - apply wp_bind. eapply wp_emit; [reflexivity |].
      apply wp_bind, wp_modify, IH. }
  unfold kernel_sleep. apply wp_bind. eapply wp_emit; [reflexivity |].
  apply wp_bind, wp_modify, wp_bind, wp_get, wp_bind.
  destruct (idle_cpu_mask _); [apply wp_modify | apply wp_ret]; apply Hloop.
Qed.

Lemma pass_try_lock (self : nat) Q m :
  (forall (ok : bool) m', Q ok m' (if ok then StWork else StSelect, false)) ->
  wp pass_step (kern_try_lock self) (StWork, false) Q m.
Proof. intros HQ. unfold kern_try_lock. wp_steps; apply HQ. Qed.

Lemma pass_locked_work (fuel self : nat) Q m :
  (forall upd m', Q upd m' (StSelect, upd)) ->
  wp pass_step (locked_work fuel self) (StWork, false) Q m.
Proof.
  intros HQ. unfold locked_work. wp_steps.
  apply pass_drain; [discriminate |]. intros m1. wp_steps.
  unfold update_timer. wp_steps.
  - unfold kern_unlock. wp_steps. apply HQ.
  - unfold runloop_timer. wp_steps. unfold kern_unlock. wp_steps. apply HQ.
Qed.

Lemma pass_selection_stable (upd : bool) (e : event) :
  selection_event e = true -> pass_step (StSelect, upd) e = Some (StSelect, upd).
Proof. destruct e as [[| | c] r | | | | | | | | | | | | | |]; try discriminate; reflexivity. Qed.

Lemma pass_schedule_thread (fuel self : nat) (upd : bool) Q m :
  (forall m' s', Q tt m' s') ->
  wp pass_step (schedule_thread fuel self upd) (StSelect, upd) Q m.
Proof.
  intros HQ. unfold schedule_thread.
  assert (Hrun : forall t m1,
    wp pass_step (ensure_cpu_timer self upd ;; run_thunk t) (StSelect, upd) Q m1).
  { intros t m1. apply wp_bind. unfold ensure_cpu_timer. apply wp_bind, wp_get.
    destruct upd; cbn [negb andb].
    - apply wp_ret. eapply wp_run_thunk; [reflexivity | apply HQ].
    - unfold runloop_timer. wp_steps;
        (eapply wp_run_thunk; [reflexivity | apply HQ]). }
  apply wp_bind, (stable_dequeue pass_step _ (pass_selection_stable upd)).
  intros r m1. apply wp_bind. destruct r as [t |].
  - apply wp_bind, (stable_migration_push pass_step _ (pass_selection_stable upd)).
    intros m2. apply wp_ret, Hrun.
  - apply (stable_migration_pull pass_step _ (pass_selection_stable upd)).
    intros [t |] m2; [apply Hrun | apply wp_ret, HQ].
Qed.

Lemma pass_step_timers (s s' : stage * bool) (e : event) :
  pass_step s e = Some s' ->
  length (timers [e]) + (if snd s then 1 else 0) = (if snd s' then 1 else 0).
Proof.
  destruct s as [st armed].
  destruct e as [q r | cpu t ok | t | t | ok | | n | | z | c | c | | | |];
    destruct st, armed; try destruct ok; cbn; intros [= <-]; reflexivity.
Qed.

Lemma monitor_timers (tr : list event) (s s' : stage * bool) :
  monitor pass_step s tr = Some s' ->
  length (timers tr) + (if snd s then 1 else 0) <= 1.
Proof.
  revert s. induction tr as [| e tr IH]; intros s H.
  - cbn. destruct (snd s); lia.
  - cbn [monitor] in H. destruct (pass_step s e) as [s1 |] eqn:E; [| discriminate].
    apply IH in H. apply pass_step_timers in E.
    assert (Happ : timers (e :: tr) = timers [e] ++ timers tr).
    { unfold timers. cbn [flat_map]. rewrite app_nil_r. reflexivity. }
    rewrite Happ, length_app. lia.
Qed.


End Proofs.

(** * Concrete runs *)

(** C3, the claim as stated fails: straight after boot the next deadline 0
    equals [last_timer_update], yet the timer is programmed and true is
    returned. *)
Lemma update_timer_zero_deadline :
  timer_check (Platform := quiet_platform) (runloop_timers boot_machine)
    = last_timer_update boot_machine /\
  exists m', update_timer (P := quiet_platform) 0 boot_machine
             = ([EvTimer 100%Z], Done true m')
             /\ hw_deadline m' = Some 1100%Z.
Proof. split; [reflexivity |]. eexists. split; vm_compute; reflexivity. Qed.

(** C4, the claim as stated fails: after CPU 1 armed the timer for 1600
    before resuming a thread, its next lock block acquires the lock, does
    not reprogram, and leaves [last_timer_update] at 1300. *)
Lemma lock_block_stale_deadline :
  exists tr m',
    bind (kern_try_lock 1)
         (fun locked => if locked then locked_work (P := quiet_platform) 4 1 else ret false)
         after_two_passes
    = (EvTryLock true :: tr, Done false m')
    /\ last_timer_update m' = 1300%Z
    /\ hw_deadline m' = Some 1600%Z.
Proof. eexists. eexists. split; [vm_compute; reflexivity |]. split; reflexivity. Qed.

(** Scenario S4 of the spec: CPU 0 keeps thread 11 for itself, moves
    thread 12 to the idle CPU 1 and wakes it; threads 13 and 14 stay
    queued. *)
Example push_machine_pass :
  fst (runloop_internal (P := quiet_platform) 4 0 push_machine)
  = [EvDisableInterrupts; EvTlbFlush;
     EvDequeue QBh (Some 30); EvRun 30; EvDequeue QBh (Some 31); EvRun 31;
     EvDequeue QBh None;
     EvTryLock true; EvTimerService 1000%Z; EvDequeue QRun (Some 40); EvRun 40;
     EvDequeue QRun None; EvMmService; EvTimer 300%Z; EvUnlock;
     EvDequeue (QThread 0) (Some 11);
     EvDequeue (QThread 0) (Some 12); EvEnqueue 1 12 true; EvWakeup 1; EvIpi 1;
     EvRun 11; EvSleep; EvWfi; EvWfi; EvWfi; EvWfi]
  /\ queue_of (QThread 0)
       (left_by (runloop_internal (P := quiet_platform) 4 0 push_machine)) = [13; 14]
  /\ queue_of (QThread 1)
       (left_by (runloop_internal (P := quiet_platform) 4 0 push_machine)) = [12].
Proof. repeat split; vm_compute; reflexivity. Qed.

(** From CPU 1 of [pull_machine]: the idle CPU 3 is tried first and has
    nothing, the idle CPU 0 yields thread 60; CPU 2, which is running a
    thread, is not tried. *)
Example pull_machine_choice :
  pull_spec 9 1 pull_machine
  = ([EvDequeue (QThread 3) None; EvDequeue (QThread 0) (Some 60)], Some 60).
Proof. reflexivity. Qed.

Lemma runloop_consumes_each_task_once_witness :
  0 < thread_queue_size (Platform := quiet_platform) /\
  exists st,
    monitor (consume_step 0) (Some [])
      (fst (runloop_internal (P := quiet_platform) 4 0 push_machine)) = Some st /\
    Permutation
      (pending_of st
       ++ ran (fst (runloop_internal (P := quiet_platform) 4 0 push_machine))
       ++ requeued (fst (runloop_internal (P := quiet_platform) 4 0 push_machine)))
      (dequeued (fst (runloop_internal (P := quiet_platform) 4 0 push_machine))) /\
    (In EvSleep (fst (runloop_internal (P := quiet_platform) 4 0 push_machine)) ->
     pending_of st = []).
Proof.
  assert (H : 0 < thread_queue_size (Platform := quiet_platform)) by (cbn; lia).
  split; [exact H |].
  exact (runloop_consumes_each_task_once (P := quiet_platform) 4 0 push_machine H).
Defined.

Lemma lock_block_records_deadline_witness :
  hw_deadline (left_by (locked_work (P := quiet_platform) 4 0
                          (left_by (kern_try_lock 0 two_cpu_machine))))
  = Some 1300%Z /\
  exists tr1 m1,
    ensure_cpu_timer (P := quiet_platform) 0 false two_cpu_machine
      = (tr1, Done tt m1) /\
    last_timer_update m1 = last_timer_update two_cpu_machine.
Proof.
  pose (m := left_by (kern_try_lock 0 two_cpu_machine)).
  pose (r := locked_work (P := quiet_platform) 4 0 m).
  assert (Hrun : r = (fst r, Done true (left_by r))) by (vm_compute; reflexivity).
  destruct (lock_block_records_deadline (P := quiet_platform) 4 0 m (fst r) true (left_by r)
              (fun _ _ => conj eq_refl eq_refl)
              (fun _ _ => conj eq_refl eq_refl)
              (fun _ => conj eq_refl eq_refl) Hrun) as [_ [[Hhw _] Hcheck]].
  split; [exact Hhw |].
  destruct (Hcheck false two_cpu_machine) as (tr1 & m1 & Hens & Hglobal & _).
  exists tr1, m1. split; [exact Hens | exact Hglobal].
Defined.

Lemma update_timer_timeout_clamped_witness :
  (0 <= runloop_timer_min (Platform := quiet_platform) < 2 ^ 63)%Z /\
  (100 <= 500 -> 100 <= 100 <= 500)%Z.
Proof.
  assert (Hmin : (0 <= runloop_timer_min (Platform := quiet_platform) < 2 ^ 63)%Z)
    by (cbn; lia).
  split; [exact Hmin |].
  assert (Hrun : update_timer (P := quiet_platform) 0 boot_machine
                 = ([EvTimer 100%Z],
                    snd (update_timer (P := quiet_platform) 0 boot_machine)))
    by (vm_compute; reflexivity).
  exact (proj2 (proj2 (update_timer_timeout_clamped (P := quiet_platform) 0 boot_machine
                         [EvTimer 100%Z] _ 100%Z Hmin Hrun (or_introl eq_refl)))).
Defined.


Lemma migrate_visit_one_cpu_witness :
  exists tr m',
    migrate_from_self_visit (P := quiet_platform) 0 1
      (left_by (dequeue (QThread 0) push_machine)) = (tr, Done tt m') /\
    queue_of (QThread 0) m' = [13; 14] /\ queue_of (QThread 1) m' = [12] /\
    In (EvEnqueue 1 12 true) tr /\ In (EvWakeup 1) tr.
Proof.
  destruct (migrate_visit_one_cpu (P := quiet_platform) 0 1 None 2%Z
              (left_by (dequeue (QThread 0) push_machine)))
    as [_ Hfrom].
  - reflexivity.
  - discriminate.
  - cbn. lia.
  - cbn. lia.
  - cbn. lia.
  - exact Hfrom.
Defined.


Lemma shutdown_pass_only_sleeps_witness :
  runloop_internal (P := quiet_platform) 4 0 (set_shutting_down true push_machine)
  = shutdown_pass (P := quiet_platform) 4 0 (set_shutting_down true push_machine) /\
  is_Some (monitor shutdown_step tt
             (fst (runloop_internal (P := quiet_platform) 4 0
                     (set_shutting_down true push_machine)))).
Proof.
  apply (shutdown_pass_only_sleeps (P := quiet_platform) 4 0
           (set_shutting_down true push_machine)).
  - intros t m H. exact H.
  - intros n m H. exact H.
  - intros m H. exact H.
  - reflexivity.
Defined.

Lemma kernel_sleep_idles_forever_witness :
  exists m1,
    kernel_sleep (P := quiet_platform) 3 0 boot_machine
      = (EvSleep :: repeat EvWfi 3, Spin (Nat.iter 3 (fun m => m) m1))
    /\ state (cpuinfo_from_id m1 0) = cpu_idle
    /\ idle_cpu_mask m1 = None.
Proof.
  apply (kernel_sleep_idles_forever (P := quiet_platform) 3 0 boot_machine).
  cbn. lia.
Defined.

(** ** Runs of the further properties *)

Lemma kern_try_lock_exclusive_witness :
  exists m',
    kern_try_lock 0 two_cpu_machine = ([EvTryLock true], Done true m') /\
    kernel_lock m' = true /\
    have_kernel_lock (cpuinfo_from_id m' 0) = true.
Proof.
  destruct (kern_try_lock_exclusive 0 two_cpu_machine) as (m' & Hrun & _ & Hl & _ & Hown).
  - intros c Hc. destruct c as [| [| c]]; discriminate Hc.
  - discriminate.
  - exists m'. split; [exact Hrun |]. split; [exact Hl |].
    apply Hown; [reflexivity | cbn; lia].
Defined.

Lemma kern_unlock_releases_witness :
  exists m',
    kern_unlock 0 (left_by (kern_try_lock 0 two_cpu_machine)) = ([EvUnlock], Done tt m') /\
    kernel_lock m' = false /\
    (forall c, have_kernel_lock (cpuinfo_from_id m' c) = false) /\
    lock_consistent m'.
Proof.
  apply (kern_unlock_releases 0 (left_by (kern_try_lock 0 two_cpu_machine))).
  - intros c Hc. destruct c as [| [| c]]; [| discriminate Hc | discriminate Hc].
    split; [reflexivity |]. intros c' Hc'.
    destruct c' as [| [| c']]; [reflexivity | discriminate Hc' | discriminate Hc'].
  - discriminate.
  - reflexivity.
Defined.

Lemma kern_try_lock_unlock_roundtrip_witness :
  bind (kern_try_lock 0) (fun _ => kern_unlock 0) two_cpu_machine
  = ([EvTryLock true; EvUnlock], Done tt two_cpu_machine).
Proof.
  apply (kern_try_lock_unlock_roundtrip 0 two_cpu_machine).
  - intros c Hc. destruct c as [| [| c]]; discriminate Hc.
  - discriminate.
  - reflexivity.
Defined.

Lemma wakeup_cpu_ipi_once_witness :
  exists m' b',
    bind (wakeup_cpu 1) (fun _ => wakeup_cpu 1) push_machine
      = (EvWakeup 1 :: (if Z.testbit 2 (Z.of_nat 1) then [EvIpi 1] else [])
           ++ [EvWakeup 1], Done tt m') /\
    idle_cpu_mask m' = Some b' /\
    (forall c, Z.testbit b' (Z.of_nat c)
               = if decide (c = 1) then false else Z.testbit 2 (Z.of_nat c)) /\
    cpus m' = cpus push_machine.
Proof. apply (wakeup_cpu_ipi_once 1 2%Z push_machine). reflexivity. Defined.

Lemma sleep_then_wakeup_witness :
  exists m1 m2 b2,
    kernel_sleep (P := quiet_platform) 0 1 two_cpu_machine = ([EvSleep], Spin m1) /\
    wakeup_cpu 1 m1 = ([EvWakeup 1; EvIpi 1], Done tt m2) /\
    idle_cpu_mask m2 = Some b2 /\
    (forall c, Z.testbit b2 (Z.of_nat c)
               = if decide (c = 1) then false else Z.testbit 0 (Z.of_nat c)).
Proof.
  apply (sleep_then_wakeup (P := quiet_platform) 1 0%Z two_cpu_machine). reflexivity.
Defined.

Lemma wakeup_or_interrupt_cpu_all_others_witness :
  exists m' b',
    wakeup_or_interrupt_cpu_all 5 1 pull_machine
      = ([EvIpi 0; EvIpi 2; EvIpi 3], Done tt m') /\
    idle_cpu_mask m' = Some b' /\
    (forall c, Z.testbit b' (Z.of_nat c)
               = if decide (c < total_processors pull_machine /\ c <> 1)
                 then false else Z.testbit 9 (Z.of_nat c)) /\
    cpus m' = cpus pull_machine.
Proof.
  apply (wakeup_or_interrupt_cpu_all_others 5 1 9%Z pull_machine).
  - reflexivity.
  - cbn. lia.
Defined.

Lemma drain_exits_on_empty_witness :
  queue_of QBh (left_by (drain (P := quiet_platform) 4 QBh push_machine)) = [] /\
  (exists tr0, fst (drain (P := quiet_platform) 4 QBh push_machine)
               = tr0 ++ [EvDequeue QBh None]) /\
  ran (fst (drain (P := quiet_platform) 4 QBh push_machine))
  = dequeued (fst (drain (P := quiet_platform) 4 QBh push_machine)).
Proof.
  pose (r := drain (P := quiet_platform) 4 QBh push_machine).
  assert (Hrun : r = (fst r, Done tt (left_by r))) by (vm_compute; reflexivity).
  exact (drain_exits_on_empty (P := quiet_platform) 4 QBh push_machine (left_by r) (fst r)
           Hrun).
Defined.

Lemma drain_runs_fifo_witness :
  exists m',
    drain (P := quiet_platform) 4 QBh push_machine
      = ([EvDequeue QBh (Some 30); EvRun 30; EvDequeue QBh (Some 31); EvRun 31;
          EvDequeue QBh None], Done tt m') /\
    queue_of QBh m' = [].
Proof.
  apply (drain_runs_fifo (P := quiet_platform) 4 QBh push_machine).
  - intros t m. reflexivity.
  - intros cpu. discriminate.
  - cbn. lia.
Defined.

Lemma lock_block_releases_witness :
  kernel_lock (left_by (lock_block (P := quiet_platform) 4 0 two_cpu_machine)) = false /\
  have_kernel_lock
    (cpuinfo_from_id (left_by (lock_block (P := quiet_platform) 4 0 two_cpu_machine)) 0)
  = false.
Proof.
  pose (r := lock_block (P := quiet_platform) 4 0 two_cpu_machine).
  assert (Hrun : r = (fst r, Done true (left_by r))) by (vm_compute; reflexivity).
  assert (Hst : state (cpuinfo_from_id two_cpu_machine 0) <> cpu_interrupt)
    by discriminate.
  exact (lock_block_releases (P := quiet_platform) 4 0 two_cpu_machine Hst
           (fst r) true (left_by r) Hrun).
Defined.

Lemma update_timer_settles_witness :
  update_timer (P := quiet_platform) 0
    (left_by (update_timer (P := quiet_platform) 0 two_cpu_machine))
  = ([], Done false (left_by (update_timer (P := quiet_platform) 0 two_cpu_machine))) /\
  exists m2,
    update_timer (P := quiet_platform) 0
      (left_by (update_timer (P := quiet_platform) 0 wrapped_clock_machine))
    = ([EvTimer 300%Z], Done true m2).
Proof.
  assert (Hmin : (0 <= runloop_timer_min (Platform := quiet_platform)
                    <= runloop_timer_max (Platform := quiet_platform))%Z) by (cbn; lia).
  assert (Hmax : (runloop_timer_max (Platform := quiet_platform) < 2 ^ 63)%Z)
    by (cbn; lia).
  split.
  - pose (r := update_timer (P := quiet_platform) 0 two_cpu_machine).
    assert (Hrun : r = (fst r, Done true (left_by r))) by (vm_compute; reflexivity).
    assert (Hnext : (0 <= timer_check (Platform := quiet_platform)
                            (runloop_timers two_cpu_machine) < 2 ^ 64)%Z) by (cbn; lia).
    pose proof (update_timer_settles (P := quiet_platform) 0 two_cpu_machine (left_by r)
                  (fst r) Hmin Hmax Hnext Hrun) as H.
    cbv zeta in H.
    destruct (decide _) as [_ | Hn] in H; [exact H |].
    exfalso. apply Hn. split; [discriminate |]. split; vm_compute; discriminate.
  - pose (r := update_timer (P := quiet_platform) 0 wrapped_clock_machine).
    assert (Hrun : r = (fst r, Done true (left_by r))) by (vm_compute; reflexivity).
    assert (Hnext : (0 <= timer_check (Platform := quiet_platform)
                            (runloop_timers wrapped_clock_machine) < 2 ^ 64)%Z)
      by (cbn; lia).
    pose proof (update_timer_settles (P := quiet_platform) 0 wrapped_clock_machine
                  (left_by r) (fst r) Hmin Hmax Hnext Hrun) as H.
    cbv zeta in H.
    destruct (decide _) as [[Hz _] | _] in H; [exfalso; apply Hz; reflexivity |].
    exact H.
Defined.

Lemma uniprocessor_pass_is_local_witness :
  schedule_thread (P := quiet_platform) 3 0 false boot_machine
    = ([EvDequeue (QThread 0) None], Done tt boot_machine) /\
  wakeup_or_interrupt_cpu_all 3 0 boot_machine = ([], Done tt boot_machine).
Proof.
  apply (uniprocessor_pass_is_local (P := quiet_platform) 3 false boot_machine).
  - reflexivity.
  - lia.
Defined.

Lemma migrate_from_self_drains_idle_witness :
  exists tr m' b',
    migrate_from_self (P := quiet_platform) 3 0 1 1
      (left_by (dequeue (QThread 0) push_machine)) = (tr, Done tt m') /\
    idle_cpu_mask m' = Some b' /\
    idle_cpus_drained b' 1 1 m' /\
    (forall c, Z.testbit b' (Z.of_nat c) = true -> Z.testbit 2 (Z.of_nat c) = true) /\
    (forall c, ~ 1 <= c < 1 + 1 ->
               Z.testbit b' (Z.of_nat c) = Z.testbit 2 (Z.of_nat c)).
Proof.
  apply (migrate_from_self_drains_idle (P := quiet_platform) 3 0 1 1 2%Z
           (left_by (dequeue (QThread 0) push_machine))).
  - reflexivity.
  - lia.
  - cbn. lia.
  - lia.
  - cbn. lia.
Defined.

Lemma migrate_from_self_conserves_threads_witness :
  exists tr m',
    migrate_from_self (P := quiet_platform) 3 0 1 1
      (left_by (dequeue (QThread 0) push_machine)) = (tr, Done tt m') /\
    Permutation (all_threads m') [12; 13; 14] /\
    (forall c, c <> 0 -> ~ 1 <= c < 1 + 1 ->
               queue_of (QThread c) m'
               = queue_of (QThread c) (left_by (dequeue (QThread 0) push_machine))) /\
    total_processors m' = 2.
Proof.
  apply (migrate_from_self_conserves_threads (P := quiet_platform) 3 0 1 1 2%Z
           (left_by (dequeue (QThread 0) push_machine))).
  - reflexivity.
  - lia.
  - cbn. lia.
  - lia.
  - cbn. lia.
Defined.

Lemma migrate_to_self_drains_idle_witness :
  exists tr t' m' b',
    migrate_to_self 5 None 2 2 pull_machine = (tr, Done t' m') /\
    idle_cpu_mask m' = Some b' /\
    idle_cpus_drained b' 2 2 m' /\
    (forall c, Z.testbit b' (Z.of_nat c) = true -> Z.testbit 9 (Z.of_nat c) = true) /\
    (forall c, ~ 2 <= c < 2 + 2 ->
               Z.testbit b' (Z.of_nat c) = Z.testbit 9 (Z.of_nat c) /\
               queue_of (QThread c) m' = queue_of (QThread c) pull_machine).
Proof.
  apply (migrate_to_self_drains_idle 5 None 2 2 9%Z pull_machine).
  - reflexivity.
  - lia.
Defined.

Lemma migrate_to_self_conserves_threads_witness :
  exists tr t' m',
    migrate_to_self 5 None 0 1 pull_machine = (tr, Done t' m') /\
    Permutation (pend t' (all_threads m')) [60; 61; 50] /\
    (is_Some (@None thunk) -> t' = None /\ cpus m' = cpus pull_machine) /\
    (t' = None -> m' = pull_machine) /\
    total_processors m' = 4.
Proof.
  apply (migrate_to_self_conserves_threads 5 None 0 1 9%Z pull_machine).
  - reflexivity.
  - lia.
Defined.

Lemma migration_push_wakes_idle_witness :
  exists tr m' b',
    migration_push (P := quiet_platform) 3 0
      (left_by (dequeue (QThread 0) push_machine)) = (tr, Done tt m') /\
    idle_cpu_mask m' = Some b' /\
    (forall c, c <> 0 -> Z.testbit b' (Z.of_nat c) = true ->
               queue_of (QThread c) m' = []) /\
    (forall c, Z.testbit b' (Z.of_nat c) = true -> Z.testbit 2 (Z.of_nat c) = true) /\
    Z.testbit b' (Z.of_nat 0) = Z.testbit 2 (Z.of_nat 0) /\
    total_processors m' = 2 /\
    Permutation (all_threads m') [12; 13; 14].
Proof.
  apply (migration_push_wakes_idle (P := quiet_platform) 3 0 2%Z
           (left_by (dequeue (QThread 0) push_machine))).
  - reflexivity.
  - cbn. lia.
  - cbn. lia.
  - cbn. lia.
Defined.

Lemma migration_pull_wakes_idle_witness :
  exists tr t m' b',
    migration_pull 5 1 pull_machine = (tr, Done t m') /\
    idle_cpu_mask m' = Some b' /\
    (forall c, c <> 1 -> Z.testbit b' (Z.of_nat c) = true ->
               queue_of (QThread c) m' = []) /\
    (forall c, Z.testbit b' (Z.of_nat c) = true -> Z.testbit 9 (Z.of_nat c) = true) /\
    Z.testbit b' (Z.of_nat 1) = Z.testbit 9 (Z.of_nat 1) /\
    queue_of (QThread 1) m' = queue_of (QThread 1) pull_machine /\
    total_processors m' = 4 /\
    Permutation (pend t (all_threads m')) [60; 61; 50] /\
    (t = None -> m' = pull_machine).
Proof.
  apply (migration_pull_wakes_idle 5 1 9%Z pull_machine).
  - reflexivity.
  - cbn. lia.
  - cbn. lia.
Defined.

Lemma ensure_cpu_timer_settles_witness :
  exists tr m',
    ensure_cpu_timer (P := quiet_platform) 1 false two_cpu_machine = (tr, Done tt m') /\
    ensure_cpu_timer (P := quiet_platform) 1 false m' = ([], Done tt m').
Proof.
  apply (ensure_cpu_timer_settles (P := quiet_platform) 1 false two_cpu_machine).
  - cbn. lia.
  - cbn. lia.
  - cbn. lia.
Defined.
